(** * Memarena stack allocator: shallow embedding and verification

    The development embeds the stack allocators of the repository,

    - [Allocators]: [Source/Allocators/StackAllocator.hpp], the allocator
      whose policy is a set of flags queried with [PolicyContains];
    - [Legacy]: [Source/StackAllocator/StackAllocator.hpp], the older
      allocator deriving from [StackAllocatorBase];
    - [Templated]: [StackAllocatorTemplated] of the first file, which
      forwards every call to an allocator of [Allocators];

    over one byte-addressed memory, and states the properties of the
    specification about them.

    An operation is a function from the state of the allocator to a result
    carrying the new state; a failed assertion ends the run.  Calls are
    sequential: the lock that [AllocateInternal] and [DeallocateInternal]
    take under the multithreaded policy has no effect on one thread and is
    left out, as are debug names and the reports to the memory manager.
    Constructors and destructors of the objects act on payload bytes,
    which no operation of the allocator reads; of them the development
    keeps the order in which destructors run. *)

From Stdlib Require Import ZArith List Lia Bool.
Import ListNotations.
Local Open Scope Z_scope.

(** ** Machine integers *)

(** Modelled from the spec: [TypeAliases.hpp] is not among the sources.
    [Size], [Offset], [Padding] and [UIntPtr] are its aliases of
    [std::size_t] and [std::uintptr_t], the unsigned integers of a 64-bit
    target, whose arithmetic wraps around. *)
Definition Size := Z.
Definition Offset := Z.
Definition Padding := Z.
Definition UIntPtr := Z.

Definition modulus : Z := 2 ^ 64.

Definition wrap (z : Z) : Z := z mod modulus.

Definition sizeof_Offset : Z := 8.

(** ** Memory

    The arena is a range of a flat byte-addressed memory.  Multi-byte
    fields are stored little endian. *)

Definition Memory := Z -> Z.

Definition write_byte (m : Memory) (a b : Z) : Memory :=
  fun x => if x =? a then b else m x.

Fixpoint store_le (n : nat) (m : Memory) (a v : Z) : Memory :=
  match n with
  | O => m
  | S k => store_le k (write_byte m a (v mod 256)) (a + 1) (v / 256)
  end.

Fixpoint load_le (n : nat) (m : Memory) (a : Z) : Z :=
  match n with
  | O => 0
  | S k => (m a) mod 256 + 256 * load_le k m (a + 1)
  end.

Definition store_Offset (m : Memory) (a : UIntPtr) (v : Offset) : Memory :=
  store_le 8 m a v.

Definition load_Offset (m : Memory) (a : UIntPtr) : Offset :=
  load_le 8 m a.

(** Bytes written by client code through a pointer it holds. *)
Fixpoint write_bytes (m : Memory) (a : UIntPtr) (bs : list Z) : Memory :=
  match bs with
  | [] => m
  | b :: bs' => write_bytes (write_byte m a (b mod 256)) (a + 1) bs'
  end.

(** ** Policies and failures *)

(** Modelled from the spec: [Policies.hpp] is not among the sources.  The
    policy is the immutable set of boolean capabilities of section 4.4;
    [PolicyContains (policy, StackAllocatorPolicy::X)] reads flag [X]. *)
Record StackAllocatorPolicy := mkPolicy {
  SizeCheck : bool;
  BoundsCheck : bool;
  StackCheck : bool;
  NullCheck : bool;
  OwnershipCheck : bool;
  Multithreaded : bool
}.

(** Modelled from the spec: [StackAllocatorPolicy::Default], the default
    configuration, has all safety checks on and thread safety off. *)
Definition Default : StackAllocatorPolicy :=
  mkPolicy true true true true true false.

(** Modelled from the spec: the configuration with all checks off, the
    raw, unchecked allocator. *)
Definition Release : StackAllocatorPolicy :=
  mkPolicy false false false false false false.

(** Modelled from the spec: the failures of section 7.  The assertions
    of the sources print a message; each message is one of these
    failures. *)
Inductive Error :=
| OutOfMemory
| OutOfOrderDeallocation
| NullPointerDeallocation
| NotOwnedPointer
| CorruptionDetected
| InvalidAlignment.

(** ** Allocator state

    [m_TotalSize] and [m_UsedSize] are the data of the base class
    ([Internal::Allocator], [StackAllocatorBase]); the other fields are the
    members of [StackAllocator].  [memory] is the memory the allocator
    writes its headers and guards to. *)
Record StackAllocator := mkStackAllocator {
  m_StartAddress : UIntPtr;
  m_EndAddress : UIntPtr;
  m_CurrentOffset : Offset;
  m_TotalSize : Size;
  m_UsedSize : Size;
  memory : Memory
}.

(** ** Operations: state passing with abort *)

Inductive Result (A : Type) :=
| Ok (v : A) (s : StackAllocator)
| Abort (e : Error) (s : StackAllocator).

Arguments Ok {A} v s.
Arguments Abort {A} e s.

Definition M (A : Type) := StackAllocator -> Result A.

Definition ret {A} (v : A) : M A := fun s => Ok v s.

Definition bind {A B} (c : M A) (k : A -> M B) : M B :=
  fun s => match c s with
           | Ok v s' => k v s'
           | Abort e s' => Abort e s'
           end.

Notation "x <- c ;; k" := (bind c (fun x => k))
  (at level 61, c at next level, right associativity).
Notation "c ;;; k" := (bind c (fun _ => k))
  (at level 61, right associativity).

Definition gets {A} (f : StackAllocator -> A) : M A := fun s => Ok (f s) s.

Definition modify (f : StackAllocator -> StackAllocator) : M unit :=
  fun s => Ok tt (f s).

Definition when (b : bool) (c : M unit) : M unit := if b then c else ret tt.

(** Modelled from the spec: [Assert.hpp] is not among the sources.
    [MEMARENA_ASSERT (condition, ...)] aborts the process when the
    condition is false (section 7: every failure is fatal); the state is
    the one the assertion was reached in. *)
Definition MEMARENA_ASSERT (condition : bool) (e : Error) : M unit :=
  fun s => if condition then Ok tt s else Abort e s.

Definition state_of {A} (r : Result A) : StackAllocator :=
  match r with Ok _ s => s | Abort _ s => s end.

Definition is_Ok {A} (r : Result A) : bool :=
  match r with Ok _ _ => true | Abort _ _ => false end.

Definition failure {A} (r : Result A) : option Error :=
  match r with Ok _ _ => None | Abort e _ => Some e end.

(** Field updates. *)
Definition set_memory (m : Memory) (s : StackAllocator) : StackAllocator :=
  mkStackAllocator (m_StartAddress s) (m_EndAddress s) (m_CurrentOffset s)
                   (m_TotalSize s) (m_UsedSize s) m.

Definition set_m_CurrentOffset (o : Offset) (s : StackAllocator) : StackAllocator :=
  mkStackAllocator (m_StartAddress s) (m_EndAddress s) o
                   (m_TotalSize s) (m_UsedSize s) (memory s).

Definition set_m_UsedSize (u : Size) (s : StackAllocator) : StackAllocator :=
  mkStackAllocator (m_StartAddress s) (m_EndAddress s) (m_CurrentOffset s)
                   (m_TotalSize s) u (memory s).

(** Modelled from the spec: the base class ([Allocator.hpp],
    [StackAllocatorBase.cpp]) is not among the sources.  [GetUsedSize] and
    [GetTotalSize] are read-only introspection; [SetUsedSize] records the
    used size that [GetUsedSize] reports. *)
Definition GetUsedSize (s : StackAllocator) : Size := m_UsedSize s.

Definition GetTotalSize (s : StackAllocator) : Size := m_TotalSize s.

Definition SetUsedSize (size : Size) : M unit := modify (set_m_UsedSize size).

(** The constructor: the base class reserves [totalSize] bytes at
    [startPtr]; nothing is allocated yet. *)
Definition construct (startPtr : UIntPtr) (totalSize : Size) (m : Memory)
  : StackAllocator :=
  mkStackAllocator startPtr (wrap (startPtr + totalSize)) 0 totalSize 0 m.

(** ** PaddingCalculator *)

(** Modelled from the spec: [Utility/Alignment.hpp] is not among the
    sources.  [AlignUp (base, alignment)] is the smallest address at or
    above [base] that is a multiple of [alignment].  The spec has it fail
    with [InvalidAlignment] on an alignment that is not a power of two;
    that failure is not modelled: the embedding rounds up to a multiple
    of any positive alignment, and no operation returns
    [InvalidAlignment]. *)
Definition CalculateAlignedAddress (baseAddress : UIntPtr) (alignment : Z)
  : UIntPtr :=
  wrap ((baseAddress + (alignment - 1)) / alignment * alignment).

(** Modelled from the spec: [aligned = AlignUp (base + headerSize,
    alignment)] and the padding is [aligned - base]. *)
Definition CalculateAlignedPaddingWithHeader
  (baseAddress : UIntPtr) (alignment : Z) (headerSize : Size) : Padding :=
  wrap (CalculateAlignedAddress (wrap (baseAddress + headerSize)) alignment
        - baseAddress).

(** ** HeaderCodec *)

Record StackHeader := mkStackHeader {
  startOffset : Offset;
  endOffset : Offset
}.

Record StackArrayHeader := mkStackArrayHeader {
  array_startOffset : Offset;
  count : Offset
}.

(** [InplaceHeader] derives from [SafeHeaderBase] (one [endOffset] member,
    laid out first) under [StackCheck] and from the empty
    [UnsafeHeaderBase] otherwise. *)
Inductive InplaceHeader :=
| SafeInplaceHeader (endOffset startOffset : Offset)
| UnsafeInplaceHeader (startOffset : Offset).

(** What [DeallocateInternal] needs of its [Header] template argument. *)
Class Header (H : Type) := {
  header_startOffset : H -> Offset;
  header_endOffset : H -> Offset
}.

#[global] Instance StackHeader_Header : Header StackHeader :=
  {| header_startOffset := startOffset; header_endOffset := endOffset |}.

(** An [InplaceHeader] over [UnsafeHeaderBase] has no [endOffset]; the
    member is read under [StackCheck] only, where the base is
    [SafeHeaderBase]. *)
#[global] Instance InplaceHeader_Header : Header InplaceHeader :=
  {| header_startOffset h :=
       match h with
       | SafeInplaceHeader _ s => s
       | UnsafeInplaceHeader s => s
       end;
     header_endOffset h :=
       match h with
       | SafeInplaceHeader e _ => e
       | UnsafeInplaceHeader _ => 0
       end |}.

Definition sizeof_StackArrayHeader : Size := 2 * sizeof_Offset.

Definition store_StackArrayHeader (m : Memory) (a : UIntPtr)
  (h : StackArrayHeader) : Memory :=
  store_Offset (store_Offset m a (array_startOffset h))
               (a + sizeof_Offset) (count h).

Definition load_StackArrayHeader (m : Memory) (a : UIntPtr) : StackArrayHeader :=
  mkStackArrayHeader (load_Offset m a) (load_Offset m (a + sizeof_Offset)).

(** ** GuardCodec *)

(** Modelled from the spec: [Policies/BoundsCheckPolicy.hpp] is not among
    the sources.  The front guard stores the rollback offset and the
    allocation size, the back guard the rollback offset. *)
Record BoundGuardFront := mkBoundGuardFront {
  front_offset : Offset;
  allocationSize : Size
}.

Record BoundGuardBack := mkBoundGuardBack {
  back_offset : Offset
}.

Definition sizeof_BoundGuardFront : Size := 2 * sizeof_Offset.
Definition sizeof_BoundGuardBack : Size := sizeof_Offset.

Definition store_BoundGuardFront (m : Memory) (a : UIntPtr)
  (g : BoundGuardFront) : Memory :=
  store_Offset (store_Offset m a (front_offset g))
               (a + sizeof_Offset) (allocationSize g).

Definition load_BoundGuardFront (m : Memory) (a : UIntPtr) : BoundGuardFront :=
  mkBoundGuardFront (load_Offset m a) (load_Offset m (a + sizeof_Offset)).

Definition store_BoundGuardBack (m : Memory) (a : UIntPtr)
  (g : BoundGuardBack) : Memory :=
  store_Offset m a (back_offset g).

Definition load_BoundGuardBack (m : Memory) (a : UIntPtr) : BoundGuardBack :=
  mkBoundGuardBack (load_Offset m a).

(** ** Handles *)

Record StackPtr := mkStackPtr {
  ptr : UIntPtr;
  header : StackHeader
}.

Record StackArrayPtr := mkStackArrayPtr {
  array_ptr : UIntPtr;
  array_header : StackArrayHeader
}.

(** ** Code shared by the two allocators

    [AllocateHeader] and [GetHeaderFromPtr] are members of the allocator
    of [Source/StackAllocator]; the allocator of [Source/Allocators] calls
    them as [Internal::AllocateHeader] and [Internal::GetHeaderFromPtr]
    with the same arguments. *)

Section WithPolicy.

Variable policy : StackAllocatorPolicy.

Definition sizeof_InplaceHeader : Size :=
  if StackCheck policy then 2 * sizeof_Offset else sizeof_Offset.

(** [InplaceHeader (_startOffset, _endOffset)] *)
Definition mkInplaceHeader (_startOffset _endOffset : Offset) : InplaceHeader :=
  if StackCheck policy then SafeInplaceHeader _endOffset _startOffset
  else UnsafeInplaceHeader _startOffset.

Definition store_InplaceHeader (m : Memory) (a : UIntPtr) (h : InplaceHeader)
  : Memory :=
  match h with
  | SafeInplaceHeader e s => store_Offset (store_Offset m a e) (a + sizeof_Offset) s
  | UnsafeInplaceHeader s => store_Offset m a s
  end.

Definition load_InplaceHeader (m : Memory) (a : UIntPtr) : InplaceHeader :=
  if StackCheck policy
  then SafeInplaceHeader (load_Offset m a) (load_Offset m (a + sizeof_Offset))
  else UnsafeInplaceHeader (load_Offset m a).

(** [GetTotalHeaderSize<headerSize> ()] *)
Definition GetTotalHeaderSize (headerSize : Size) : Size :=
  if BoundsCheck policy then headerSize + sizeof_BoundGuardFront
  else headerSize.

(** [AllocateHeader<InplaceHeader> (ptr, startOffset, endOffset)]:
    the header is constructed at [ptr - sizeof (Header)]. *)
Definition AllocateHeader_Inplace (ptr : UIntPtr) (_startOffset _endOffset : Offset)
  : M unit :=
  let headerAddress := wrap (ptr - sizeof_InplaceHeader) in
  modify (fun s => set_memory
    (store_InplaceHeader (memory s) headerAddress
                         (mkInplaceHeader _startOffset _endOffset)) s).

(** [AllocateHeader<InplaceArrayHeader> (ptr, startOffset, objectCount)] *)
Definition AllocateHeader_Array (ptr : UIntPtr) (_startOffset _count : Offset)
  : M unit :=
  let headerAddress := wrap (ptr - sizeof_StackArrayHeader) in
  modify (fun s => set_memory
    (store_StackArrayHeader (memory s) headerAddress
                            (mkStackArrayHeader _startOffset _count)) s).

(** [GetHeaderFromPtr<InplaceHeader> (address)]: returns the header and
    the header's address, which the caller's [address] is set to. *)
Definition GetHeaderFromPtr_Inplace (address : UIntPtr)
  : M (InplaceHeader * UIntPtr) :=
  let headerAddress := wrap (address - sizeof_InplaceHeader) in
  m <- gets memory ;;
  ret (load_InplaceHeader m headerAddress, headerAddress).

(** [GetHeaderFromPtr<InplaceArrayHeader> (address)] *)
Definition GetHeaderFromPtr_Array (address : UIntPtr)
  : M (StackArrayHeader * UIntPtr) :=
  let headerAddress := wrap (address - sizeof_StackArrayHeader) in
  m <- gets memory ;;
  ret (load_StackArrayHeader m headerAddress, headerAddress).

End WithPolicy.

(** Modelled from the spec: [Internal::GetArrayEndOffset] is defined in
    [AllocatorUtils.hpp], which is not among the sources.  The end offset
    of an array is recomputed as the payload offset plus
    [count * objectSize] (section 4.2), as the member [GetEndOffset] of
    [Source/StackAllocator] does. *)
Definition GetArrayEndOffset (ptrAddress startAddress : UIntPtr)
  (objectCount : Offset) (objectSize : Size) : Offset :=
  let addressOffset := wrap (ptrAddress - startAddress) in
  wrap (addressOffset + wrap (objectCount * objectSize)).

(** Modelled from the spec: [Internal::DestructArray (ptr, objectCount)]
    is defined in [AllocatorUtils.hpp], which is not among the sources.
    The elements are destructed in reverse index order; the result lists
    the indices whose destructor runs, in the order they run. *)
Definition Internal_DestructArray (objectCount : Offset) : list Z :=
  map Z.of_nat (rev (seq 0 (Z.to_nat objectCount))).

(** * [Source/Allocators/StackAllocator.hpp] *)

Module Allocators.

Section WithPolicy.

Variable policy : StackAllocatorPolicy.

(** [OwnsAddress] *)
Definition OwnsAddress (address : UIntPtr) (s : StackAllocator) : bool :=
  (m_StartAddress s <=? address) && (address <=? m_EndAddress s).

(** [SetCurrentOffset] *)
Definition SetCurrentOffset (offset : Offset) : M unit :=
  modify (set_m_CurrentOffset offset) ;;;
  SetUsedSize offset.

(** [Reset] *)
Definition Reset : M unit := SetCurrentOffset 0.

(** [GetAddressFromPtr]; the null pointer is address 0. *)
Definition GetAddressFromPtr (ptr : UIntPtr) : M UIntPtr :=
  when (NullCheck policy)
       (MEMARENA_ASSERT (negb (ptr =? 0)) NullPointerDeallocation) ;;;
  let address := ptr in
  when (OwnershipCheck policy)
       (owns <- gets (OwnsAddress address) ;;
        MEMARENA_ASSERT owns NotOwnedPointer) ;;;
  ret address.

(** [AllocateInternal<headerSize> (size, alignment)] returns
    [{allocatedPtr, startOffset, endOffset}]. *)
Definition AllocateInternal (headerSize : Size) (size : Size) (alignment : Z)
  : M (UIntPtr * Offset * Offset) :=
  cur <- gets m_CurrentOffset ;;
  start <- gets m_StartAddress ;;
  let startOffset := cur in
  let baseAddress := wrap (start + cur) in
  let totalHeaderSize := GetTotalHeaderSize policy headerSize in
  let padding :=
    if 0 <? totalHeaderSize
    then CalculateAlignedPaddingWithHeader baseAddress alignment totalHeaderSize
    else wrap (CalculateAlignedAddress baseAddress alignment - baseAddress) in
  let alignedAddress :=
    if 0 <? totalHeaderSize
    then wrap (baseAddress + padding)
    else CalculateAlignedAddress baseAddress alignment in
  let totalSizeAfterAllocation := wrap (cur + padding + size) in
  when (SizeCheck policy)
       (total <- gets GetTotalSize ;;
        MEMARENA_ASSERT (totalSizeAfterAllocation <=? total) OutOfMemory) ;;;
  totalSizeAfterAllocation <-
    (if BoundsCheck policy then
       let frontGuardAddress := wrap (alignedAddress - totalHeaderSize) in
       let backGuardAddress := wrap (alignedAddress + size) in
       modify (fun s => set_memory
         (store_BoundGuardFront (memory s) frontGuardAddress
                                (mkBoundGuardFront cur size)) s) ;;;
       modify (fun s => set_memory
         (store_BoundGuardBack (memory s) backGuardAddress
                               (mkBoundGuardBack cur)) s) ;;;
       ret (wrap (totalSizeAfterAllocation + sizeof_BoundGuardBack))
     else ret totalSizeAfterAllocation) ;;
  SetCurrentOffset totalSizeAfterAllocation ;;;
  endOffset <- gets m_CurrentOffset ;;
  ret (alignedAddress, startOffset, endOffset).

(** [DeallocateInternal<Header> (address, addressMarker, header)] *)
Definition DeallocateInternal {H : Type} `{Header H}
  (address addressMarker : UIntPtr) (header : H) : M unit :=
  let newOffset := header_startOffset header in
  when (StackCheck policy)
       (cur <- gets m_CurrentOffset ;;
        MEMARENA_ASSERT (header_endOffset header =? cur)
                        OutOfOrderDeallocation) ;;;
  when (BoundsCheck policy)
       (m <- gets memory ;;
        let frontGuardAddress := wrap (addressMarker - sizeof_BoundGuardFront) in
        let frontGuard := load_BoundGuardFront m frontGuardAddress in
        let backGuardAddress := wrap (address + allocationSize frontGuard) in
        let backGuard := load_BoundGuardBack m backGuardAddress in
        MEMARENA_ASSERT ((front_offset frontGuard =? newOffset)
                         && (back_offset backGuard =? newOffset))
                        CorruptionDetected) ;;;
  SetCurrentOffset newOffset.

(** [New<Object>]: [sizeofObject] and [alignofObject] stand for
    [sizeof (Object)] and [alignof (Object)]; the constructor runs on
    the payload. *)
Definition New (sizeofObject : Size) (alignofObject : Z) : M StackPtr :=
  r <- AllocateInternal 0 sizeofObject alignofObject ;;
  let '(voidPtr, startOffset, endOffset) := r in
  ret (mkStackPtr voidPtr (mkStackHeader startOffset endOffset)).

(** [Allocate (size, alignment)] *)
Definition Allocate (size : Size) (alignment : Z) : M UIntPtr :=
  r <- AllocateInternal (sizeof_InplaceHeader policy) size alignment ;;
  let '(voidPtr, startOffset, endOffset) := r in
  AllocateHeader_Inplace policy voidPtr startOffset endOffset ;;;
  ret voidPtr.

(** [Deallocate (void* ptr)] *)
Definition Deallocate (ptr : UIntPtr) : M unit :=
  currentAddress <- GetAddressFromPtr ptr ;;
  r <- GetHeaderFromPtr_Inplace policy currentAddress ;;
  let '(header, addressMarker) := r in
  DeallocateInternal currentAddress addressMarker header.

(** [Deallocate (const StackPtr<void>& ptr)] *)
Definition Deallocate_StackPtr (p : StackPtr) : M unit :=
  let voidPtr := ptr p in
  currentAddress <- GetAddressFromPtr voidPtr ;;
  DeallocateInternal currentAddress currentAddress (header p).

(** [Delete (StackPtr<Object> ptr)]: deallocates, then runs the
    destructor. *)
Definition Delete_StackPtr (p : StackPtr) : M unit :=
  Deallocate_StackPtr (mkStackPtr (ptr p) (header p)).

(** [Delete (Object* ptr)] *)
Definition Delete (ptr : UIntPtr) : M unit := Deallocate ptr.

(** [NewArray<Object> (objectCount)] *)
Definition NewArray (objectCount : Size) (sizeofObject : Size)
  (alignofObject : Z) : M StackArrayPtr :=
  r <- AllocateInternal 0 (wrap (objectCount * sizeofObject)) alignofObject ;;
  let '(voidPtr, startOffset, endOffset) := r in
  ret (mkStackArrayPtr voidPtr (mkStackArrayHeader startOffset objectCount)).

(** [AllocateArray (objectCount, objectSize, alignment)] *)
Definition AllocateArray (objectCount : Size) (objectSize : Size)
  (alignment : Z) : M UIntPtr :=
  let allocationSize := wrap (objectCount * objectSize) in
  r <- AllocateInternal sizeof_StackArrayHeader allocationSize alignment ;;
  let '(voidPtr, startOffset, endOffset) := r in
  AllocateHeader_Array voidPtr startOffset objectCount ;;;
  ret voidPtr.

(** [DeallocateArray (void* ptr, objectSize)] *)
Definition DeallocateArray (ptr : UIntPtr) (objectSize : Size) : M Size :=
  currentAddress <- GetAddressFromPtr ptr ;;
  r <- GetHeaderFromPtr_Array currentAddress ;;
  let '(header, addressMarker) := r in
  start <- gets m_StartAddress ;;
  DeallocateInternal currentAddress addressMarker
    (mkStackHeader (array_startOffset header)
       (GetArrayEndOffset currentAddress start (count header) objectSize)) ;;;
  ret (count header).

(** [DeallocateArray (const StackArrayPtr<void>& ptr, objectSize)] *)
Definition DeallocateArray_StackArrayPtr (p : StackArrayPtr)
  (objectSize : Size) : M Size :=
  let voidPtr := array_ptr p in
  currentAddress <- GetAddressFromPtr voidPtr ;;
  start <- gets m_StartAddress ;;
  DeallocateInternal currentAddress currentAddress
    (mkStackHeader (array_startOffset (array_header p))
       (GetArrayEndOffset currentAddress start (count (array_header p))
                          objectSize)) ;;;
  ret (count (array_header p)).

(** [DeleteArray (Object* ptr)]: the result lists the indices of the
    elements destructed, in order. *)
Definition DeleteArray (ptr : UIntPtr) (sizeofObject : Size) : M (list Z) :=
  objectCount <- DeallocateArray ptr sizeofObject ;;
  ret (Internal_DestructArray objectCount).

(** [DeleteArray (StackArrayPtr<Object> ptr)] *)
Definition DeleteArray_StackArrayPtr (p : StackArrayPtr) (sizeofObject : Size)
  : M (list Z) :=
  objectCount <- DeallocateArray_StackArrayPtr
                   (mkStackArrayPtr (array_ptr p) (array_header p))
                   sizeofObject ;;
  ret (Internal_DestructArray objectCount).

(** [Allocate<Object> ()] *)
Definition Allocate_Object (sizeofObject : Size) (alignofObject : Z)
  : M UIntPtr :=
  Allocate sizeofObject alignofObject.

(** [NewRaw<Object>]: the constructor runs on the payload. *)
Definition NewRaw (sizeofObject : Size) (alignofObject : Z) : M UIntPtr :=
  voidPtr <- Allocate_Object sizeofObject alignofObject ;;
  ret voidPtr.

(** [AllocateArray<Object> (objectCount)] *)
Definition AllocateArray_Object (objectCount : Size) (sizeofObject : Size)
  (alignofObject : Z) : M UIntPtr :=
  AllocateArray objectCount sizeofObject alignofObject.

(** [NewArrayRaw<Object> (objectCount)]: the elements are constructed
    in the payload. *)
Definition NewArrayRaw (objectCount : Size) (sizeofObject : Size)
  (alignofObject : Z) : M UIntPtr :=
  voidPtr <- AllocateArray_Object objectCount sizeofObject alignofObject ;;
  ret voidPtr.

End WithPolicy.

End Allocators.

(** * [Source/StackAllocator/StackAllocator.hpp] *)

Module Legacy.

Section WithPolicy.

Variable policy : StackAllocatorPolicy.

(** Modelled from the spec: [StackAllocatorBase::OwnsAddress] is declared
    in [StackAllocatorBase.hpp] and defined in a file that is not among
    the sources.  Pointers outside [[start, start + total)] are
    rejected. *)
Definition OwnsAddress (address : UIntPtr) (s : StackAllocator) : bool :=
  (m_StartAddress s <=? address) && (address <? m_EndAddress s).

(** Modelled from the spec: [StackAllocatorBase::SetCurrentOffset] is
    declared only; the offset changes and the usage is reported. *)
Definition SetCurrentOffset (offset : Offset) : M unit :=
  modify (set_m_CurrentOffset offset) ;;;
  SetUsedSize offset.

(** Modelled from the spec: [StackAllocatorBase::Reset] is declared only;
    it sets the current offset to 0. *)
Definition Reset : M unit := SetCurrentOffset 0.

(** [GetAddressFromPtr] *)
Definition GetAddressFromPtr (ptr : UIntPtr) : M UIntPtr :=
  when (NullCheck policy)
       (MEMARENA_ASSERT (negb (ptr =? 0)) NullPointerDeallocation) ;;;
  let address := ptr in
  when (OwnershipCheck policy)
       (owns <- gets (OwnsAddress address) ;;
        MEMARENA_ASSERT owns NotOwnedPointer) ;;;
  ret address.

(** [AllocateInternal<headerSize> (size, alignment)] returns
    [allocatedPtr]. *)
Definition AllocateInternal (headerSize : Size) (size : Size) (alignment : Z)
  : M UIntPtr :=
  cur <- gets m_CurrentOffset ;;
  start <- gets m_StartAddress ;;
  let baseAddress := wrap (start + cur) in
  let totalHeaderSize := GetTotalHeaderSize policy headerSize in
  let padding :=
    if 0 <? totalHeaderSize
    then CalculateAlignedPaddingWithHeader baseAddress alignment totalHeaderSize
    else wrap (CalculateAlignedAddress baseAddress alignment - baseAddress) in
  let alignedAddress :=
    if 0 <? totalHeaderSize
    then wrap (baseAddress + padding)
    else CalculateAlignedAddress baseAddress alignment in
  let totalSizeAfterAllocation := wrap (cur + padding + size) in
  when (SizeCheck policy)
       (total <- gets m_TotalSize ;;
        MEMARENA_ASSERT (totalSizeAfterAllocation <=? total) OutOfMemory) ;;;
  when (BoundsCheck policy)
       (let frontGuardAddress := wrap (alignedAddress - totalHeaderSize) in
        let backGuardAddress := wrap (alignedAddress + size) in
        modify (fun s => set_memory
          (store_BoundGuardFront (memory s) frontGuardAddress
                                 (mkBoundGuardFront cur size)) s) ;;;
        modify (fun s => set_memory
          (store_BoundGuardBack (memory s) backGuardAddress
                                (mkBoundGuardBack cur)) s)) ;;;
  SetCurrentOffset totalSizeAfterAllocation ;;;
  ret alignedAddress.

(** [DeallocateInternal<Header> (address, addressMarker, header)].  The
    back guard is read through [frontGuardAddress]; the
    [backGuardAddress] the function computes is not used. *)
Definition DeallocateInternal {H : Type} `{Header H}
  (address addressMarker : UIntPtr) (header : H) : M unit :=
  when (StackCheck policy)
       (cur <- gets m_CurrentOffset ;;
        MEMARENA_ASSERT (header_endOffset header =? cur)
                        OutOfOrderDeallocation) ;;;
  let newOffset := header_startOffset header in
  when (BoundsCheck policy)
       (m <- gets memory ;;
        let frontGuardAddress := wrap (addressMarker - sizeof_BoundGuardFront) in
        let frontGuard := load_BoundGuardFront m frontGuardAddress in
        let backGuardAddress :=
          wrap (frontGuardAddress + allocationSize frontGuard) in
        let backGuard := load_BoundGuardBack m frontGuardAddress in
        MEMARENA_ASSERT ((front_offset frontGuard =? newOffset)
                         && (back_offset backGuard =? newOffset))
                        CorruptionDetected) ;;;
  SetCurrentOffset newOffset.

(** [GetEndOffset (ptrAddress, objectCount, objectSize)] *)
Definition GetEndOffset (ptrAddress : UIntPtr) (objectCount : Offset)
  (objectSize : Size) : M Offset :=
  start <- gets m_StartAddress ;;
  let addressOffset := wrap (ptrAddress - start) in
  ret (wrap (addressOffset + wrap (objectCount * objectSize))).

(** The loop of [DestructArray]: [for (...; i-- > 0;) ptr[i].~Object ()].
    The test reads [i] and then decrements it; the body runs on the
    decremented index. *)
Fixpoint DestructArray_loop (i : nat) : list Z :=
  match i with
  | O => []
  | S i' => Z.of_nat i' :: DestructArray_loop i'
  end.

(** [DestructArray (ptr, objectCount)]: [i] starts at
    [objectCount - 1].  The result lists the indices of the elements
    destructed, in order. *)
Definition DestructArray (objectCount : Offset) : list Z :=
  DestructArray_loop (Z.to_nat (wrap (objectCount - 1))).

(** [New<Object>] *)
Definition New (sizeofObject : Size) (alignofObject : Z) : M StackPtr :=
  startOffset <- gets m_CurrentOffset ;;
  voidPtr <- AllocateInternal 0 sizeofObject alignofObject ;;
  endOffset <- gets m_CurrentOffset ;;
  ret (mkStackPtr voidPtr (mkStackHeader startOffset endOffset)).

(** [Allocate (size, alignment)] *)
Definition Allocate (size : Size) (alignment : Z) : M UIntPtr :=
  startOffset <- gets m_CurrentOffset ;;
  ptr <- AllocateInternal (sizeof_InplaceHeader policy) size alignment ;;
  endOffset <- gets m_CurrentOffset ;;
  AllocateHeader_Inplace policy ptr startOffset endOffset ;;;
  ret ptr.

(** [Deallocate (void* ptr)] *)
Definition Deallocate (ptr : UIntPtr) : M unit :=
  currentAddress <- GetAddressFromPtr ptr ;;
  r <- GetHeaderFromPtr_Inplace policy currentAddress ;;
  let '(header, addressMarker) := r in
  DeallocateInternal currentAddress addressMarker header.

(** [Deallocate (StackPtr<void> ptr)] *)
Definition Deallocate_StackPtr (p : StackPtr) : M unit :=
  currentAddress <- GetAddressFromPtr (ptr p) ;;
  DeallocateInternal currentAddress currentAddress (header p).

(** [Delete (StackPtr<Object> ptr)] *)
Definition Delete_StackPtr (p : StackPtr) : M unit := Deallocate_StackPtr p.

(** [Delete (Object* ptr)] *)
Definition Delete (ptr : UIntPtr) : M unit := Deallocate ptr.

(** [NewArray<Object> (objectCount)] *)
Definition NewArray (objectCount : Size) (sizeofObject : Size)
  (alignofObject : Z) : M StackArrayPtr :=
  startOffset <- gets m_CurrentOffset ;;
  voidPtr <- AllocateInternal 0 (wrap (objectCount * sizeofObject))
                              alignofObject ;;
  ret (mkStackArrayPtr voidPtr (mkStackArrayHeader startOffset objectCount)).

(** [AllocateArray (objectCount, objectSize, alignment)] *)
Definition AllocateArray (objectCount : Size) (objectSize : Size)
  (alignment : Z) : M UIntPtr :=
  let allocationSize := wrap (objectCount * objectSize) in
  startOffset <- gets m_CurrentOffset ;;
  ptr <- AllocateInternal sizeof_StackArrayHeader allocationSize alignment ;;
  AllocateHeader_Array ptr startOffset objectCount ;;;
  ret ptr.

(** [DeallocateArray (void* ptr, objectSize)] *)
Definition DeallocateArray (ptr : UIntPtr) (objectSize : Size) : M Size :=
  currentAddress <- GetAddressFromPtr ptr ;;
  r <- GetHeaderFromPtr_Array currentAddress ;;
  let '(header, addressMarker) := r in
  endOffset <- GetEndOffset currentAddress (count header) objectSize ;;
  DeallocateInternal currentAddress addressMarker
    (mkStackHeader (array_startOffset header) endOffset) ;;;
  ret (count header).

(** [DeallocateArray (const StackArrayPtr<void>& ptr, objectSize)] *)
Definition DeallocateArray_StackArrayPtr (p : StackArrayPtr)
  (objectSize : Size) : M Size :=
  currentAddress <- GetAddressFromPtr (array_ptr p) ;;
  endOffset <- GetEndOffset currentAddress (count (array_header p))
                            objectSize ;;
  DeallocateInternal currentAddress currentAddress
    (mkStackHeader (array_startOffset (array_header p)) endOffset) ;;;
  ret (count (array_header p)).

(** [DeleteArray (Object* ptr)] *)
Definition DeleteArray (ptr : UIntPtr) (sizeofObject : Size) : M (list Z) :=
  objectCount <- DeallocateArray ptr sizeofObject ;;
  ret (DestructArray objectCount).

(** [DeleteArray (StackArrayPtr<Object> ptr)] *)
Definition DeleteArray_StackArrayPtr (p : StackArrayPtr) (sizeofObject : Size)
  : M (list Z) :=
  objectCount <- DeallocateArray_StackArrayPtr p sizeofObject ;;
  ret (DestructArray objectCount).

(** [Allocate<Object> ()] *)
Definition Allocate_Object (sizeofObject : Size) (alignofObject : Z)
  : M UIntPtr :=
  Allocate sizeofObject alignofObject.

(** [NewRaw<Object>]: the constructor runs on the payload. *)
Definition NewRaw (sizeofObject : Size) (alignofObject : Z) : M UIntPtr :=
  voidPtr <- Allocate_Object sizeofObject alignofObject ;;
  ret voidPtr.

(** [AllocateArray<Object> (objectCount)] *)
Definition AllocateArray_Object (objectCount : Size) (sizeofObject : Size)
  (alignofObject : Z) : M UIntPtr :=
  AllocateArray objectCount sizeofObject alignofObject.

(** [NewArrayRaw<Object> (objectCount)]: the elements are constructed
    in the payload. *)
Definition NewArrayRaw (objectCount : Size) (sizeofObject : Size)
  (alignofObject : Z) : M UIntPtr :=
  voidPtr <- AllocateArray_Object objectCount sizeofObject alignofObject ;;
  ret voidPtr.

End WithPolicy.

End Legacy.

(** * Placement of an allocation

    The base address, the padding and the aligned address that
    [AllocateInternal<headerSize> (size, alignment)] computes in a state;
    the two allocators compute them alike. *)

Section Placement.

Variable policy : StackAllocatorPolicy.

Definition baseAddress_at (s : StackAllocator) : UIntPtr :=
  wrap (m_StartAddress s + m_CurrentOffset s).

Definition padding_at (headerSize : Size) (alignment : Z) (s : StackAllocator)
  : Padding :=
  let baseAddress := baseAddress_at s in
  let totalHeaderSize := GetTotalHeaderSize policy headerSize in
  if 0 <? totalHeaderSize
  then CalculateAlignedPaddingWithHeader baseAddress alignment totalHeaderSize
  else wrap (CalculateAlignedAddress baseAddress alignment - baseAddress).

Definition alignedAddress_at (headerSize : Size) (alignment : Z)
  (s : StackAllocator) : UIntPtr :=
  let baseAddress := baseAddress_at s in
  let totalHeaderSize := GetTotalHeaderSize policy headerSize in
  if 0 <? totalHeaderSize
  then wrap (baseAddress + padding_at headerSize alignment s)
  else CalculateAlignedAddress baseAddress alignment.

End Placement.

(** * Callers

    Sequences of calls on the allocator of [Source/Allocators], as a caller
    issues them. *)

(** The four ways to allocate. *)
Inductive Allocation :=
| AllocateCall (size : Size) (alignment : Z)
| NewCall (sizeofObject : Size) (alignofObject : Z)
| NewArrayCall (objectCount sizeofObject : Size) (alignofObject : Z)
| AllocateArrayCall (objectCount objectSize : Size) (alignment : Z).

(** What the caller holds of an allocation and releases it through. *)
Inductive Allocated :=
| RawPointer (ptr : UIntPtr)
| ObjectHandle (p : StackPtr)
| ArrayHandle (p : StackArrayPtr) (sizeofObject : Size)
| RawArrayPointer (ptr : UIntPtr) (objectSize : Size).

Inductive Call :=
| Allocating (c : Allocation)
| Releasing (t : Allocated)
| Resetting.

(** The payload pointer of an allocation. *)
Definition payload (t : Allocated) : UIntPtr :=
  match t with
  | RawPointer p => p
  | ObjectHandle p => ptr p
  | ArrayHandle p _ => array_ptr p
  | RawArrayPointer p _ => p
  end.

Section Callers.

Variable policy : StackAllocatorPolicy.

Definition allocate (c : Allocation) : M Allocated :=
  match c with
  | AllocateCall size alignment =>
      p <- Allocators.Allocate policy size alignment ;; ret (RawPointer p)
  | NewCall sizeofObject alignofObject =>
      p <- Allocators.New policy sizeofObject alignofObject ;;
      ret (ObjectHandle p)
  | NewArrayCall objectCount sizeofObject alignofObject =>
      p <- Allocators.NewArray policy objectCount sizeofObject alignofObject ;;
      ret (ArrayHandle p sizeofObject)
  | AllocateArrayCall objectCount objectSize alignment =>
      p <- Allocators.AllocateArray policy objectCount objectSize alignment ;;
      ret (RawArrayPointer p objectSize)
  end.

(** Each allocation is released by the deallocation that pairs with
    it. *)
Definition release (t : Allocated) : M unit :=
  match t with
  | RawPointer p => Allocators.Deallocate policy p
  | ObjectHandle p => Allocators.Delete_StackPtr policy p
  | ArrayHandle p sizeofObject =>
      Allocators.DeleteArray_StackArrayPtr policy p sizeofObject ;;; ret tt
  | RawArrayPointer p objectSize =>
      Allocators.DeleteArray policy p objectSize ;;; ret tt
  end.

Definition perform (c : Call) : M unit :=
  match c with
  | Allocating c => allocate c ;;; ret tt
  | Releasing t => release t
  | Resetting => Allocators.Reset
  end.

(** A run of allocations; the result lists what the caller holds, the
    most recent allocation first. *)
Fixpoint allocate_all (cs : list Allocation) : M (list Allocated) :=
  match cs with
  | [] => ret []
  | c :: cs' =>
      t <- allocate c ;;
      ts <- allocate_all cs' ;;
      ret (ts ++ [t])
  end.

(** Releases in the order of the list. *)
Fixpoint release_all (ts : list Allocated) : M unit :=
  match ts with
  | [] => ret tt
  | t :: ts' => release t ;;; release_all ts'
  end.

(** What a run of allocations shows the caller: for every call the
    allocation, the offset of its payload in the arena and the current
    offset after the call; the run ends at the first failure. *)
Inductive Outcome :=
| Allocated_at (t : Allocated) (payloadOffset currentOffset : Offset)
| Failed (e : Error).

Fixpoint replay (cs : list Allocation) (s : StackAllocator) : list Outcome :=
  match cs with
  | [] => []
  | c :: cs' =>
      match allocate c s with
      | Ok t s' =>
          Allocated_at t (wrap (payload t - m_StartAddress s'))
                       (m_CurrentOffset s')
          :: replay cs' s'
      | Abort e _ => [Failed e]
      end
  end.

(** The header size, payload size and alignment an allocation call
    passes to [AllocateInternal]. *)
Definition headerSize_of (c : Allocation) : Size :=
  match c with
  | AllocateCall _ _ => sizeof_InplaceHeader policy
  | NewCall _ _ => 0
  | NewArrayCall _ _ _ => 0
  | AllocateArrayCall _ _ _ => sizeof_StackArrayHeader
  end.

Definition size_of (c : Allocation) : Size :=
  match c with
  | AllocateCall size _ => size
  | NewCall sizeofObject _ => sizeofObject
  | NewArrayCall objectCount sizeofObject _ => wrap (objectCount * sizeofObject)
  | AllocateArrayCall objectCount objectSize _ => wrap (objectCount * objectSize)
  end.

Definition alignment_of (c : Allocation) : Z :=
  match c with
  | AllocateCall _ alignment => alignment
  | NewCall _ alignofObject => alignofObject
  | NewArrayCall _ _ alignofObject => alignofObject
  | AllocateArrayCall _ _ alignment => alignment
  end.

(** The allocation lies within the address space: no address or offset
    computed for it wraps around. *)
Definition within_address_space (c : Allocation) (s : StackAllocator) : Prop :=
  0 < alignment_of c /\ 0 <= size_of c /\
  0 <= m_StartAddress s /\ 0 <= m_CurrentOffset s /\
  m_StartAddress s + m_CurrentOffset s
  + GetTotalHeaderSize policy (headerSize_of c) + alignment_of c
  + size_of c + sizeof_BoundGuardBack <= modulus.

Fixpoint in_address_space (cs : list Allocation) (s : StackAllocator) : Prop :=
  match cs with
  | [] => True
  | c :: cs' =>
      within_address_space c s /\
      match allocate c s with
      | Ok _ s' => in_address_space cs' s'
      | Abort _ _ => True
      end
  end.

End Callers.

(** The same calls on the allocator of [Source/StackAllocator]. *)
Section LegacyCallers.

Variable policy : StackAllocatorPolicy.

Definition Legacy_allocate (c : Allocation) : M Allocated :=
  match c with
  | AllocateCall size alignment =>
      p <- Legacy.Allocate policy size alignment ;; ret (RawPointer p)
  | NewCall sizeofObject alignofObject =>
      p <- Legacy.New policy sizeofObject alignofObject ;;
      ret (ObjectHandle p)
  | NewArrayCall objectCount sizeofObject alignofObject =>
      p <- Legacy.NewArray policy objectCount sizeofObject alignofObject ;;
      ret (ArrayHandle p sizeofObject)
  | AllocateArrayCall objectCount objectSize alignment =>
      p <- Legacy.AllocateArray policy objectCount objectSize alignment ;;
      ret (RawArrayPointer p objectSize)
  end.

Definition Legacy_release (t : Allocated) : M unit :=
  match t with
  | RawPointer p => Legacy.Deallocate policy p
  | ObjectHandle p => Legacy.Delete_StackPtr policy p
  | ArrayHandle p sizeofObject =>
      Legacy.DeleteArray_StackArrayPtr policy p sizeofObject ;;; ret tt
  | RawArrayPointer p objectSize =>
      Legacy.DeleteArray policy p objectSize ;;; ret tt
  end.

Definition Legacy_perform (c : Call) : M unit :=
  match c with
  | Allocating c => Legacy_allocate c ;;; ret tt
  | Releasing t => Legacy_release t
  | Resetting => Legacy.Reset
  end.

End LegacyCallers.

(** The states a caller reaches from a constructed allocator, with the
    allocations that are live: those made and not freed since, the most
    recent first.  An allocation is made where [admissible] holds.  A
    release frees a live allocation and, with it, the allocations made
    after it; [Reset] frees them all.  Where a release leaves the current
    offset is what the release computes. *)
Section Reachable.

Variable admissible : Allocation -> StackAllocator -> Prop.
Variable allocate_ : Allocation -> M Allocated.
Variable release_ : Allocated -> M unit.
Variable reset_ : M unit.

Inductive reachable : list Allocated -> StackAllocator -> Prop :=
| reach_construct (startPtr : UIntPtr) (totalSize : Size) (m : Memory) :
    0 <= totalSize < modulus ->
    reachable [] (construct startPtr totalSize m)
| reach_allocate live s c t s' :
    reachable live s ->
    admissible c s ->
    allocate_ c s = Ok t s' ->
    reachable (t :: live) s'
| reach_release later t earlier s s' :
    reachable (later ++ t :: earlier) s ->
    release_ t s = Ok tt s' ->
    reachable earlier s'
| reach_reset live s s' :
    reachable live s ->
    reset_ s = Ok tt s' ->
    reachable [] s'.

End Reachable.

(** The states reached on each of the two allocators, by allocations
    within the address space. *)
Definition reachable_Allocators (policy : StackAllocatorPolicy) :=
  reachable (within_address_space policy)
            (allocate policy) (release policy) Allocators.Reset.

Definition reachable_Legacy (policy : StackAllocatorPolicy) :=
  reachable (within_address_space policy)
            (Legacy_allocate policy) (Legacy_release policy) Legacy.Reset.

(** The allocations of arrays. *)
Definition array_call (c : Allocation) : bool :=
  match c with
  | NewArrayCall _ _ _ | AllocateArrayCall _ _ _ => true
  | AllocateCall _ _ | NewCall _ _ => false
  end.

(** The end offset that the release of an allocation hands to
    [DeallocateInternal], which compares it with the current offset under
    [StackCheck]: read from the in-place header, carried by the handle, or
    recomputed for an array. *)
Definition endOffset_at (policy : StackAllocatorPolicy) (t : Allocated)
  (s : StackAllocator) : Offset :=
  match t with
  | RawPointer p =>
      header_endOffset
        (load_InplaceHeader policy (memory s)
           (wrap (p - sizeof_InplaceHeader policy)))
  | ObjectHandle h => endOffset (header h)
  | ArrayHandle h sizeofObject =>
      GetArrayEndOffset (array_ptr h) (m_StartAddress s)
                        (count (array_header h)) sizeofObject
  | RawArrayPointer p objectSize =>
      GetArrayEndOffset p (m_StartAddress s)
        (count (load_StackArrayHeader (memory s)
                  (wrap (p - sizeof_StackArrayHeader))))
        objectSize
  end.

(** The allocations that return a handle. *)
Definition handle_call (c : Allocation) : bool :=
  match c with
  | NewCall _ _ | NewArrayCall _ _ _ => true
  | AllocateCall _ _ | AllocateArrayCall _ _ _ => false
  end.

(** Two allocators at the same position: the same arena, the same current
    offset. *)
Definition same_position (s t : StackAllocator) : Prop :=
  m_StartAddress s = m_StartAddress t /\
  m_CurrentOffset s = m_CurrentOffset t /\
  m_TotalSize s = m_TotalSize t.

(** Client code overwriting memory through a pointer it holds. *)
Definition overwrite (a : UIntPtr) (bs : list Z) : M unit :=
  modify (fun s => set_memory (write_bytes (memory s) a bs) s).

(** * [StackAllocatorTemplated]

    [StackAllocatorTemplated<Object, policy>] of
    [Source/Allocators/StackAllocator.hpp] holds a [StackAllocator<policy>]
    and forwards every call to it, with [sizeof (Object)] and
    [alignof (Object)] of its one object type. *)

Module Templated.

Section WithObject.

Variable policy : StackAllocatorPolicy.
Variable sizeofObject : Size.
Variable alignofObject : Z.

Definition New : M StackPtr :=
  Allocators.New policy sizeofObject alignofObject.

Definition NewRaw : M UIntPtr :=
  Allocators.NewRaw policy sizeofObject alignofObject.

Definition Delete_StackPtr (p : StackPtr) : M unit :=
  Allocators.Delete_StackPtr policy p.

Definition Delete (ptr : UIntPtr) : M unit := Allocators.Delete policy ptr.

Definition NewArray (objectCount : Size) : M StackArrayPtr :=
  Allocators.NewArray policy objectCount sizeofObject alignofObject.

Definition NewArrayRaw (objectCount : Size) : M UIntPtr :=
  Allocators.NewArrayRaw policy objectCount sizeofObject alignofObject.

Definition DeleteArray (ptr : UIntPtr) : M (list Z) :=
  Allocators.DeleteArray policy ptr sizeofObject.

Definition DeleteArray_StackArrayPtr (p : StackArrayPtr) : M (list Z) :=
  Allocators.DeleteArray_StackArrayPtr policy p sizeofObject.

Definition Allocate (size : Size) (alignment : Z) : M UIntPtr :=
  Allocators.Allocate policy size alignment.

Definition Allocate_Object : M UIntPtr :=
  Allocators.Allocate policy sizeofObject alignofObject.

Definition Deallocate (ptr : UIntPtr) : M unit :=
  Allocators.Deallocate policy ptr.

Definition Deallocate_StackPtr (p : StackPtr) : M unit :=
  Allocators.Deallocate_StackPtr policy p.

Definition AllocateArray (objectCount objectSize : Size) (alignment : Z)
  : M UIntPtr :=
  Allocators.AllocateArray policy objectCount objectSize alignment.

Definition AllocateArray_Object (objectCount : Size) : M UIntPtr :=
  AllocateArray objectCount sizeofObject alignofObject.

Definition DeallocateArray (ptr : UIntPtr) (objectSize : Size) : M Size :=
  Allocators.DeallocateArray policy ptr objectSize.

Definition DeallocateArray_StackArrayPtr (p : StackArrayPtr)
  (objectSize : Size) : M Size :=
  Allocators.DeallocateArray_StackArrayPtr policy p objectSize.

Definition Reset : M unit := Allocators.Reset.

Definition GetUsedSize (s : StackAllocator) : Size := GetUsedSize s.

Definition GetTotalSize (s : StackAllocator) : Size := GetTotalSize s.

End WithObject.

End Templated.

(** * What a release reads and decides

    A release hands [DeallocateInternal] the address of the payload, an
    address marker and a header [{startOffset, endOffset}]; [endOffset_at]
    above is the end offset of that header. *)

(** The start offset of the header, which the current offset is rolled
    back to: read from the in-place header or carried by the handle. *)
Definition startOffset_at (policy : StackAllocatorPolicy) (t : Allocated)
  (s : StackAllocator) : Offset :=
  match t with
  | RawPointer p =>
      header_startOffset
        (load_InplaceHeader policy (memory s)
           (wrap (p - sizeof_InplaceHeader policy)))
  | ObjectHandle h => startOffset (header h)
  | ArrayHandle h _ => array_startOffset (array_header h)
  | RawArrayPointer p _ =>
      array_startOffset
        (load_StackArrayHeader (memory s) (wrap (p - sizeof_StackArrayHeader)))
  end.

(** The address marker, below which [DeallocateInternal] looks for the
    front guard: the address of the in-place header for a raw pointer, the
    address of the payload for a handle. *)
Definition addressMarker_of (policy : StackAllocatorPolicy) (t : Allocated)
  : UIntPtr :=
  match t with
  | RawPointer p => wrap (p - sizeof_InplaceHeader policy)
  | ObjectHandle h => ptr h
  | ArrayHandle h _ => array_ptr h
  | RawArrayPointer p _ => wrap (p - sizeof_StackArrayHeader)
  end.

(** The comparison of the guards in [Allocators.DeallocateInternal]. *)
Definition guards_match (policy : StackAllocatorPolicy) (t : Allocated)
  (s : StackAllocator) : bool :=
  let frontGuard :=
    load_BoundGuardFront (memory s)
      (wrap (addressMarker_of policy t - sizeof_BoundGuardFront)) in
  let backGuard :=
    load_BoundGuardBack (memory s)
      (wrap (payload t + allocationSize frontGuard)) in
  (front_offset frontGuard =? startOffset_at policy t s)
  && (back_offset backGuard =? startOffset_at policy t s).

(** The comparison of the guards in [Legacy.DeallocateInternal], which
    reads both through the address of the front guard. *)
Definition Legacy_guards_match (policy : StackAllocatorPolicy) (t : Allocated)
  (s : StackAllocator) : bool :=
  let frontGuardAddress :=
    wrap (addressMarker_of policy t - sizeof_BoundGuardFront) in
  let frontGuard := load_BoundGuardFront (memory s) frontGuardAddress in
  let backGuard := load_BoundGuardBack (memory s) frontGuardAddress in
  (front_offset frontGuard =? startOffset_at policy t s)
  && (back_offset backGuard =? startOffset_at policy t s).

(** The checks of a release, in the order the code makes them; [None]
    when all of them pass. *)
Definition release_checks (policy : StackAllocatorPolicy) (t : Allocated)
  (s : StackAllocator) : option Error :=
  if NullCheck policy && (payload t =? 0) then Some NullPointerDeallocation
  else if OwnershipCheck policy && negb (Allocators.OwnsAddress (payload t) s)
  then Some NotOwnedPointer
  else if StackCheck policy
          && negb (endOffset_at policy t s =? m_CurrentOffset s)
  then Some OutOfOrderDeallocation
  else if BoundsCheck policy && negb (guards_match policy t s)
  then Some CorruptionDetected
  else None.

Definition Legacy_release_checks (policy : StackAllocatorPolicy) (t : Allocated)
  (s : StackAllocator) : option Error :=
  if NullCheck policy && (payload t =? 0) then Some NullPointerDeallocation
  else if OwnershipCheck policy && negb (Legacy.OwnsAddress (payload t) s)
  then Some NotOwnedPointer
  else if StackCheck policy
          && negb (endOffset_at policy t s =? m_CurrentOffset s)
  then Some OutOfOrderDeallocation
  else if BoundsCheck policy && negb (Legacy_guards_match policy t s)
  then Some CorruptionDetected
  else None.

(** The state [SetCurrentOffset (offset)] leaves. *)
Definition rolled_back (offset : Offset) (s : StackAllocator) : StackAllocator :=
  set_m_UsedSize offset (set_m_CurrentOffset offset s).

(** The releases through a handle. *)
Definition by_handle (t : Allocated) : bool :=
  match t with
  | ObjectHandle _ | ArrayHandle _ _ => true
  | RawPointer _ | RawArrayPointer _ _ => false
  end.

(** * What an allocation leaves *)

(** The memory right after a committed allocation whose payload is at
    [p]: the guards under [BoundsCheck], and over them the in-place header
    of [Allocate] and [AllocateArray]. *)
Definition memory_after (policy : StackAllocatorPolicy) (c : Allocation)
  (p : UIntPtr) (endOffset : Offset) (s : StackAllocator) : Memory :=
  let hs := headerSize_of policy c in
  let guarded :=
    if BoundsCheck policy
    then store_BoundGuardBack
           (store_BoundGuardFront (memory s)
              (p - GetTotalHeaderSize policy hs)
              (mkBoundGuardFront (m_CurrentOffset s) (size_of c)))
           (p + size_of c) (mkBoundGuardBack (m_CurrentOffset s))
    else memory s in
  match c with
  | AllocateCall _ _ =>
      store_InplaceHeader guarded (p - hs)
        (mkInplaceHeader policy (m_CurrentOffset s) endOffset)
  | AllocateArrayCall objectCount _ _ =>
      store_StackArrayHeader guarded (p - hs)
        (mkStackArrayHeader (m_CurrentOffset s) objectCount)
  | NewCall _ _ | NewArrayCall _ _ _ => guarded
  end.

(** What the caller holds after a committed allocation. *)
Definition allocation_result (c : Allocation) (p : UIntPtr)
  (startOffset endOffset : Offset) : Allocated :=
  match c with
  | AllocateCall _ _ => RawPointer p
  | NewCall _ _ => ObjectHandle (mkStackPtr p (mkStackHeader startOffset endOffset))
  | NewArrayCall objectCount sizeofObject _ =>
      ArrayHandle (mkStackArrayPtr p (mkStackArrayHeader startOffset objectCount))
                  sizeofObject
  | AllocateArrayCall _ objectSize _ => RawArrayPointer p objectSize
  end.

(** * Runs of calls *)

(** A run of calls, up to the first that fails. *)
Fixpoint perform_all (policy : StackAllocatorPolicy) (cs : list Call)
  : M unit :=
  match cs with
  | [] => ret tt
  | c :: cs' => perform policy c ;;; perform_all policy cs'
  end.

Fixpoint Legacy_perform_all (policy : StackAllocatorPolicy) (cs : list Call)
  : M unit :=
  match cs with
  | [] => ret tt
  | c :: cs' => Legacy_perform policy c ;;; Legacy_perform_all policy cs'
  end.

(** The start offsets that a run of allocations records, one for each
    call: the start offset that the header of the allocation holds right
    after the call, in the handle or in place below the payload. *)
Fixpoint start_offsets (policy : StackAllocatorPolicy) (cs : list Allocation)
  (s : StackAllocator) : list Offset :=
  match cs with
  | [] => []
  | c :: cs' =>
      match allocate policy c s with
      | Ok t s' => startOffset_at policy t s' :: start_offsets policy cs' s'
      | Abort _ _ => []
      end
  end.

(** The current offset after each release of a run of releases. *)
Fixpoint rollbacks (policy : StackAllocatorPolicy) (ts : list Allocated)
  (s : StackAllocator) : list Offset :=
  match ts with
  | [] => []
  | t :: ts' =>
      match release policy t s with
      | Ok _ s' => m_CurrentOffset s' :: rollbacks policy ts' s'
      | Abort _ _ => []
      end
  end.

(** The size of the header that the release of [t] reads in memory, right
    below the payload. *)
Definition headerSize_at (policy : StackAllocatorPolicy) (t : Allocated)
  : Size :=
  match t with
  | RawPointer _ => sizeof_InplaceHeader policy
  | RawArrayPointer _ _ => sizeof_StackArrayHeader
  | ObjectHandle _ | ArrayHandle _ _ => 0
  end.

(** The live allocations, the most recent first, lie one above the other
    below offset [top]: the start offset that a release of each would
    read is at or below [top], its header is in memory below the address
    of [top], and the allocations made before it lie below its start
    offset. *)
Fixpoint stacked (policy : StackAllocatorPolicy) (s : StackAllocator)
  (live : list Allocated) (top : Offset) : Prop :=
  match live with
  | [] => 0 <= top
  | t :: earlier =>
      startOffset_at policy t s <= top /\
      headerSize_at policy t <= payload t <= m_StartAddress s + top /\
      stacked policy s earlier (startOffset_at policy t s)
  end.

(** * Facts about machine integers and memory *)

Lemma modulus_pos : 0 < modulus.
Proof. reflexivity. Qed.

Lemma wrap_range (z : Z) : 0 <= wrap z < modulus.
Proof. unfold wrap. apply Z.mod_pos_bound, modulus_pos. Qed.

Lemma wrap_small (z : Z) : 0 <= z < modulus -> wrap z = z.
Proof. intros H. unfold wrap. now apply Z.mod_small. Qed.

Lemma wrap_wrap (z : Z) : wrap (wrap z) = wrap z.
Proof. unfold wrap. apply Z.mod_mod. discriminate. Qed.

Lemma wrap_add_l (a b : Z) : wrap (wrap a + b) = wrap (a + b).
Proof. unfold wrap. apply Zplus_mod_idemp_l. Qed.

Lemma wrap_add_r (a b : Z) : wrap (a + wrap b) = wrap (a + b).
Proof. unfold wrap. apply Zplus_mod_idemp_r. Qed.

Lemma wrap_sub_l (a b : Z) : wrap (wrap a - b) = wrap (a - b).
Proof. unfold wrap. apply Zminus_mod_idemp_l. Qed.

Lemma wrap_sub_r (a b : Z) : wrap (a - wrap b) = wrap (a - b).
Proof. unfold wrap. apply Zminus_mod_idemp_r. Qed.

Lemma wrap_mul_l (a b : Z) : wrap (wrap a * b) = wrap (a * b).
Proof. unfold wrap. apply Z.mul_mod_idemp_l. discriminate. Qed.

Lemma wrap_add_8_neq (t : Z) : wrap (wrap t + sizeof_BoundGuardBack) <> wrap t.
Proof.
  pose proof (wrap_range t) as Ht.
  pose proof (wrap_range (wrap t + sizeof_BoundGuardBack)) as Ht'.
  unfold wrap in *.
  pose proof (Z.div_mod (t mod modulus + sizeof_BoundGuardBack) modulus) as D.
  unfold modulus, sizeof_BoundGuardBack, sizeof_Offset in *.
  change (2 ^ 64) with 18446744073709551616 in *.
  intros E. rewrite E in D. lia.
Qed.

Section MemoryFacts.

Implicit Types (m : Memory) (a v x : Z) (n : nat).

Lemma write_byte_same m a b : write_byte m a b a = b.
Proof. unfold write_byte. now rewrite Z.eqb_refl. Qed.

Lemma write_byte_other m a b x : x <> a -> write_byte m a b x = m x.
Proof.
  intros H. unfold write_byte.
  destruct (Z.eqb_spec x a); [contradiction | reflexivity].
Qed.

(** A store changes the bytes of its range only. *)
Lemma store_le_outside n : forall m a v x,
  x < a \/ a + Z.of_nat n <= x -> store_le n m a v x = m x.
Proof.
  induction n as [|k IH]; intros m a v x H; [reflexivity|].
  cbn [store_le]. rewrite IH by lia.
  apply write_byte_other. lia.
Qed.

(** A load reads the bytes of its range only. *)
Lemma load_le_ext n : forall m m' a,
  (forall x, a <= x < a + Z.of_nat n -> m x = m' x) ->
  load_le n m a = load_le n m' a.
Proof.
  induction n as [|k IH]; intros m m' a H; [reflexivity|].
  cbn [load_le]. rewrite (H a) by lia.
  rewrite (IH m m' (a + 1)); [reflexivity|].
  intros x Hx. apply H. lia.
Qed.

Lemma load_store_le n : forall m a v,
  load_le n (store_le n m a v) a = v mod 256 ^ Z.of_nat n.
Proof.
  induction n as [|k IH]; intros m a v.
  - cbn. now rewrite Z.mod_1_r.
  - cbn [load_le store_le]. rewrite IH.
    rewrite store_le_outside by lia. rewrite write_byte_same.
    rewrite Z.mod_mod by discriminate.
    rewrite Nat2Z.inj_succ, Z.pow_succ_r by lia.
    symmetry. apply Z.rem_mul_r; lia.
Qed.

Lemma load_store_Offset m a v :
  0 <= v < modulus -> load_Offset (store_Offset m a v) a = v.
Proof.
  intros H. unfold load_Offset, store_Offset.
  rewrite load_store_le. apply Z.mod_small. exact H.
Qed.

Lemma load_store_Offset_other m a v a' :
  a' + 8 <= a \/ a + 8 <= a' ->
  load_Offset (store_Offset m a v) a' = load_Offset m a'.
Proof.
  intros H. unfold load_Offset, store_Offset.
  apply load_le_ext. intros x Hx. apply store_le_outside. lia.
Qed.

Lemma store_Offset_outside m a v x :
  x < a \/ a + 8 <= x -> store_Offset m a v x = m x.
Proof. intros H. unfold store_Offset. apply store_le_outside. lia. Qed.

Lemma load_Offset_ext m m' a :
  (forall x, a <= x < a + 8 -> m x = m' x) ->
  load_Offset m a = load_Offset m' a.
Proof. intros H. unfold load_Offset. apply load_le_ext. exact H. Qed.

End MemoryFacts.

Lemma load_store_Offset_wrap m a v :
  load_Offset (store_Offset m a v) a = wrap v.
Proof. unfold load_Offset, store_Offset. now rewrite load_store_le. Qed.

(** ** Headers and guards in memory *)

Lemma load_store_InplaceHeader policy m a so eo :
  0 <= so < modulus -> 0 <= eo < modulus ->
  load_InplaceHeader policy
    (store_InplaceHeader m a (mkInplaceHeader policy so eo)) a
  = mkInplaceHeader policy so eo.
Proof.
  intros Hs He. unfold load_InplaceHeader, mkInplaceHeader.
  destruct (StackCheck policy); cbn [store_InplaceHeader].
  - rewrite load_store_Offset by assumption.
    rewrite load_store_Offset_other by (unfold sizeof_Offset; lia).
    rewrite load_store_Offset by assumption. reflexivity.
  - rewrite load_store_Offset by assumption. reflexivity.
Qed.

Lemma load_InplaceHeader_ext policy m m' a :
  (forall x, a <= x < a + sizeof_InplaceHeader policy -> m x = m' x) ->
  load_InplaceHeader policy m a = load_InplaceHeader policy m' a.
Proof.
  unfold load_InplaceHeader, sizeof_InplaceHeader, sizeof_Offset.
  destruct (StackCheck policy); intros H.
  - rewrite (load_Offset_ext m m' a), (load_Offset_ext m m' (a + 8));
      [reflexivity | |]; intros x Hx; apply H; lia.
  - rewrite (load_Offset_ext m m' a); [reflexivity|].
    intros x Hx; apply H; lia.
Qed.

Lemma header_startOffset_mkInplaceHeader policy so eo :
  header_startOffset (mkInplaceHeader policy so eo) = so.
Proof. unfold mkInplaceHeader. destruct (StackCheck policy); reflexivity. Qed.

Lemma header_endOffset_mkInplaceHeader policy so eo :
  StackCheck policy = true ->
  header_endOffset (mkInplaceHeader policy so eo) = eo.
Proof. intros H. unfold mkInplaceHeader. now rewrite H. Qed.

Lemma sizeof_InplaceHeader_cases policy :
  sizeof_InplaceHeader policy = 8 \/ sizeof_InplaceHeader policy = 16.
Proof.
  unfold sizeof_InplaceHeader, sizeof_Offset.
  destruct (StackCheck policy); auto.
Qed.

Lemma load_store_BoundGuardFront m a g :
  0 <= front_offset g < modulus -> 0 <= allocationSize g < modulus ->
  load_BoundGuardFront (store_BoundGuardFront m a g) a = g.
Proof.
  intros Ho Hs. destruct g as [o z]. cbn [front_offset allocationSize] in *.
  unfold load_BoundGuardFront, store_BoundGuardFront.
  cbn [front_offset allocationSize].
  rewrite load_store_Offset by assumption.
  rewrite load_store_Offset_other by (unfold sizeof_Offset; lia).
  rewrite load_store_Offset by assumption. reflexivity.
Qed.

Lemma load_BoundGuardFront_ext m m' a :
  (forall x, a <= x < a + sizeof_BoundGuardFront -> m x = m' x) ->
  load_BoundGuardFront m a = load_BoundGuardFront m' a.
Proof.
  unfold load_BoundGuardFront, sizeof_BoundGuardFront, sizeof_Offset.
  intros H.
  rewrite (load_Offset_ext m m' a), (load_Offset_ext m m' (a + 8));
    [reflexivity | |]; intros x Hx; apply H; lia.
Qed.

Lemma store_BoundGuardFront_below m a g x :
  x < a -> store_BoundGuardFront m a g x = m x.
Proof.
  intros H. unfold store_BoundGuardFront, sizeof_Offset.
  rewrite !store_Offset_outside by lia. reflexivity.
Qed.

Lemma store_BoundGuardBack_below m a g x :
  x < a -> store_BoundGuardBack m a g x = m x.
Proof.
  intros H. unfold store_BoundGuardBack.
  rewrite store_Offset_outside by lia. reflexivity.
Qed.

Lemma store_InplaceHeader_below m a h x :
  x < a -> store_InplaceHeader m a h x = m x.
Proof.
  intros H. destruct h; cbn [store_InplaceHeader]; unfold sizeof_Offset;
    rewrite !store_Offset_outside by lia; reflexivity.
Qed.

Lemma store_StackArrayHeader_below m a h x :
  x < a -> store_StackArrayHeader m a h x = m x.
Proof.
  intros H. unfold store_StackArrayHeader, sizeof_Offset.
  rewrite !store_Offset_outside by lia. reflexivity.
Qed.

(** * Stepping through the operations *)

Ltac unfold_monad :=
  cbv beta iota zeta delta
    [bind ret gets modify when MEMARENA_ASSERT SetUsedSize GetTotalSize
     Allocators.SetCurrentOffset Allocators.Reset Allocators.GetAddressFromPtr
     Allocators.AllocateInternal Allocators.DeallocateInternal
     Allocators.New Allocators.Allocate Allocators.Deallocate
     Allocators.Deallocate_StackPtr Allocators.Delete_StackPtr Allocators.Delete
     Allocators.NewArray Allocators.AllocateArray Allocators.DeallocateArray
     Allocators.DeallocateArray_StackArrayPtr Allocators.DeleteArray
     Allocators.DeleteArray_StackArrayPtr
     Legacy.SetCurrentOffset Legacy.Reset Legacy.GetAddressFromPtr
     Legacy.AllocateInternal Legacy.DeallocateInternal Legacy.GetEndOffset
     Legacy.New Legacy.Allocate Legacy.Deallocate
     Legacy.Deallocate_StackPtr Legacy.Delete_StackPtr Legacy.Delete
     Legacy.NewArray Legacy.AllocateArray Legacy.DeallocateArray
     Legacy.DeallocateArray_StackArrayPtr Legacy.DeleteArray
     Legacy.DeleteArray_StackArrayPtr
     AllocateHeader_Inplace AllocateHeader_Array
     GetHeaderFromPtr_Inplace GetHeaderFromPtr_Array
     allocate release perform overwrite Legacy_allocate Legacy_release].

Ltac unfold_monad_in H :=
  cbv beta iota zeta delta
    [bind ret gets modify when MEMARENA_ASSERT SetUsedSize GetTotalSize
     Allocators.SetCurrentOffset Allocators.Reset Allocators.GetAddressFromPtr
     Allocators.AllocateInternal Allocators.DeallocateInternal
     Allocators.New Allocators.Allocate Allocators.Deallocate
     Allocators.Deallocate_StackPtr Allocators.Delete_StackPtr Allocators.Delete
     Allocators.NewArray Allocators.AllocateArray Allocators.DeallocateArray
     Allocators.DeallocateArray_StackArrayPtr Allocators.DeleteArray
     Allocators.DeleteArray_StackArrayPtr
     Legacy.SetCurrentOffset Legacy.Reset Legacy.GetAddressFromPtr
     Legacy.AllocateInternal Legacy.DeallocateInternal Legacy.GetEndOffset
     Legacy.New Legacy.Allocate Legacy.Deallocate
     Legacy.Deallocate_StackPtr Legacy.Delete_StackPtr Legacy.Delete
     Legacy.NewArray Legacy.AllocateArray Legacy.DeallocateArray
     Legacy.DeallocateArray_StackArrayPtr Legacy.DeleteArray
     Legacy.DeleteArray_StackArrayPtr
     AllocateHeader_Inplace AllocateHeader_Array
     GetHeaderFromPtr_Inplace GetHeaderFromPtr_Array
     allocate release perform overwrite Legacy_allocate Legacy_release] in H.

(** Reading the flags of a policy given by its fields, and the fields of
    a state given by its updates. *)
Ltac flags :=
  cbn [SizeCheck BoundsCheck StackCheck NullCheck OwnershipCheck Multithreaded
       sizeof_InplaceHeader GetTotalHeaderSize mkInplaceHeader
       load_InplaceHeader] in *.

Ltac fields :=
  cbn [m_StartAddress m_EndAddress m_CurrentOffset m_TotalSize m_UsedSize
       memory set_memory set_m_CurrentOffset set_m_UsedSize
       ptr header startOffset endOffset array_ptr array_header
       array_startOffset count header_startOffset header_endOffset
       StackHeader_Header InplaceHeader_Header state_of failure is_Ok
       GetUsedSize].

Ltac fields_in H :=
  cbn [m_StartAddress m_EndAddress m_CurrentOffset m_TotalSize m_UsedSize
       memory set_memory set_m_CurrentOffset set_m_UsedSize
       ptr header startOffset endOffset array_ptr array_header
       array_startOffset count header_startOffset header_endOffset
       StackHeader_Header InplaceHeader_Header state_of failure is_Ok
       GetUsedSize] in H.

(** Splits on the tests an unfolded operation branches on. *)
Ltac split_tests_in H :=
  repeat (match type of H with
          | context [if ?b then _ else _] => destruct b eqn:?
          end; cbv beta iota in H; fields_in H).

Ltac split_tests :=
  repeat (match goal with
          | |- context [if ?b then _ else _] => destruct b eqn:?
          end; cbv beta iota; fields).

Lemma bind_Ok_inv {A B} (c : M A) (k : A -> M B) s v s' :
  bind c k s = Ok v s' -> exists u sm, c s = Ok u sm /\ k u sm = Ok v s'.
Proof.
  unfold bind. destruct (c s) as [u sm|e sm]; [|discriminate].
  intros H. now exists u, sm.
Qed.

Lemma ret_Ok_inv {A} (v w : A) s s' : ret v s = Ok w s' -> v = w /\ s = s'.
Proof. unfold ret. intros H. inversion H. auto. Qed.

(** * Allocation *)

(** ** Padding and placement *)

(** [AlignUp] does not wrap when there is room for the alignment. *)
Lemma CalculateAlignedAddress_range baseAddress alignment :
  0 < alignment -> 0 <= baseAddress -> baseAddress + alignment <= modulus ->
  baseAddress <= CalculateAlignedAddress baseAddress alignment
  < baseAddress + alignment /\
  CalculateAlignedAddress baseAddress alignment mod alignment = 0.
Proof.
  intros Ha Hb Hm. unfold CalculateAlignedAddress.
  pose proof (Z.mul_div_le (baseAddress + (alignment - 1)) alignment Ha) as H1.
  pose proof (Z.mul_succ_div_gt (baseAddress + (alignment - 1)) alignment Ha)
    as H2.
  set (q := (baseAddress + (alignment - 1)) / alignment) in *.
  assert (E : q * alignment = alignment * q) by ring.
  rewrite wrap_small by lia. split; [lia|].
  apply Z.mod_mul. lia.
Qed.

Lemma placement_within policy headerSize alignment s :
  0 <= headerSize -> 0 < alignment ->
  0 <= m_StartAddress s -> 0 <= m_CurrentOffset s ->
  m_StartAddress s + m_CurrentOffset s
  + GetTotalHeaderSize policy headerSize + alignment <= modulus ->
  baseAddress_at s = m_StartAddress s + m_CurrentOffset s /\
  alignedAddress_at policy headerSize alignment s
  = m_StartAddress s + m_CurrentOffset s
    + padding_at policy headerSize alignment s /\
  GetTotalHeaderSize policy headerSize
  <= padding_at policy headerSize alignment s
  < GetTotalHeaderSize policy headerSize + alignment.
Proof.
  intros Hh Ha Hs Hc Hm.
  assert (Hth : 0 <= GetTotalHeaderSize policy headerSize).
  { unfold GetTotalHeaderSize, sizeof_BoundGuardFront, sizeof_Offset.
    destruct (BoundsCheck policy); lia. }
  assert (Hbase : baseAddress_at s = m_StartAddress s + m_CurrentOffset s).
  { unfold baseAddress_at. apply wrap_small. lia. }
  split; [exact Hbase|].
  unfold alignedAddress_at, padding_at. rewrite Hbase.
  set (th := GetTotalHeaderSize policy headerSize) in *.
  set (base := m_StartAddress s + m_CurrentOffset s) in *.
  destruct (Z.ltb_spec 0 th) as [Hpos|Hzero].
  - unfold CalculateAlignedPaddingWithHeader.
    rewrite (wrap_small (base + th)) by lia.
    destruct (CalculateAlignedAddress_range (base + th) alignment) as [R _];
      try lia.
    rewrite (wrap_small (_ - base)) by lia.
    rewrite wrap_small by lia. lia.
  - assert (th = 0) by lia.
    destruct (CalculateAlignedAddress_range base alignment) as [R _]; try lia.
    rewrite wrap_small by lia. lia.
Qed.

(** [AllocateInternal] in terms of the placement. *)
Lemma AllocateInternal_placement policy headerSize size alignment s :
  let padding := padding_at policy headerSize alignment s in
  let alignedAddress := alignedAddress_at policy headerSize alignment s in
  let total := wrap (m_CurrentOffset s + padding + size) in
  let total' := if BoundsCheck policy
                then wrap (total + sizeof_BoundGuardBack) else total in
  let m' := if BoundsCheck policy
            then store_BoundGuardBack
                   (store_BoundGuardFront (memory s)
                      (wrap (alignedAddress
                             - GetTotalHeaderSize policy headerSize))
                      (mkBoundGuardFront (m_CurrentOffset s) size))
                   (wrap (alignedAddress + size))
                   (mkBoundGuardBack (m_CurrentOffset s))
            else memory s in
  Allocators.AllocateInternal policy headerSize size alignment s
  = if SizeCheck policy && negb (total <=? m_TotalSize s)
    then Abort OutOfMemory s
    else Ok (alignedAddress, m_CurrentOffset s, total')
            (mkStackAllocator (m_StartAddress s) (m_EndAddress s) total'
                              (m_TotalSize s) total' m').
Proof.
  cbv zeta. unfold alignedAddress_at, padding_at, baseAddress_at.
  unfold_monad.
  destruct (SizeCheck policy), (BoundsCheck policy); cbv beta iota;
    split_tests; cbn [andb negb] in *; try discriminate; try reflexivity.
Qed.

(** [Legacy.AllocateInternal] in terms of the placement: the same as
    [Allocators.AllocateInternal], except that the back guard does not
    count in the current offset. *)
Lemma Legacy_AllocateInternal_placement policy headerSize size alignment s :
  let padding := padding_at policy headerSize alignment s in
  let alignedAddress := alignedAddress_at policy headerSize alignment s in
  let total := wrap (m_CurrentOffset s + padding + size) in
  let m' := if BoundsCheck policy
            then store_BoundGuardBack
                   (store_BoundGuardFront (memory s)
                      (wrap (alignedAddress
                             - GetTotalHeaderSize policy headerSize))
                      (mkBoundGuardFront (m_CurrentOffset s) size))
                   (wrap (alignedAddress + size))
                   (mkBoundGuardBack (m_CurrentOffset s))
            else memory s in
  Legacy.AllocateInternal policy headerSize size alignment s
  = if SizeCheck policy && negb (total <=? m_TotalSize s)
    then Abort OutOfMemory s
    else Ok alignedAddress
            (mkStackAllocator (m_StartAddress s) (m_EndAddress s) total
                              (m_TotalSize s) total m').
Proof.
  cbv zeta. unfold alignedAddress_at, padding_at, baseAddress_at.
  unfold_monad.
  destruct (SizeCheck policy), (BoundsCheck policy); cbv beta iota;
    split_tests; cbn [andb negb] in *; try discriminate; try reflexivity.
Qed.

Lemma AllocateInternal_startOffset policy headerSize size alignment s p so eo s' :
  Allocators.AllocateInternal policy headerSize size alignment s
  = Ok (p, so, eo) s' ->
  so = m_CurrentOffset s.
Proof.
  rewrite AllocateInternal_placement. cbv zeta.
  destruct (SizeCheck policy && negb _); [discriminate|].
  intros H. inversion H. reflexivity.
Qed.

(** ** The calls that allocate *)

Lemma Allocate_inv policy size alignment s p s' :
  Allocators.Allocate policy size alignment s = Ok p s' ->
  exists sm so eo,
    Allocators.AllocateInternal policy (sizeof_InplaceHeader policy)
                                size alignment s = Ok (p, so, eo) sm /\
    s' = set_memory
           (store_InplaceHeader (memory sm)
              (wrap (p - sizeof_InplaceHeader policy))
              (mkInplaceHeader policy so eo)) sm.
Proof.
  unfold Allocators.Allocate, bind.
  destruct (Allocators.AllocateInternal _ _ _ _ s) as [[[p0 so] eo] sm|e sm];
    [|discriminate].
  unfold AllocateHeader_Inplace, modify, ret. intros H. inversion H; subst.
  now exists sm, so, eo.
Qed.

Lemma AllocateArray_inv policy objectCount objectSize alignment s p s' :
  Allocators.AllocateArray policy objectCount objectSize alignment s = Ok p s' ->
  exists sm so eo,
    Allocators.AllocateInternal policy sizeof_StackArrayHeader
      (wrap (objectCount * objectSize)) alignment s = Ok (p, so, eo) sm /\
    s' = set_memory
           (store_StackArrayHeader (memory sm)
              (wrap (p - sizeof_StackArrayHeader))
              (mkStackArrayHeader so objectCount)) sm.
Proof.
  unfold Allocators.AllocateArray, bind.
  destruct (Allocators.AllocateInternal _ _ _ _ s) as [[[p0 so] eo] sm|e sm];
    [|discriminate].
  unfold AllocateHeader_Array, modify, ret. intros H. inversion H; subst.
  now exists sm, so, eo.
Qed.

Lemma New_inv policy sizeofObject alignofObject s p s' :
  Allocators.New policy sizeofObject alignofObject s = Ok p s' ->
  exists eo,
    Allocators.AllocateInternal policy 0 sizeofObject alignofObject s
    = Ok (ptr p, startOffset (header p), eo) s'.
Proof.
  unfold Allocators.New, bind.
  destruct (Allocators.AllocateInternal _ _ _ _ s) as [[[p0 so] eo] sm|e sm];
    [|discriminate].
  unfold ret. intros H. inversion H; subst. now exists eo.
Qed.

Lemma NewArray_inv policy objectCount sizeofObject alignofObject s p s' :
  Allocators.NewArray policy objectCount sizeofObject alignofObject s = Ok p s' ->
  count (array_header p) = objectCount /\
  exists eo,
    Allocators.AllocateInternal policy 0 (wrap (objectCount * sizeofObject))
                                alignofObject s
    = Ok (array_ptr p, array_startOffset (array_header p), eo) s'.
Proof.
  unfold Allocators.NewArray, bind.
  destruct (Allocators.AllocateInternal _ _ _ _ s) as [[[p0 so] eo] sm|e sm];
    [|discriminate].
  unfold ret. intros H. inversion H; subst. split; [reflexivity|].
  now exists eo.
Qed.

(** An object handle made by [New] carries the current offset as its end
    offset: releasing the most recent object passes the stack check. *)
Lemma New_endOffset policy sizeofObject alignofObject s p s' :
  Allocators.New policy sizeofObject alignofObject s = Ok p s' ->
  endOffset (header p) = m_CurrentOffset s' /\
  startOffset (header p) = m_CurrentOffset s.
Proof.
  intros H. unfold_monad_in H. split_tests_in H;
    try discriminate; inversion H; subst; split; reflexivity.
Qed.

(** [Allocate] leaves the in-place header [{startOffset, endOffset}] in
    the bytes before the pointer it returns. *)
Lemma Allocate_writes_header policy size alignment s p s' :
  0 <= m_CurrentOffset s < modulus ->
  Allocators.Allocate policy size alignment s = Ok p s' \/
  Legacy.Allocate policy size alignment s = Ok p s' ->
  load_InplaceHeader policy (memory s')
    (wrap (p - sizeof_InplaceHeader policy))
  = mkInplaceHeader policy (m_CurrentOffset s) (m_CurrentOffset s').
Proof.
  intros Hc [H|H]; unfold_monad_in H; split_tests_in H;
    try discriminate; inversion H; subst; clear H; fields;
    apply load_store_InplaceHeader;
    try assumption; apply wrap_range.
Qed.

(** ** Allocations within the address space *)

(** A committed allocation that lies within the address space: where the
    payload is, where the current offset goes, and which memory it leaves
    alone. *)
Lemma AllocateInternal_within policy headerSize size alignment s p so eo s' :
  0 <= headerSize -> 0 < alignment -> 0 <= size ->
  0 <= m_StartAddress s -> 0 <= m_CurrentOffset s ->
  m_StartAddress s + m_CurrentOffset s
  + GetTotalHeaderSize policy headerSize + alignment + size
  + sizeof_BoundGuardBack <= modulus ->
  Allocators.AllocateInternal policy headerSize size alignment s
  = Ok (p, so, eo) s' ->
  so = m_CurrentOffset s /\ eo = m_CurrentOffset s' /\
  m_StartAddress s' = m_StartAddress s /\
  m_StartAddress s + m_CurrentOffset s + headerSize <= p /\
  p + size <= m_StartAddress s + m_CurrentOffset s' /\
  m_StartAddress s + m_CurrentOffset s' <= modulus /\
  (forall x, x < m_StartAddress s + m_CurrentOffset s ->
             memory s' x = memory s x) /\
  m_StartAddress s + m_CurrentOffset s'
  = p + size + (if BoundsCheck policy then sizeof_BoundGuardBack else 0) /\
  p + size + sizeof_BoundGuardBack < modulus.
Proof.
  intros Hh Ha Hz Hs Hc Hm H.
  assert (Hth : headerSize <= GetTotalHeaderSize policy headerSize).
  { unfold GetTotalHeaderSize, sizeof_BoundGuardFront, sizeof_Offset.
    destruct (BoundsCheck policy); lia. }
  unfold sizeof_BoundGuardBack, sizeof_Offset in Hm.
  destruct (placement_within policy headerSize alignment s) as (Hb & HA & HP);
    try assumption; try lia.
  rewrite AllocateInternal_placement in H. cbv zeta in H.
  destruct (SizeCheck policy && negb _); [discriminate|].
  set (P := padding_at policy headerSize alignment s) in *.
  set (A := alignedAddress_at policy headerSize alignment s) in *.
  set (th := GetTotalHeaderSize policy headerSize) in *.
  rewrite (wrap_small (m_CurrentOffset s + P + size)) in H by lia.
  unfold sizeof_BoundGuardBack, sizeof_Offset in H.
  rewrite (wrap_small (m_CurrentOffset s + P + size + 8)) in H by lia.
  rewrite (wrap_small (A - th)) in H by lia.
  rewrite (wrap_small (A + size)) in H by lia.
  inversion H; subst p so eo s'; clear H. fields.
  unfold sizeof_BoundGuardBack, sizeof_Offset.
  destruct (BoundsCheck policy); repeat split; try lia.
  intros x Hx.
  rewrite store_BoundGuardBack_below, store_BoundGuardFront_below by lia.
  reflexivity.
Qed.

(** Under [BoundsCheck], an allocation within the address space leaves
    the front guard [{offset, allocationSize}] right before the header
    and the back guard [{offset}] right after the payload, both holding
    the offset the allocation started at; this holds for both
    allocators. *)
Lemma AllocateInternal_writes_guards policy headerSize size alignment s p s' :
  BoundsCheck policy = true ->
  0 <= headerSize -> 0 < alignment -> 0 <= size ->
  0 <= m_StartAddress s -> 0 <= m_CurrentOffset s ->
  m_StartAddress s + m_CurrentOffset s
  + GetTotalHeaderSize policy headerSize + alignment + size
  + sizeof_BoundGuardBack <= modulus ->
  (exists so eo,
     Allocators.AllocateInternal policy headerSize size alignment s
     = Ok (p, so, eo) s') \/
  Legacy.AllocateInternal policy headerSize size alignment s = Ok p s' ->
  load_BoundGuardFront (memory s') (p - headerSize - sizeof_BoundGuardFront)
  = mkBoundGuardFront (m_CurrentOffset s) size /\
  load_BoundGuardBack (memory s') (p + size)
  = mkBoundGuardBack (m_CurrentOffset s).
Proof.
  intros HB Hh Ha Hz Hs Hc Hm H.
  assert (Hth : GetTotalHeaderSize policy headerSize
                = headerSize + sizeof_BoundGuardFront).
  { unfold GetTotalHeaderSize. now rewrite HB. }
  unfold sizeof_BoundGuardBack, sizeof_Offset in Hm.
  destruct (placement_within policy headerSize alignment s) as (Hb & HA & HP);
    try assumption; try lia.
  assert (E : p = alignedAddress_at policy headerSize alignment s /\
              memory s'
              = store_BoundGuardBack
                  (store_BoundGuardFront (memory s)
                     (wrap (alignedAddress_at policy headerSize alignment s
                            - GetTotalHeaderSize policy headerSize))
                     (mkBoundGuardFront (m_CurrentOffset s) size))
                  (wrap (alignedAddress_at policy headerSize alignment s + size))
                  (mkBoundGuardBack (m_CurrentOffset s))).
  { destruct H as [(so & eo & H)|H].
    - rewrite AllocateInternal_placement in H. cbv zeta in H.
      rewrite HB in H.
      destruct (SizeCheck policy && negb _); [discriminate|].
      inversion H; subst. split; reflexivity.
    - rewrite Legacy_AllocateInternal_placement in H. cbv zeta in H.
      rewrite HB in H.
      destruct (SizeCheck policy && negb _); [discriminate|].
      inversion H; subst. split; reflexivity. }
  destruct E as [-> ->].
  set (A := alignedAddress_at policy headerSize alignment s) in *.
  set (P := padding_at policy headerSize alignment s) in *.
  rewrite Hth in *.
  unfold sizeof_BoundGuardFront, sizeof_Offset in *.
  change (2 * 8) with 16 in *.
  rewrite (wrap_small (A - (headerSize + 16))) by lia.
  rewrite (wrap_small (A + size)) by lia.
  replace (A - headerSize - 16) with (A - (headerSize + 16)) by ring.
  split.
  - rewrite (load_BoundGuardFront_ext _
               (store_BoundGuardFront (memory s) (A - (headerSize + 16))
                  (mkBoundGuardFront (m_CurrentOffset s) size))).
    + apply load_store_BoundGuardFront; cbn [front_offset allocationSize]; lia.
    + intros x Hx. unfold sizeof_BoundGuardFront, sizeof_Offset in Hx.
      unfold store_BoundGuardBack. apply store_Offset_outside. lia.
  - unfold load_BoundGuardBack, store_BoundGuardBack. cbn [back_offset].
    rewrite load_store_Offset by lia. reflexivity.
Qed.

(** * Deallocation *)

(** [DeallocateInternal] under [StackCheck]: the call aborts with
    [OutOfOrderDeallocation] exactly when the header's end offset differs
    from the current offset. *)
Lemma DeallocateInternal_StackCheck policy address addressMarker
  (h : StackHeader) s :
  StackCheck policy = true ->
  (endOffset h <> m_CurrentOffset s ->
   Allocators.DeallocateInternal policy address addressMarker h s
   = Abort OutOfOrderDeallocation s /\
   Legacy.DeallocateInternal policy address addressMarker h s
   = Abort OutOfOrderDeallocation s) /\
  (endOffset h = m_CurrentOffset s ->
   failure (Allocators.DeallocateInternal policy address addressMarker h s)
   <> Some OutOfOrderDeallocation /\
   failure (Legacy.DeallocateInternal policy address addressMarker h s)
   <> Some OutOfOrderDeallocation).
Proof.
  intros HS. split.
  - intros Hne. apply Z.eqb_neq in Hne.
    unfold_monad. rewrite HS. cbn [header_endOffset StackHeader_Header].
    rewrite Hne. split; reflexivity.
  - intros He. apply Z.eqb_eq in He.
    unfold_monad. rewrite HS. cbn [header_endOffset StackHeader_Header].
    rewrite He. split; split_tests; cbn; congruence.
Qed.

(** [Allocators.DeallocateInternal] under [BoundsCheck]: once the stack
    check has passed, the call aborts with [CorruptionDetected] whenever
    the offset of the front guard or of the back guard read back from
    memory differs from the offset to roll back to. *)
Lemma DeallocateInternal_BoundsCheck policy address addressMarker
  (h : StackHeader) s :
  BoundsCheck policy = true ->
  (StackCheck policy = true -> endOffset h = m_CurrentOffset s) ->
  let frontGuard :=
    load_BoundGuardFront (memory s) (wrap (addressMarker - sizeof_BoundGuardFront)) in
  let backGuard :=
    load_BoundGuardBack (memory s) (wrap (address + allocationSize frontGuard)) in
  front_offset frontGuard <> startOffset h \/
  back_offset backGuard <> startOffset h ->
  Allocators.DeallocateInternal policy address addressMarker h s
  = Abort CorruptionDetected s.
Proof.
  intros HB HS frontGuard backGuard Hne.
  assert (E : (front_offset frontGuard =? startOffset h)
              && (back_offset backGuard =? startOffset h) = false).
  { apply andb_false_iff. rewrite !Z.eqb_neq. exact Hne. }
  subst frontGuard backGuard.
  unfold_monad. rewrite HB. fields.
  destruct (StackCheck policy).
  - rewrite (HS eq_refl), Z.eqb_refl. cbv beta iota. now rewrite E.
  - cbv beta iota. now rewrite E.
Qed.

(** [Legacy.DeallocateInternal] reads the 16 bytes of the front guard and
    nothing else: whatever the rest of the memory holds, the bytes after
    the payload included, the outcome is the same. *)
Lemma Legacy_DeallocateInternal_reads_front_guard policy address addressMarker
  (h : StackHeader) s (m' : Memory) :
  (forall x,
      wrap (addressMarker - sizeof_BoundGuardFront) <= x
      < wrap (addressMarker - sizeof_BoundGuardFront) + sizeof_BoundGuardFront ->
      m' x = memory s x) ->
  failure (Legacy.DeallocateInternal policy address addressMarker h
             (set_memory m' s))
  = failure (Legacy.DeallocateInternal policy address addressMarker h s).
Proof.
  intros Hm.
  assert (Ef : load_BoundGuardFront m'
                 (wrap (addressMarker - sizeof_BoundGuardFront))
               = load_BoundGuardFront (memory s)
                   (wrap (addressMarker - sizeof_BoundGuardFront))).
  { unfold load_BoundGuardFront.
    unfold sizeof_BoundGuardFront, sizeof_Offset in *.
    rewrite (load_Offset_ext m' (memory s) _),
            (load_Offset_ext m' (memory s) (_ + 8));
      [reflexivity | |]; intros x Hx; apply Hm; lia. }
  assert (Eb : load_BoundGuardBack m'
                 (wrap (addressMarker - sizeof_BoundGuardFront))
               = load_BoundGuardBack (memory s)
                   (wrap (addressMarker - sizeof_BoundGuardFront))).
  { unfold load_BoundGuardBack.
    unfold sizeof_BoundGuardFront, sizeof_Offset in *.
    rewrite (load_Offset_ext m' (memory s) _); [reflexivity|].
    intros x Hx; apply Hm; lia. }
  unfold_monad.
  destruct (StackCheck policy), (BoundsCheck policy); cbv beta iota; fields;
    repeat (rewrite ?Ef, ?Eb;
            match goal with
            | |- context [if ?b then _ else _] => destruct b eqn:?
            end; cbv beta iota; fields);
    reflexivity.
Qed.

(** Under [StackCheck] every release, by raw pointer or by handle, of an
    object or of an array, is decided by comparing the end offset of the
    allocation with the current offset: when they differ the release
    aborts, with [OutOfOrderDeallocation] unless a pointer check has failed
    before; when they agree the stack check passes. *)
Lemma release_StackCheck policy (t : Allocated) s :
  StackCheck policy = true ->
  (endOffset_at policy t s <> m_CurrentOffset s ->
   exists e, failure (release policy t s) = Some e /\
             (e = NullPointerDeallocation \/ e = NotOwnedPointer \/
              e = OutOfOrderDeallocation)) /\
  (endOffset_at policy t s = m_CurrentOffset s ->
   failure (release policy t s) <> Some OutOfOrderDeallocation).
Proof.
  intros HS. destruct policy as [sc bc stc nc oc mt]. cbn in HS. subst.
  split; intros HE; unfold endOffset_at in HE; flags; fields_in HE.
  - destruct t, nc, oc, bc; unfold_monad; flags; cbv beta iota; fields;
      split_tests;
      try (exfalso;
           match goal with
           | H : (_ =? _) = true |- _ => apply Z.eqb_eq in H; exact (HE H)
           end);
      eexists; (split; [reflexivity|]); auto.
  - destruct t, nc, oc, bc; unfold_monad; flags; cbv beta iota; fields;
      split_tests;
      try (exfalso;
           match goal with
           | H : (_ =? _) = false |- _ => apply Z.eqb_neq in H; exact (H HE)
           end);
      discriminate.
Qed.

(** ** What a release rolls back to *)

Lemma Deallocate_rolls_back policy p s s' :
  Allocators.Deallocate policy p s = Ok tt s' ->
  m_CurrentOffset s'
  = header_startOffset
      (load_InplaceHeader policy (memory s)
         (wrap (p - sizeof_InplaceHeader policy))) /\
  GetUsedSize s' = m_CurrentOffset s'.
Proof.
  intros H. destruct policy as [sc bc stc nc oc mt].
  destruct stc, nc, oc, bc; unfold_monad_in H; flags; cbv beta iota in H;
    fields_in H; split_tests_in H; try discriminate;
    inversion H; subst; split; reflexivity.
Qed.

Lemma Delete_StackPtr_rolls_back policy p s s' :
  Allocators.Delete_StackPtr policy p s = Ok tt s' ->
  m_CurrentOffset s' = startOffset (header p) /\
  GetUsedSize s' = m_CurrentOffset s'.
Proof.
  intros H. destruct policy as [sc bc stc nc oc mt].
  destruct stc, nc, oc, bc; unfold_monad_in H; flags; cbv beta iota in H;
    fields_in H; split_tests_in H; try discriminate;
    inversion H; subst; split; reflexivity.
Qed.

Lemma DeleteArray_StackArrayPtr_rolls_back policy p sizeofObject s l s' :
  Allocators.DeleteArray_StackArrayPtr policy p sizeofObject s = Ok l s' ->
  m_CurrentOffset s' = array_startOffset (array_header p) /\
  GetUsedSize s' = m_CurrentOffset s'.
Proof.
  intros H. destruct policy as [sc bc stc nc oc mt].
  destruct stc, nc, oc, bc; unfold_monad_in H; flags; cbv beta iota in H;
    fields_in H; split_tests_in H; try discriminate;
    inversion H; subst; split; reflexivity.
Qed.

Lemma DeleteArray_rolls_back policy p objectSize s l s' :
  Allocators.DeleteArray policy p objectSize s = Ok l s' ->
  m_CurrentOffset s'
  = array_startOffset
      (load_StackArrayHeader (memory s) (wrap (p - sizeof_StackArrayHeader))) /\
  GetUsedSize s' = m_CurrentOffset s'.
Proof.
  intros H. destruct policy as [sc bc stc nc oc mt].
  destruct stc, nc, oc, bc; unfold_monad_in H; flags; cbv beta iota in H;
    fields_in H; split_tests_in H; try discriminate;
    inversion H; subst; split; reflexivity.
Qed.

(** A release writes no memory and keeps the arena. *)
Lemma release_memory policy (t : Allocated) s s' :
  release policy t s = Ok tt s' ->
  memory s' = memory s /\ m_StartAddress s' = m_StartAddress s.
Proof.
  intros H. destruct policy as [sc bc stc nc oc mt].
  destruct t, stc, nc, oc, bc; unfold_monad_in H; flags; cbv beta iota in H;
    fields_in H; split_tests_in H; try discriminate;
    inversion H; subst; split; reflexivity.
Qed.

(** ** Releasing what was allocated *)

(** What an allocation within the address space establishes: the arena
    stays, the current offset does not decrease, memory below the old
    current offset is left alone, and the release that pairs with the
    allocation rolls back to the old current offset in every later state
    whose memory below the new current offset is as the allocation left
    it. *)
Lemma allocate_within policy (c : Allocation) s t s' :
  within_address_space policy c s ->
  allocate policy c s = Ok t s' ->
  m_StartAddress s' = m_StartAddress s /\
  m_CurrentOffset s <= m_CurrentOffset s' /\
  (forall x, x < m_StartAddress s + m_CurrentOffset s ->
             memory s' x = memory s x) /\
  (forall sm s2,
      m_StartAddress sm = m_StartAddress s ->
      (forall x, x < m_StartAddress s + m_CurrentOffset s' ->
                 memory sm x = memory s' x) ->
      release policy t sm = Ok tt s2 ->
      m_CurrentOffset s2 = m_CurrentOffset s /\
      GetUsedSize s2 = m_CurrentOffset s).
Proof.
  intros (Ha & Hz & Hs & Hc & Hm) H.
  assert (Hth : 0 <= GetTotalHeaderSize policy (headerSize_of policy c)
                /\ 0 <= headerSize_of policy c).
  { unfold GetTotalHeaderSize, sizeof_BoundGuardFront, sizeof_Offset.
    destruct c; cbn [headerSize_of];
      unfold sizeof_InplaceHeader, sizeof_StackArrayHeader, sizeof_Offset;
      destruct (BoundsCheck policy), (StackCheck policy); lia. }
  destruct Hth as [Hth Hh].
  assert (Hcm : 0 <= m_CurrentOffset s < modulus).
  { unfold sizeof_BoundGuardBack, sizeof_Offset in Hm. lia. }
  destruct c as [size al|sz al|n sz al|n sz al];
    cbn [alignment_of size_of headerSize_of] in *;
    cbn [allocate] in H; apply bind_Ok_inv in H;
    destruct H as (v & s1 & HA & HR); apply ret_Ok_inv in HR;
    destruct HR as [<- <-].
  - (* Allocate *)
    pose proof (Allocate_writes_header policy size al s v s1 Hcm (or_introl HA))
      as Hhdr.
    apply Allocate_inv in HA. destruct HA as (s0 & so & eo & HI & ->).
    apply AllocateInternal_within in HI; try assumption.
    destruct HI as (-> & -> & Est & Hp & Hpe & Hmod & Hfr & Hend & Hlt).
    fields. cbn [memory set_memory] in Hhdr.
    assert (Hw : wrap (v - sizeof_InplaceHeader policy)
                 = v - sizeof_InplaceHeader policy).
    { destruct (sizeof_InplaceHeader_cases policy) as [E|E]; rewrite E in *;
        apply wrap_small; lia. }
    rewrite Hw in *.
    assert (Hsz : 8 <= sizeof_InplaceHeader policy)
      by (destruct (sizeof_InplaceHeader_cases policy); lia).
    refine (conj Est (conj _ (conj _ _))).
    + lia.
    + intros x Hx. rewrite store_InplaceHeader_below by lia.
      apply Hfr; lia.
    + intros sm s2 Esm Hsm Hrel. cbn [release] in Hrel.
      apply Deallocate_rolls_back in Hrel. destruct Hrel as [Hcur Hused].
      rewrite Hw in Hcur.
      rewrite (load_InplaceHeader_ext policy (memory sm)
                 (store_InplaceHeader (memory s0)
                    (v - sizeof_InplaceHeader policy)
                    (mkInplaceHeader policy (m_CurrentOffset s)
                                     (m_CurrentOffset s0)))) in Hcur
        by (intros x Hx; apply Hsm; lia).
      rewrite Hhdr, header_startOffset_mkInplaceHeader in Hcur.
      split; congruence.
  - (* New *)
    apply New_inv in HA. destruct HA as (eo & HI).
    apply AllocateInternal_within in HI; try assumption; try lia.
    destruct HI as (Eso & -> & Est & Hp & Hpe & Hmod & Hfr & Hend & Hlt).
    refine (conj Est (conj _ (conj Hfr _))); [lia|].
    intros sm s2 Esm Hsm Hrel. cbn [release] in Hrel.
    apply Delete_StackPtr_rolls_back in Hrel. destruct Hrel as [Hcur Hused].
    split; congruence.
  - (* NewArray *)
    apply NewArray_inv in HA. destruct HA as (_ & eo & HI).
    apply AllocateInternal_within in HI; try assumption; try lia.
    destruct HI as (Eso & -> & Est & Hp & Hpe & Hmod & Hfr & Hend & Hlt).
    refine (conj Est (conj _ (conj Hfr _))); [lia|].
    intros sm s2 Esm Hsm Hrel. cbn [release] in Hrel.
    apply bind_Ok_inv in Hrel. destruct Hrel as (l & s3 & Hrel & HR).
    apply ret_Ok_inv in HR. destruct HR as [_ <-].
    apply DeleteArray_StackArrayPtr_rolls_back in Hrel.
    destruct Hrel as [Hcur Hused]. split; congruence.
  - (* AllocateArray *)
    apply AllocateArray_inv in HA. destruct HA as (s0 & so & eo & HI & ->).
    apply AllocateInternal_within in HI; try assumption.
    destruct HI as (-> & -> & Est & Hp & Hpe & Hmod & Hfr & Hend & Hlt).
    fields. unfold sizeof_StackArrayHeader, sizeof_Offset in *.
    change (2 * 8) with 16 in *.
    assert (Hw : wrap (v - 16) = v - 16) by (apply wrap_small; lia).
    rewrite Hw in *.
    refine (conj Est (conj _ (conj _ _))).
    + lia.
    + intros x Hx. rewrite store_StackArrayHeader_below by lia.
      apply Hfr; lia.
    + intros sm s2 Esm Hsm Hrel. cbn [release] in Hrel.
      apply bind_Ok_inv in Hrel. destruct Hrel as (l & s3 & Hrel & HR).
      apply ret_Ok_inv in HR. destruct HR as [_ <-].
      apply DeleteArray_rolls_back in Hrel. destruct Hrel as [Hcur Hused].
      unfold sizeof_StackArrayHeader, sizeof_Offset in Hcur.
      change (2 * 8) with 16 in Hcur. rewrite Hw in Hcur.
      cbn [array_startOffset load_StackArrayHeader] in Hcur.
      rewrite (load_Offset_ext (memory sm)
                 (store_StackArrayHeader (memory s0) (v - 16)
                    (mkStackArrayHeader (m_CurrentOffset s) n))) in Hcur
        by (intros x Hx; apply Hsm; lia).
      unfold store_StackArrayHeader in Hcur.
      cbn [array_startOffset count] in Hcur.
      rewrite load_store_Offset_other in Hcur
        by (unfold sizeof_Offset; lia).
      rewrite load_store_Offset in Hcur by assumption.
      split; congruence.
Qed.

Lemma GetArrayEndOffset_of_aligned start cur padding n sz :
  GetArrayEndOffset (wrap (wrap (start + cur) + padding)) start n sz
  = wrap (cur + padding + wrap (n * sz)).
Proof.
  unfold GetArrayEndOffset. cbv zeta.
  set (y := wrap (n * sz)).
  rewrite wrap_add_l.
  replace (wrap (wrap (start + cur) + padding) - start + y)
    with (wrap (wrap (start + cur) + padding) - (start - y)) by ring.
  rewrite wrap_sub_l.
  replace (wrap (start + cur) + padding - (start - y))
    with (wrap (start + cur) + (padding - start + y)) by ring.
  rewrite wrap_add_l. f_equal. ring.
Qed.

Lemma GetArrayEndOffset_within ptrAddress startAddress objectCount objectSize :
  0 <= ptrAddress - startAddress ->
  ptrAddress - startAddress + wrap (objectCount * objectSize) < modulus ->
  GetArrayEndOffset ptrAddress startAddress objectCount objectSize
  = ptrAddress - startAddress + wrap (objectCount * objectSize).
Proof.
  intros H0 H1. unfold GetArrayEndOffset. cbv zeta.
  pose proof (wrap_range (objectCount * objectSize)).
  rewrite (wrap_small (ptrAddress - startAddress)) by lia.
  apply wrap_small. lia.
Qed.

(** The end offset that the release of an allocation within the address
    space presents, in every later state whose memory below the end of the
    allocation is as the allocation left it: the current offset right
    after the allocation, for an object; for an array, the same less the
    back guard that [AllocateInternal] counts under [BoundsCheck]. *)
Lemma endOffset_at_after_allocate policy (c : Allocation) s t s1 s2 :
  StackCheck policy = true ->
  within_address_space policy c s ->
  allocate policy c s = Ok t s1 ->
  m_StartAddress s2 = m_StartAddress s1 ->
  (forall x, x < m_StartAddress s1 + m_CurrentOffset s1 ->
             memory s2 x = memory s1 x) ->
  endOffset_at policy t s2
  = m_CurrentOffset s1
    - (if array_call c && BoundsCheck policy then sizeof_BoundGuardBack else 0).
Proof.
  intros HS (Ha & Hz & Hs & Hc & Hm) H Est2 Hfr2.
  assert (Hcm : 0 <= m_CurrentOffset s < modulus).
  { unfold sizeof_BoundGuardBack, sizeof_Offset in Hm.
    assert (0 <= GetTotalHeaderSize policy (headerSize_of policy c)).
    { unfold GetTotalHeaderSize, sizeof_BoundGuardFront, sizeof_Offset.
      destruct c; cbn [headerSize_of];
        unfold sizeof_InplaceHeader, sizeof_StackArrayHeader, sizeof_Offset;
        destruct (BoundsCheck policy), (StackCheck policy); lia. }
    lia. }
  destruct c as [size al|sz al|n sz al|n sz al];
    cbn [alignment_of size_of headerSize_of array_call andb] in *;
    cbn [allocate] in H; apply bind_Ok_inv in H;
    destruct H as (v & s' & HA & HR); apply ret_Ok_inv in HR;
    destruct HR as [<- <-]; cbn [endOffset_at].
  - (* Allocate *)
    pose proof (Allocate_writes_header policy size al s v s' Hcm (or_introl HA))
      as Hhdr.
    apply Allocate_inv in HA. destruct HA as (s0 & so & eo & HI & ->).
    assert (Hsz : sizeof_InplaceHeader policy = 16).
    { unfold sizeof_InplaceHeader. now rewrite HS. }
    apply AllocateInternal_within in HI; try assumption; try (rewrite Hsz; lia).
    destruct HI as (-> & -> & Est & Hp & Hpe & Hmod & Hfr & Hend & Hlt).
    fields_in Hfr2. fields_in Est2. fields_in Hhdr.
    cbn [m_CurrentOffset set_memory].
    rewrite Hsz in *.
    assert (Hw : wrap (v - 16) = v - 16) by (apply wrap_small; lia).
    rewrite Hw in *.
    rewrite (load_InplaceHeader_ext policy (memory s2)
               (store_InplaceHeader (memory s0) (v - 16)
                  (mkInplaceHeader policy (m_CurrentOffset s)
                                   (m_CurrentOffset s0))))
      by (intros x Hx; apply Hfr2; rewrite Hsz in Hx; lia).
    rewrite Hhdr, header_endOffset_mkInplaceHeader by assumption. lia.
  - (* New *)
    apply New_endOffset in HA. destruct HA as [E _]. lia.
  - (* NewArray *)
    apply NewArray_inv in HA. destruct HA as (En & eo & HI).
    apply AllocateInternal_within in HI; try assumption; try lia.
    destruct HI as (Eso & -> & Est & Hp & Hpe & Hmod & Hfr & Hend & Hlt).
    rewrite En, Est2, Est.
    pose proof (wrap_range (n * sz)).
    unfold sizeof_BoundGuardBack, sizeof_Offset in *.
    destruct (BoundsCheck policy);
      rewrite GetArrayEndOffset_within by lia; lia.
  - (* AllocateArray *)
    apply AllocateArray_inv in HA. destruct HA as (s0 & so & eo & HI & ->).
    apply AllocateInternal_within in HI; try assumption;
      try (unfold sizeof_StackArrayHeader, sizeof_Offset; lia).
    destruct HI as (-> & -> & Est & Hp & Hpe & Hmod & Hfr & Hend & Hlt).
    fields_in Hfr2. fields_in Est2. fields.
    unfold sizeof_StackArrayHeader, sizeof_Offset in *.
    change (2 * 8) with 16 in *.
    assert (Hw : wrap (v - 16) = v - 16) by (apply wrap_small; lia).
    rewrite Hw in *.
    assert (Ecount : count (load_StackArrayHeader (memory s2) (v - 16))
                     = wrap n).
    { cbn [count load_StackArrayHeader]. unfold sizeof_Offset.
      rewrite (load_Offset_ext (memory s2)
                 (store_StackArrayHeader (memory s0) (v - 16)
                    (mkStackArrayHeader (m_CurrentOffset s) n)))
        by (intros x Hx; apply Hfr2; lia).
      unfold store_StackArrayHeader. cbn [array_startOffset count].
      unfold sizeof_Offset. apply load_store_Offset_wrap. }
    rewrite Ecount, Est2, Est.
    unfold GetArrayEndOffset. cbv zeta. rewrite wrap_mul_l.
    pose proof (wrap_range (n * sz)).
    unfold sizeof_BoundGuardBack, sizeof_Offset in *.
    rewrite (wrap_small (v - m_StartAddress s)) by lia.
    destruct (BoundsCheck policy); rewrite wrap_small by lia; lia.
Qed.

(** * The stack check *)

(** The stack check on the release of an allocation made within the
    address space, in the state right after the allocation or in any later
    state that has left the memory of the allocation alone.  The release
    passes the stack check exactly when the current offset is the one the
    allocation ended at, less the back guard for an array under
    [BoundsCheck].  So a release made after later allocations have raised
    the current offset is refused; the release of the latest allocation
    passes for an object, and for an array without [BoundsCheck]; and under
    [BoundsCheck] the release of the latest array is refused. *)
Lemma stack_check_after_allocate policy (c : Allocation) s t s1 s2 :
  StackCheck policy = true ->
  within_address_space policy c s ->
  allocate policy c s = Ok t s1 ->
  m_StartAddress s2 = m_StartAddress s1 ->
  (forall x, x < m_StartAddress s1 + m_CurrentOffset s1 ->
             memory s2 x = memory s1 x) ->
  let expected :=
    m_CurrentOffset s1
    - (if array_call c && BoundsCheck policy then sizeof_BoundGuardBack else 0)
  in
  (m_CurrentOffset s2 <> expected ->
   exists e, failure (release policy t s2) = Some e /\
             (e = NullPointerDeallocation \/ e = NotOwnedPointer \/
              e = OutOfOrderDeallocation)) /\
  (m_CurrentOffset s2 = expected ->
   failure (release policy t s2) <> Some OutOfOrderDeallocation).
Proof.
  intros HS Hw Ha Est Hfr expected.
  pose proof (endOffset_at_after_allocate policy c s t s1 s2 HS Hw Ha Est Hfr)
    as E.
  fold expected in E.
  destruct (release_StackCheck policy t s2 HS) as [Hne Heq].
  split; intros H; [apply Hne | apply Heq]; congruence.
Qed.

(** The release of an allocation is refused once a later allocation has
    raised the current offset. *)
Lemma release_of_earlier_allocation policy (c : Allocation) s t s1 s2 :
  StackCheck policy = true ->
  within_address_space policy c s ->
  allocate policy c s = Ok t s1 ->
  m_StartAddress s2 = m_StartAddress s1 ->
  (forall x, x < m_StartAddress s1 + m_CurrentOffset s1 ->
             memory s2 x = memory s1 x) ->
  m_CurrentOffset s1 < m_CurrentOffset s2 ->
  exists e, failure (release policy t s2) = Some e /\
            (e = NullPointerDeallocation \/ e = NotOwnedPointer \/
             e = OutOfOrderDeallocation).
Proof.
  intros HS Hw Ha Est Hfr Hlt.
  apply (stack_check_after_allocate policy c s t s1 s2 HS Hw Ha Est Hfr).
  unfold sizeof_BoundGuardBack, sizeof_Offset.
  destruct (array_call c && BoundsCheck policy); lia.
Qed.

(** The release of the latest allocation passes the stack check, unless
    it is an array under [BoundsCheck]. *)
Lemma release_of_latest_allocation policy (c : Allocation) s t s1 :
  StackCheck policy = true ->
  within_address_space policy c s ->
  allocate policy c s = Ok t s1 ->
  array_call c && BoundsCheck policy = false ->
  failure (release policy t s1) <> Some OutOfOrderDeallocation.
Proof.
  intros HS Hw Ha Hab.
  apply (stack_check_after_allocate policy c s t s1 s1 HS Hw Ha eq_refl).
  - reflexivity.
  - rewrite Hab. lia.
Qed.

(** Under [BoundsCheck] the release of the latest array is refused. *)
Lemma release_of_latest_array policy (c : Allocation) s t s1 :
  StackCheck policy = true -> BoundsCheck policy = true ->
  array_call c = true ->
  within_address_space policy c s ->
  allocate policy c s = Ok t s1 ->
  exists e, failure (release policy t s1) = Some e /\
            (e = NullPointerDeallocation \/ e = NotOwnedPointer \/
             e = OutOfOrderDeallocation).
Proof.
  intros HS HB Hc Hw Ha.
  apply (stack_check_after_allocate policy c s t s1 s1 HS Hw Ha eq_refl).
  - reflexivity.
  - rewrite Hc, HB. unfold sizeof_BoundGuardBack, sizeof_Offset.
    cbn [andb]. lia.
Qed.

(** Under [StackCheck] with [BoundsCheck] no array made by [NewArray] can
    be released through its handle: whenever the pointer checks pass, the
    stack check fails. *)
Lemma DeallocateArray_after_NewArray policy objectCount sizeofObject
  alignofObject s p s' :
  StackCheck policy = true -> BoundsCheck policy = true ->
  Allocators.NewArray policy objectCount sizeofObject alignofObject s = Ok p s' ->
  exists e,
    failure (Allocators.DeallocateArray_StackArrayPtr policy p sizeofObject s')
    = Some e /\
    (e = NullPointerDeallocation \/ e = NotOwnedPointer \/
     e = OutOfOrderDeallocation).
Proof.
  intros HS HB H.
  destruct policy as [sc bc stc nc oc mt]. cbn in HS, HB. subst.
  unfold_monad_in H. flags.
  change (0 <? 0 + sizeof_BoundGuardFront) with true in H. cbv iota in H.
  destruct sc; split_tests_in H; try discriminate.
  all: inversion H; subst; clear H.
  all: unfold_monad; flags; fields.
  all: destruct nc, oc; cbv beta iota; fields.
  all: split_tests.
  all: try (exfalso;
            match goal with
            | E : (GetArrayEndOffset _ _ _ _ =? _) = true |- _ =>
                rewrite GetArrayEndOffset_of_aligned in E;
                apply Z.eqb_eq in E; symmetry in E;
                exact (wrap_add_8_neq _ E)
            end).
  all: eexists; split; [reflexivity | auto].
Qed.

(** C1.  Under [StackCheck] with [BoundsCheck], the allocator of
    [Source/Allocators] refuses to release the array it has just
    allocated: [NewArray<T> (5)] (4-byte elements) on a new allocator
    succeeds, and the [DeleteArray] of that array, the most recently made
    live allocation, aborts with [OutOfOrderDeallocation]; so does
    [DeallocateArray] of the array just made by [AllocateArray].  The end
    offset recomputed from [count * objectSize] leaves out the back guard
    that [AllocateInternal] added to the current offset. *)
Theorem DeleteArray_of_latest_array_out_of_order :
  let s0 := construct 4096 1024 (fun _ => 0) in
  is_Ok (Allocators.NewArray Default 5 4 4 s0) = true /\
  failure ((p <- Allocators.NewArray Default 5 4 4 ;;
            Allocators.DeleteArray_StackArrayPtr Default p 4) s0)
  = Some OutOfOrderDeallocation /\
  is_Ok (Allocators.AllocateArray Default 5 4 4 s0) = true /\
  failure ((p <- Allocators.AllocateArray Default 5 4 4 ;;
            Allocators.DeallocateArray Default p 4) s0)
  = Some OutOfOrderDeallocation.
Proof. vm_compute. repeat split; reflexivity. Qed.

(** * Destruction of arrays *)

Lemma DestructArray_loop_length (i : nat) :
  length (Legacy.DestructArray_loop i) = i.
Proof. induction i as [|i IH]; cbn; [reflexivity | now rewrite IH]. Qed.

Lemma DestructArray_loop_In (i : nat) (x : Z) :
  In x (Legacy.DestructArray_loop i) <-> 0 <= x < Z.of_nat i.
Proof.
  induction i as [|i IH]; cbn [Legacy.DestructArray_loop In].
  - lia.
  - rewrite IH. lia.
Qed.

(** The loop of [Legacy.DestructArray] runs [objectCount - 1] times and
    never reaches the last element. *)
Lemma DestructArray_skips_last (objectCount : Offset) :
  1 <= objectCount < modulus ->
  Z.of_nat (length (Legacy.DestructArray objectCount)) = objectCount - 1 /\
  ~ In (objectCount - 1) (Legacy.DestructArray objectCount).
Proof.
  intros H. unfold Legacy.DestructArray.
  rewrite wrap_small by lia. split.
  - rewrite DestructArray_loop_length. lia.
  - rewrite DestructArray_loop_In. lia.
Qed.

(** C2.  [NewArray<T> (5)] followed by [DeleteArray] in the allocator of
    [Source/StackAllocator]: the current offset returns to the start offset
    of the array, but the destructor runs on the four elements 3, 2, 1, 0
    only; element 4 is never destructed. *)
Theorem DeleteArray_destructs_four_of_five :
  let s0 := construct 4096 1024 (fun _ => 0) in
  let r := (p <- Legacy.NewArray Default 5 4 4 ;;
            destructed <- Legacy.DeleteArray_StackArrayPtr Default p 4 ;;
            ret (array_startOffset (array_header p), destructed)) s0 in
  exists s',
    r = Ok (0, [3; 2; 1; 0]) s' /\ m_CurrentOffset s' = 0.
Proof. eexists. vm_compute. split; reflexivity. Qed.

(** * The size check *)

(** Under [SizeCheck], [Allocate] aborts with [OutOfMemory], the state
    untouched, when the [Size] value [m_CurrentOffset + padding + size]
    exceeds the total size, and commits otherwise. *)
Lemma Allocate_SizeCheck policy size alignment s :
  SizeCheck policy = true ->
  let total := wrap (m_CurrentOffset s
                     + padding_at policy (sizeof_InplaceHeader policy) alignment s
                     + size) in
  (m_TotalSize s < total ->
   Allocators.Allocate policy size alignment s = Abort OutOfMemory s /\
   Legacy.Allocate policy size alignment s = Abort OutOfMemory s) /\
  (total <= m_TotalSize s ->
   (exists p s', Allocators.Allocate policy size alignment s = Ok p s' /\
      m_CurrentOffset s' =
        if BoundsCheck policy then wrap (total + sizeof_BoundGuardBack)
        else total) /\
   (exists p s', Legacy.Allocate policy size alignment s = Ok p s' /\
      m_CurrentOffset s' = total)).
Proof.
  intros HS total. subst total. unfold padding_at, baseAddress_at. split.
  - intros Hlt. apply Z.leb_gt in Hlt.
    unfold_monad. rewrite HS. cbv beta iota.
    split; split_tests; congruence.
  - intros Hle. apply Z.leb_le in Hle.
    unfold_monad. rewrite HS. cbv beta iota.
    split; split_tests; try congruence; do 2 eexists; split; reflexivity.
Qed.

(** The size check on an allocation within the address space: the sum
    [currentOffset + padding + size] does not wrap, the call aborts with
    [OutOfMemory] and an untouched state when the sum exceeds the total
    size, and commits with a larger current offset otherwise. *)
Lemma Allocate_SizeCheck_within policy size alignment s :
  SizeCheck policy = true ->
  within_address_space policy (AllocateCall size alignment) s ->
  let padding := padding_at policy (sizeof_InplaceHeader policy) alignment s in
  (m_TotalSize s < m_CurrentOffset s + padding + size ->
   Allocators.Allocate policy size alignment s = Abort OutOfMemory s /\
   Legacy.Allocate policy size alignment s = Abort OutOfMemory s) /\
  (m_CurrentOffset s + padding + size <= m_TotalSize s ->
   (exists p s', Allocators.Allocate policy size alignment s = Ok p s' /\
                 m_CurrentOffset s < m_CurrentOffset s') /\
   (exists p s', Legacy.Allocate policy size alignment s = Ok p s' /\
                 m_CurrentOffset s < m_CurrentOffset s')).
Proof.
  intros HS (Ha & Hz & Hs & Hc & Hm) padding.
  cbn [alignment_of size_of headerSize_of] in *.
  unfold sizeof_BoundGuardBack, sizeof_Offset in Hm.
  assert (Hh : 8 <= sizeof_InplaceHeader policy)
    by (destruct (sizeof_InplaceHeader_cases policy); lia).
  assert (Hth : sizeof_InplaceHeader policy
                <= GetTotalHeaderSize policy (sizeof_InplaceHeader policy)).
  { unfold GetTotalHeaderSize, sizeof_BoundGuardFront, sizeof_Offset.
    destruct (BoundsCheck policy); lia. }
  destruct (placement_within policy (sizeof_InplaceHeader policy) alignment s)
    as (_ & _ & HP); try lia.
  fold padding in HP.
  destruct (Allocate_SizeCheck policy size alignment s HS) as [HF HO].
  fold padding in HF, HO.
  rewrite (wrap_small (m_CurrentOffset s + padding + size)) in HF, HO by lia.
  split; [exact HF|].
  intros Hle. destruct (HO Hle) as [(p & s' & E & C) (p' & s'' & E' & C')].
  split.
  - exists p, s'. split; [exact E|]. rewrite C.
    unfold sizeof_BoundGuardBack, sizeof_Offset.
    destruct (BoundsCheck policy); [rewrite wrap_small|]; lia.
  - exists p', s''. split; [exact E'|]. lia.
Qed.

(** C3.  Under [SizeCheck], an [Allocate] whose size makes
    [currentOffset + padding + size] overflow is not refused: with 16 of 64
    bytes used, [Allocate (2^64 - 16, 8)] needs far more than the 64 bytes
    of the arena, yet the call returns a pointer and moves the current
    offset back from 16 to 8, in both allocators. *)
Theorem Allocate_SizeCheck_overflow :
  let policy := mkPolicy true false false false false false in
  let s := state_of (Allocators.Allocate policy 8 8
                       (construct 4096 64 (fun _ => 0))) in
  let size := 2 ^ 64 - 16 in
  m_CurrentOffset s = 16 /\
  m_TotalSize s <
    m_CurrentOffset s + padding_at policy (sizeof_InplaceHeader policy) 8 s + size /\
  failure (Allocators.Allocate policy size 8 s) = None /\
  m_CurrentOffset (state_of (Allocators.Allocate policy size 8 s)) = 8 /\
  failure (Legacy.Allocate policy size 8 s) = None /\
  m_CurrentOffset (state_of (Legacy.Allocate policy size 8 s)) = 8.
Proof. vm_compute. repeat split; reflexivity. Qed.

(** * The guards *)

(** C4.  In the allocator of [Source/StackAllocator] the back guard is
    never checked.  [New] writes the back guard (offset 0) right after the
    8-byte payload; the caller overwrites these 8 bytes, so that the guard
    reads 2^64 - 1; [Delete] succeeds all the same and rolls the current
    offset back to 0, and so does [Deallocate] after [Allocate].  The
    allocator of [Source/Allocators] aborts with [CorruptionDetected] on
    the same calls. *)
Theorem Legacy_back_guard_not_checked :
  let s0 := construct 4096 1024 (fun _ => 0) in
  let stomp := [255; 255; 255; 255; 255; 255; 255; 255] in
  let back_guard p := gets (fun s => load_BoundGuardBack (memory s) (p + 8)) in
  (exists s',
     (p <- Legacy.New Default 8 8 ;;
      written <- back_guard (ptr p) ;;
      overwrite (ptr p + 8) stomp ;;;
      stomped <- back_guard (ptr p) ;;
      Legacy.Delete_StackPtr Default p ;;;
      ret (written, stomped, startOffset (header p))) s0
     = Ok (mkBoundGuardBack 0, mkBoundGuardBack (2 ^ 64 - 1), 0) s'
     /\ m_CurrentOffset s' = 0) /\
  (exists s',
     (p <- Legacy.Allocate Default 8 8 ;;
      written <- back_guard p ;;
      overwrite (p + 8) stomp ;;;
      stomped <- back_guard p ;;
      Legacy.Deallocate Default p ;;;
      ret (written, stomped)) s0
     = Ok (mkBoundGuardBack 0, mkBoundGuardBack (2 ^ 64 - 1)) s'
     /\ m_CurrentOffset s' = 0) /\
  failure ((p <- Allocators.New Default 8 8 ;;
            overwrite (ptr p + 8) stomp ;;;
            Allocators.Delete_StackPtr Default p) s0)
  = Some CorruptionDetected /\
  failure ((p <- Allocators.Allocate Default 8 8 ;;
            overwrite (p + 8) stomp ;;;
            Allocators.Deallocate Default p) s0)
  = Some CorruptionDetected.
Proof.
  cbv zeta. split; [|split; [|split]].
  - eexists. vm_compute. split; reflexivity.
  - eexists. vm_compute. split; reflexivity.
  - vm_compute. reflexivity.
  - vm_compute. reflexivity.
Qed.

(** * The current offset and the total size *)

(** Under [SizeCheck] and without [BoundsCheck] a committed allocation
    ends inside the arena. *)
Lemma allocate_within_total policy (c : Allocation) s t s' :
  SizeCheck policy = true -> BoundsCheck policy = false ->
  allocate policy c s = Ok t s' ->
  m_TotalSize s' = m_TotalSize s /\
  0 <= m_CurrentOffset s' <= m_TotalSize s.
Proof.
  intros HS HB H.
  destruct policy as [sc bc stc nc oc mt]. cbn in HS, HB. subst.
  destruct c; unfold_monad_in H; flags; cbv beta iota in H;
    split_tests_in H; try discriminate; inversion H; subst; fields;
    (split; [reflexivity|]);
    (split; [apply wrap_range|]);
    match goal with
    | E : (wrap _ <=? _) = true |- _ => apply Z.leb_le; exact E
    end.
Qed.

(** In the allocator of [Source/StackAllocator] the size check bounds the
    current offset under every policy with [SizeCheck]: the back guard is
    not counted in the offset. *)
Lemma Legacy_allocate_within_total policy (c : Allocation) s t s' :
  SizeCheck policy = true ->
  Legacy_allocate policy c s = Ok t s' ->
  m_TotalSize s' = m_TotalSize s /\
  0 <= m_CurrentOffset s' <= m_TotalSize s.
Proof.
  intros HS H.
  destruct policy as [sc bc stc nc oc mt]. cbn in HS. subst.
  destruct c, bc; unfold_monad_in H; flags; cbv beta iota in H;
    split_tests_in H; try discriminate; inversion H; subst; fields;
    (split; [reflexivity|]);
    (split; [apply wrap_range|]);
    match goal with
    | E : (wrap _ <=? _) = true |- _ => apply Z.leb_le; exact E
    end.
Qed.

Lemma release_total_size policy (t : Allocated) s s' :
  release policy t s = Ok tt s' -> m_TotalSize s' = m_TotalSize s.
Proof.
  intros H. destruct t; unfold_monad_in H; split_tests_in H;
    try discriminate; inversion H; subst; reflexivity.
Qed.

Lemma Legacy_release_total_size policy (t : Allocated) s s' :
  Legacy_release policy t s = Ok tt s' -> m_TotalSize s' = m_TotalSize s.
Proof.
  intros H. destruct t; unfold_monad_in H; split_tests_in H;
    try discriminate; inversion H; subst; reflexivity.
Qed.

Lemma Reset_zero s s' :
  (Allocators.Reset s = Ok tt s' \/ Legacy.Reset s = Ok tt s') ->
  m_TotalSize s' = m_TotalSize s /\ m_CurrentOffset s' = 0.
Proof. intros [H|H]; inversion H; subst; split; reflexivity. Qed.

(** * The ownership check *)

Lemma OwnsAddress_closed_range address s :
  Allocators.OwnsAddress address s = true <->
  m_StartAddress s <= address <= m_EndAddress s.
Proof.
  unfold Allocators.OwnsAddress.
  rewrite andb_true_iff, !Z.leb_le. reflexivity.
Qed.

(** * Unwinding in LIFO order *)

Lemma allocate_all_frame policy (cs : list Allocation) :
  forall s ts s',
    in_address_space policy cs s ->
    allocate_all policy cs s = Ok ts s' ->
    m_StartAddress s' = m_StartAddress s /\
    m_CurrentOffset s <= m_CurrentOffset s' /\
    (forall x, x < m_StartAddress s + m_CurrentOffset s ->
               memory s' x = memory s x).
Proof.
  induction cs as [|c cs IH]; intros s ts s' Hin H.
  - apply ret_Ok_inv in H. destruct H as [_ <-].
    repeat split; try lia.
  - cbn [allocate_all] in H. cbn [in_address_space] in Hin.
    destruct Hin as [Hc Hin].
    apply bind_Ok_inv in H. destruct H as (t & s1 & Ht & H).
    apply bind_Ok_inv in H. destruct H as (ts' & s2 & Hts & H).
    apply ret_Ok_inv in H. destruct H as [_ <-].
    rewrite Ht in Hin.
    destruct (allocate_within policy c s t s1 Hc Ht) as (E1 & L1 & F1 & _).
    destruct (IH s1 ts' s2 Hin Hts) as (E2 & L2 & F2).
    split; [congruence|]. split; [lia|].
    intros x Hx. rewrite F2 by (rewrite E1; lia). apply F1. exact Hx.
Qed.

Lemma release_all_memory policy (ts : list Allocated) :
  forall s s',
    release_all policy ts s = Ok tt s' ->
    memory s' = memory s /\ m_StartAddress s' = m_StartAddress s.
Proof.
  induction ts as [|t ts IH]; intros s s' H.
  - apply ret_Ok_inv in H. destruct H as [_ <-]. split; reflexivity.
  - cbn [release_all] in H.
    apply bind_Ok_inv in H. destruct H as ([] & s1 & Ht & H).
    apply release_memory in Ht. apply IH in H.
    destruct Ht, H. split; congruence.
Qed.

Lemma release_all_app policy (ts : list Allocated) (t : Allocated) :
  forall s s',
    release_all policy (ts ++ [t]) s = Ok tt s' ->
    exists sm, release_all policy ts s = Ok tt sm /\
               release policy t sm = Ok tt s'.
Proof.
  induction ts as [|u ts IH]; intros s s' H.
  - cbn [app release_all] in H.
    apply bind_Ok_inv in H. destruct H as ([] & s1 & Ht & H).
    apply ret_Ok_inv in H. destruct H as [_ <-].
    exists s. split; [reflexivity | exact Ht].
  - cbn [app release_all] in H.
    apply bind_Ok_inv in H. destruct H as ([] & s1 & Hu & H).
    destruct (IH s1 s' H) as (sm & Hts & Ht).
    exists sm. split; [|exact Ht].
    cbn [release_all]. unfold bind. rewrite Hu. exact Hts.
Qed.

(** Allocations followed by the releases that pair with them, in reverse
    order, bring the current offset back to where it was. *)
Lemma LIFO_unwind policy (cs : list Allocation) s ts s1 s2 :
  in_address_space policy cs s ->
  allocate_all policy cs s = Ok ts s1 ->
  release_all policy ts s1 = Ok tt s2 ->
  m_CurrentOffset s2 = m_CurrentOffset s /\
  (GetUsedSize s = m_CurrentOffset s -> GetUsedSize s2 = m_CurrentOffset s).
Proof.
  intros Hin Ha Hr. destruct cs as [|c cs].
  - apply ret_Ok_inv in Ha. destruct Ha as [<- <-].
    apply ret_Ok_inv in Hr. destruct Hr as [_ <-]. auto.
  - cbn [allocate_all] in Ha. cbn [in_address_space] in Hin.
    destruct Hin as [Hc Hin].
    apply bind_Ok_inv in Ha. destruct Ha as (t & sa & Ht & Ha).
    apply bind_Ok_inv in Ha. destruct Ha as (ts' & sb & Hts & Ha).
    apply ret_Ok_inv in Ha. destruct Ha as [<- <-].
    rewrite Ht in Hin.
    destruct (allocate_within policy c s t sa Hc Ht) as (E1 & L1 & F1 & R).
    destruct (allocate_all_frame policy cs sa ts' sb Hin Hts) as (E2 & L2 & F2).
    apply release_all_app in Hr. destruct Hr as (sm & Hrs & Hrt).
    apply release_all_memory in Hrs. destruct Hrs as [Em Es].
    destruct (R sm s2) as [C U].
    + congruence.
    + intros x Hx. rewrite Em. apply F2. rewrite E1. exact Hx.
    + exact Hrt.
    + auto.
Qed.

(** Releases through handles need no assumption on the memory: the handle
    carries the start offset. *)
Lemma LIFO_unwind_handles policy (cs : list Allocation) s ts s1 s2 :
  forallb handle_call cs = true ->
  allocate_all policy cs s = Ok ts s1 ->
  release_all policy ts s1 = Ok tt s2 ->
  m_CurrentOffset s2 = m_CurrentOffset s /\
  (GetUsedSize s = m_CurrentOffset s -> GetUsedSize s2 = m_CurrentOffset s).
Proof.
  intros Hh Ha Hr. destruct cs as [|c cs].
  - apply ret_Ok_inv in Ha. destruct Ha as [<- <-].
    apply ret_Ok_inv in Hr. destruct Hr as [_ <-]. auto.
  - cbn [allocate_all] in Ha. cbn [forallb] in Hh.
    apply andb_true_iff in Hh. destruct Hh as [Hc _].
    apply bind_Ok_inv in Ha. destruct Ha as (t & sa & Ht & Ha).
    apply bind_Ok_inv in Ha. destruct Ha as (ts' & sb & Hts & Ha).
    apply ret_Ok_inv in Ha. destruct Ha as [<- <-].
    apply release_all_app in Hr. destruct Hr as (sm & _ & Hrt).
    destruct c as [size al|sz al|n sz al|n sz al]; try discriminate;
      cbn [allocate] in Ht; apply bind_Ok_inv in Ht;
      destruct Ht as (p & s' & HA & HR); apply ret_Ok_inv in HR;
      destruct HR as [<- <-]; cbn [release] in Hrt.
    + apply New_inv in HA. destruct HA as (eo & HI).
      apply AllocateInternal_startOffset in HI.
      apply Delete_StackPtr_rolls_back in Hrt. destruct Hrt as [C U].
      split; [|intros _]; congruence.
    + apply NewArray_inv in HA. destruct HA as (_ & eo & HI).
      apply AllocateInternal_startOffset in HI.
      apply bind_Ok_inv in Hrt. destruct Hrt as (l & s3 & Hrt & HR).
      apply ret_Ok_inv in HR. destruct HR as [_ <-].
      apply DeleteArray_StackArrayPtr_rolls_back in Hrt.
      destruct Hrt as [C U]. split; [|intros _]; congruence.
Qed.

(** * Reset and replay *)

(** What an allocation call returns depends on the position of the
    allocator only, and allocators at the same position stay at the same
    position. *)
Lemma allocate_same_position policy (c : Allocation) s t :
  same_position s t ->
  match allocate policy c s, allocate policy c t with
  | Ok v s', Ok w t' => v = w /\ same_position s' t'
  | Abort e _, Abort e' _ => e = e'
  | _, _ => False
  end.
Proof.
  destruct s as [ss se sc st su sm], t as [ts te tc tt' tu tm].
  unfold same_position. cbn [m_StartAddress m_CurrentOffset m_TotalSize].
  intros (-> & -> & ->).
  destruct policy as [[] [] [] nc oc mt], c;
    unfold_monad; flags; cbv beta iota; fields; split_tests;
    repeat split; reflexivity.
Qed.

Lemma replay_same_position policy (cs : list Allocation) :
  forall s t, same_position s t -> replay policy cs s = replay policy cs t.
Proof.
  induction cs as [|c cs IH]; intros s t Hst; [reflexivity|].
  cbn [replay].
  pose proof (allocate_same_position policy c s t Hst) as H.
  destruct (allocate policy c s) as [v s'|e s'],
           (allocate policy c t) as [w t'|e' t']; try contradiction.
  - destruct H as [-> Hst'].
    destruct Hst' as (Hs & Hc & Ht). rewrite Hs, Hc.
    f_equal. apply IH. repeat split; assumption.
  - now subst.
Qed.

(** C8.  [Reset] sets the current offset to 0, and a sequence of
    allocation calls replayed after it shows the same allocations, payload
    offsets and current offsets as on an allocator newly constructed over
    the same arena (same start address, same total size), whatever the
    arena contains. *)
Theorem Reset_then_replay policy (cs : list Allocation) s (m : Memory) :
  exists s0,
    Allocators.Reset s = Ok tt s0 /\
    m_CurrentOffset s0 = 0 /\
    replay policy cs s0
    = replay policy cs (construct (m_StartAddress s) (m_TotalSize s) m).
Proof.
  eexists. split; [reflexivity|]. split; [reflexivity|].
  apply replay_same_position. repeat split.
Qed.

(** The start address is one of the inputs: two new allocators of the
    same total size whose arenas start at 4096 and at 4104 place a 16-byte
    aligned object at different offsets. *)
Lemma replay_depends_on_start_address :
  replay Release [NewCall 8 16] (construct 4096 64 (fun _ => 0))
  = [Allocated_at (ObjectHandle (mkStackPtr 4096 (mkStackHeader 0 8))) 0 8] /\
  replay Release [NewCall 8 16] (construct 4104 64 (fun _ => 0))
  = [Allocated_at (ObjectHandle (mkStackPtr 4112 (mkStackHeader 0 16))) 8 16].
Proof. split; vm_compute; reflexivity. Qed.

(** * Raw pointers and handles *)

(** C9, as amended.  Without [BoundsCheck], while the in-place header
    written by [Allocate] is in the bytes before the pointer, [Deallocate]
    of the raw pointer and [Deallocate] of a handle carrying the same
    [{startOffset, endOffset}] give the same result in every state: the
    same check fails, or the current offset is rolled back alike.  This
    holds for both allocators. *)
Theorem Deallocate_raw_and_handle_agree policy p so eo s :
  BoundsCheck policy = false ->
  load_InplaceHeader policy (memory s) (wrap (p - sizeof_InplaceHeader policy))
  = mkInplaceHeader policy so eo ->
  Allocators.Deallocate policy p s
  = Allocators.Deallocate_StackPtr policy (mkStackPtr p (mkStackHeader so eo)) s
  /\
  Legacy.Deallocate policy p s
  = Legacy.Deallocate_StackPtr policy (mkStackPtr p (mkStackHeader so eo)) s.
Proof.
  intros HB H.
  destruct policy as [sc bc stc nc oc mt]. cbn in HB. subst.
  destruct stc, nc, oc; flags; inversion H; clear H; subst;
    unfold_monad; flags; cbv beta iota; fields;
    unfold sizeof_Offset; change (2 * 8) with 16;
    split_tests; try discriminate; split; reflexivity.
Qed.

Lemma Deallocate_raw_and_handle_agree_witness :
  let policy := mkPolicy true false true true true false in
  let s := state_of (Legacy.Allocate policy 8 8
                       (construct 4096 64 (fun _ => 0))) in
  Allocators.Deallocate policy 4112 s
  = Allocators.Deallocate_StackPtr policy
      (mkStackPtr 4112 (mkStackHeader 0 24)) s
  /\
  Legacy.Deallocate policy 4112 s
  = Legacy.Deallocate_StackPtr policy (mkStackPtr 4112 (mkStackHeader 0 24)) s.
Proof.
  cbv zeta.
  apply (Deallocate_raw_and_handle_agree
           (mkPolicy true false true true true false) 4112 0 24).
  - reflexivity.
  - vm_compute. reflexivity.
Defined.

(** C9, the claim as stated fails.  Under [BoundsCheck], [Allocate (8, 8)]
    on a new allocator returns pointer 4128 for the offsets [0, 40);
    [Deallocate] of the raw pointer succeeds, [Deallocate] of the handle
    [{4128, {0, 40}}] aborts with [CorruptionDetected]: it reads the front
    guard right before the payload, where the in-place header is.  Without
    [BoundsCheck], once the caller has overwritten the 8 bytes of the
    header that hold the end offset, [Deallocate] of the raw pointer aborts
    with [OutOfOrderDeallocation] and [Deallocate] of the handle
    succeeds. *)
Lemma Deallocate_raw_and_handle_differ :
  let s0 := construct 4096 1024 (fun _ => 0) in
  let s := state_of (Legacy.Allocate Default 8 8 s0) in
  let policy := mkPolicy true false true true true false in
  let t := state_of ((p <- Legacy.Allocate policy 8 8 ;;
                      overwrite (p - 16) [255; 255; 255; 255; 255; 255; 255; 255])
                       s0) in
  (Legacy.Allocate Default 8 8 s0 = Ok 4128 s /\
   m_CurrentOffset s0 = 0 /\ m_CurrentOffset s = 40 /\
   failure (Legacy.Deallocate Default 4128 s) = None /\
   failure (Legacy.Deallocate_StackPtr Default
              (mkStackPtr 4128 (mkStackHeader 0 40)) s)
   = Some CorruptionDetected) /\
  (is_Ok (Legacy.Allocate policy 8 8 s0) = true /\
   m_CurrentOffset t = 24 /\
   failure (Legacy.Deallocate policy 4112 t) = Some OutOfOrderDeallocation /\
   failure (Legacy.Deallocate_StackPtr policy
              (mkStackPtr 4112 (mkStackHeader 0 24)) t) = None).
Proof. vm_compute. repeat split; reflexivity. Qed.

(** * The used size *)

(** C10.  After every operation that succeeds, whether an allocation, a
    deallocation or [Reset], [GetUsedSize ()] equals the current offset:
    the offset changes through [SetCurrentOffset] only, which sets both. *)
Theorem GetUsedSize_is_current_offset policy (c : Call) s s' :
  perform policy c s = Ok tt s' -> GetUsedSize s' = m_CurrentOffset s'.
Proof.
  intros H. destruct c as [[ | | | ]|[ | | | ]| ];
    unfold_monad_in H; split_tests_in H;
    try discriminate; inversion H; subst; reflexivity.
Qed.

Lemma GetUsedSize_is_current_offset_witness :
  let s := construct 4096 64 (fun _ => 0) in
  let c := Allocating (AllocateCall 8 8) in
  GetUsedSize (state_of (perform Default c s))
  = m_CurrentOffset (state_of (perform Default c s)).
Proof.
  cbv zeta.
  apply (GetUsedSize_is_current_offset Default
           (Allocating (AllocateCall 8 8)) (construct 4096 64 (fun _ => 0))).
  vm_compute. reflexivity.
Defined.

(** * Further properties of the two allocators *)

(** ** The checks of a release

    Every release makes its checks in one order: the null check and the
    ownership check on the pointer, the stack check on the end offset, the
    comparison of the guards; the first that fails aborts the call, and
    the call that passes them all sets the current offset to the start
    offset. *)

Lemma release_normal_form policy (t : Allocated) s :
  release policy t s
  = match release_checks policy t s with
    | Some e => Abort e s
    | None => Ok tt (rolled_back (startOffset_at policy t s) s)
    end.
Proof.
  destruct policy as [sc bc stc nc oc mt].
  unfold release_checks, guards_match, rolled_back,
    endOffset_at, startOffset_at, addressMarker_of, payload.
  destruct t, stc, nc, oc, bc; unfold_monad; flags; cbv beta iota; fields;
    cbn [andb negb]; split_tests; cbn [andb negb] in *;
    try discriminate; try reflexivity.
Qed.

Lemma Legacy_release_normal_form policy (t : Allocated) s :
  Legacy_release policy t s
  = match Legacy_release_checks policy t s with
    | Some e => Abort e s
    | None => Ok tt (rolled_back (startOffset_at policy t s) s)
    end.
Proof.
  destruct policy as [sc bc stc nc oc mt].
  unfold Legacy_release_checks, Legacy_guards_match, rolled_back,
    endOffset_at, startOffset_at, addressMarker_of, payload, GetArrayEndOffset.
  destruct t, stc, nc, oc, bc; unfold_monad; flags; cbv beta iota; fields;
    cbn [andb negb]; split_tests; cbn [andb negb] in *;
    try discriminate; try reflexivity.
Qed.

Lemma release_Ok_inv policy (t : Allocated) s s' :
  release policy t s = Ok tt s' ->
  release_checks policy t s = None /\
  s' = rolled_back (startOffset_at policy t s) s.
Proof.
  rewrite release_normal_form.
  destruct (release_checks policy t s); [discriminate|].
  intros H. inversion H. split; reflexivity.
Qed.

Lemma Legacy_release_Ok_inv policy (t : Allocated) s s' :
  Legacy_release policy t s = Ok tt s' ->
  Legacy_release_checks policy t s = None /\
  s' = rolled_back (startOffset_at policy t s) s.
Proof.
  rewrite Legacy_release_normal_form.
  destruct (Legacy_release_checks policy t s); [discriminate|].
  intros H. inversion H. split; reflexivity.
Qed.

Lemma reads_rolled_back policy (t : Allocated) o s :
  startOffset_at policy t (rolled_back o s) = startOffset_at policy t s /\
  endOffset_at policy t (rolled_back o s) = endOffset_at policy t s /\
  guards_match policy t (rolled_back o s) = guards_match policy t s /\
  Legacy_guards_match policy t (rolled_back o s)
  = Legacy_guards_match policy t s.
Proof. destruct t; repeat split; reflexivity. Qed.

(** ** A committed allocation in closed form *)

Lemma GetTotalHeaderSize_cases policy headerSize :
  GetTotalHeaderSize policy headerSize
  = headerSize + (if BoundsCheck policy then 16 else 0).
Proof.
  unfold GetTotalHeaderSize, sizeof_BoundGuardFront, sizeof_Offset.
  destruct (BoundsCheck policy); lia.
Qed.

Lemma headerSize_of_range policy (c : Allocation) :
  0 <= headerSize_of policy c <= 16.
Proof.
  destruct c; cbn [headerSize_of];
    unfold sizeof_InplaceHeader, sizeof_StackArrayHeader, sizeof_Offset;
    destruct (StackCheck policy); lia.
Qed.

(** A committed [AllocateInternal] within the address space, in closed
    form. *)
Lemma AllocateInternal_exact policy headerSize size alignment s p so eo s' :
  0 <= headerSize -> 0 < alignment -> 0 <= size ->
  0 <= m_StartAddress s -> 0 <= m_CurrentOffset s ->
  m_StartAddress s + m_CurrentOffset s
  + GetTotalHeaderSize policy headerSize + alignment + size
  + sizeof_BoundGuardBack <= modulus ->
  Allocators.AllocateInternal policy headerSize size alignment s
  = Ok (p, so, eo) s' ->
  let P := padding_at policy headerSize alignment s in
  let ths := GetTotalHeaderSize policy headerSize in
  ths <= P < ths + alignment /\
  p = m_StartAddress s + m_CurrentOffset s + P /\
  so = m_CurrentOffset s /\
  eo = m_CurrentOffset s + P + size + (if BoundsCheck policy then 8 else 0) /\
  (SizeCheck policy = true -> m_CurrentOffset s + P + size <= m_TotalSize s) /\
  s' = mkStackAllocator (m_StartAddress s) (m_EndAddress s) eo
         (m_TotalSize s) eo
         (if BoundsCheck policy
          then store_BoundGuardBack
                 (store_BoundGuardFront (memory s) (p - ths)
                    (mkBoundGuardFront (m_CurrentOffset s) size))
                 (p + size) (mkBoundGuardBack (m_CurrentOffset s))
          else memory s).
Proof.
  intros Hh Ha Hz Hs Hc Hm H P ths.
  pose proof (GetTotalHeaderSize_cases policy headerSize) as Hth.
  fold ths in Hth.
  unfold sizeof_BoundGuardBack, sizeof_Offset in Hm. fold ths in Hm.
  destruct (placement_within policy headerSize alignment s) as (Hb & HA & HP);
    try assumption; try (fold ths; destruct (BoundsCheck policy); lia).
  fold P ths in HA, HP.
  rewrite AllocateInternal_placement in H. cbv zeta in H.
  fold P ths in H.
  set (A := alignedAddress_at policy headerSize alignment s) in *.
  assert (Hths : 0 <= ths) by (destruct (BoundsCheck policy); lia).
  rewrite (wrap_small (m_CurrentOffset s + P + size)) in H by lia.
  unfold sizeof_BoundGuardBack, sizeof_Offset in H.
  rewrite (wrap_small (m_CurrentOffset s + P + size + 8)) in H by lia.
  rewrite (wrap_small (A - ths)) in H by lia.
  rewrite (wrap_small (A + size)) in H by lia.
  destruct (SizeCheck policy) eqn:ES; cbn [andb] in H.
  - destruct (Z.leb_spec (m_CurrentOffset s + P + size) (m_TotalSize s));
      cbn [negb] in H; [|discriminate].
    inversion H; subst p so eo s'; clear H.
    destruct (BoundsCheck policy); repeat split; try lia; try reflexivity;
      f_equal; lia.
  - inversion H; subst p so eo s'; clear H.
    destruct (BoundsCheck policy); repeat split; try lia; try reflexivity;
      try discriminate; f_equal; lia.
Qed.

Lemma Legacy_AllocateInternal_exact policy headerSize size alignment s p s' :
  0 <= headerSize -> 0 < alignment -> 0 <= size ->
  0 <= m_StartAddress s -> 0 <= m_CurrentOffset s ->
  m_StartAddress s + m_CurrentOffset s
  + GetTotalHeaderSize policy headerSize + alignment + size
  + sizeof_BoundGuardBack <= modulus ->
  Legacy.AllocateInternal policy headerSize size alignment s = Ok p s' ->
  let P := padding_at policy headerSize alignment s in
  let ths := GetTotalHeaderSize policy headerSize in
  ths <= P < ths + alignment /\
  p = m_StartAddress s + m_CurrentOffset s + P /\
  (SizeCheck policy = true -> m_CurrentOffset s + P + size <= m_TotalSize s) /\
  s' = mkStackAllocator (m_StartAddress s) (m_EndAddress s)
         (m_CurrentOffset s + P + size) (m_TotalSize s)
         (m_CurrentOffset s + P + size)
         (if BoundsCheck policy
          then store_BoundGuardBack
                 (store_BoundGuardFront (memory s) (p - ths)
                    (mkBoundGuardFront (m_CurrentOffset s) size))
                 (p + size) (mkBoundGuardBack (m_CurrentOffset s))
          else memory s).
Proof.
  intros Hh Ha Hz Hs Hc Hm H P ths.
  pose proof (GetTotalHeaderSize_cases policy headerSize) as Hth.
  fold ths in Hth.
  unfold sizeof_BoundGuardBack, sizeof_Offset in Hm. fold ths in Hm.
  destruct (placement_within policy headerSize alignment s) as (Hb & HA & HP);
    try assumption; try (fold ths; destruct (BoundsCheck policy); lia).
  fold P ths in HA, HP.
  rewrite Legacy_AllocateInternal_placement in H. cbv zeta in H.
  fold P ths in H.
  set (A := alignedAddress_at policy headerSize alignment s) in *.
  assert (Hths : 0 <= ths) by (destruct (BoundsCheck policy); lia).
  rewrite (wrap_small (m_CurrentOffset s + P + size)) in H by lia.
  rewrite (wrap_small (A - ths)) in H by lia.
  rewrite (wrap_small (A + size)) in H by lia.
  destruct (SizeCheck policy) eqn:ES; cbn [andb] in H.
  - destruct (Z.leb_spec (m_CurrentOffset s + P + size) (m_TotalSize s));
      cbn [negb] in H; [|discriminate].
    inversion H; subst p s'; clear H.
    repeat split; try lia; try reflexivity.
  - inversion H; subst p s'; clear H.
    repeat split; try lia; try reflexivity; try discriminate.
Qed.

Lemma payload_allocation_result (c : Allocation) p so eo :
  payload (allocation_result c p so eo) = p.
Proof. destruct c; reflexivity. Qed.

Lemma allocate_exact policy (c : Allocation) s t s1 :
  within_address_space policy c s ->
  allocate policy c s = Ok t s1 ->
  let hs := headerSize_of policy c in
  let ths := GetTotalHeaderSize policy hs in
  let P := padding_at policy hs (alignment_of c) s in
  let p := m_StartAddress s + m_CurrentOffset s + P in
  let eo := m_CurrentOffset s + P + size_of c
            + (if BoundsCheck policy then 8 else 0) in
  ths <= P < ths + alignment_of c /\
  (SizeCheck policy = true ->
   m_CurrentOffset s + P + size_of c <= m_TotalSize s) /\
  t = allocation_result c p (m_CurrentOffset s) eo /\
  s1 = mkStackAllocator (m_StartAddress s) (m_EndAddress s) eo
         (m_TotalSize s) eo (memory_after policy c p eo s).
Proof.
  intros (Ha & Hz & Hs & Hc & Hm) H.
  pose proof (headerSize_of_range policy c) as Hh.
  pose proof (GetTotalHeaderSize_cases policy (headerSize_of policy c)) as Hth.
  destruct c as [size al|sz al|n sz al|n sz al];
    cbn [alignment_of size_of headerSize_of] in *;
    cbn [allocate] in H; apply bind_Ok_inv in H;
    destruct H as (v & s' & HA & HR); apply ret_Ok_inv in HR;
    destruct HR as [<- <-]; cbv zeta; unfold memory_after, allocation_result;
    cbn [headerSize_of size_of].
  - apply Allocate_inv in HA. destruct HA as (s0 & so & eo & HI & ->).
    apply AllocateInternal_exact in HI; try assumption; try lia.
    cbv zeta in HI. destruct HI as (HP & -> & -> & -> & HS & ->).
    unfold set_memory; fields.
    rewrite wrap_small
      by (unfold sizeof_BoundGuardBack, sizeof_Offset in Hm;
          destruct (BoundsCheck policy); lia).
    repeat split; try lia; try assumption.
  - pose proof (New_endOffset policy sz al s v s' HA) as [HE _].
    apply New_inv in HA. destruct HA as (eo & HI). destruct v as [vp [vs ve]].
    cbn [ptr header startOffset endOffset] in *.
    apply AllocateInternal_exact in HI; try assumption; try lia.
    cbv zeta in HI. destruct HI as (HP & -> & -> & -> & HS & ->).
    cbn [m_CurrentOffset] in HE. subst ve.
    repeat split; try lia; try assumption.
  - apply NewArray_inv in HA. destruct HA as (En & eo & HI).
    destruct v as [vp [vs vn]].
    cbn [array_ptr array_header array_startOffset count] in *.
    apply AllocateInternal_exact in HI; try assumption; try lia.
    cbv zeta in HI. destruct HI as (HP & -> & -> & -> & HS & ->).
    subst vn. repeat split; try lia; try assumption.
  - apply AllocateArray_inv in HA. destruct HA as (s0 & so & eo & HI & ->).
    apply AllocateInternal_exact in HI; try assumption; try lia.
    cbv zeta in HI. destruct HI as (HP & -> & -> & -> & HS & ->).
    unfold set_memory; fields.
    rewrite (wrap_small (_ - sizeof_StackArrayHeader))
      by (unfold sizeof_BoundGuardBack, sizeof_Offset in Hm;
          destruct (BoundsCheck policy); lia).
    repeat split; try lia; try assumption.
Qed.

Lemma Legacy_allocate_exact policy (c : Allocation) s t s1 :
  within_address_space policy c s ->
  Legacy_allocate policy c s = Ok t s1 ->
  let hs := headerSize_of policy c in
  let ths := GetTotalHeaderSize policy hs in
  let P := padding_at policy hs (alignment_of c) s in
  let p := m_StartAddress s + m_CurrentOffset s + P in
  let eo := m_CurrentOffset s + P + size_of c in
  ths <= P < ths + alignment_of c /\
  (SizeCheck policy = true -> eo <= m_TotalSize s) /\
  t = allocation_result c p (m_CurrentOffset s) eo /\
  s1 = mkStackAllocator (m_StartAddress s) (m_EndAddress s) eo
         (m_TotalSize s) eo (memory_after policy c p eo s).
Proof.
  intros (Ha & Hz & Hs & Hc & Hm) H.
  pose proof (headerSize_of_range policy c) as Hh.
  pose proof (GetTotalHeaderSize_cases policy (headerSize_of policy c)) as Hth.
  destruct c as [size al|sz al|n sz al|n sz al];
    cbn [alignment_of size_of headerSize_of] in *;
    cbn [Legacy_allocate] in H; apply bind_Ok_inv in H;
    destruct H as (v & s' & HA & HR); apply ret_Ok_inv in HR;
    destruct HR as [<- <-]; cbv zeta; unfold memory_after, allocation_result;
    cbn [headerSize_of size_of].
  - unfold Legacy.Allocate, bind, gets, ret in HA.
    destruct (Legacy.AllocateInternal _ _ _ _ s) as [q sm|e sm] eqn:HI;
      [|discriminate].
    unfold AllocateHeader_Inplace, modify in HA. inversion HA; subst; clear HA.
    apply Legacy_AllocateInternal_exact in HI; try assumption; try lia.
    cbv zeta in HI. destruct HI as (HP & -> & HS & ->).
    unfold set_memory; fields.
    rewrite (wrap_small (_ - sizeof_InplaceHeader policy))
      by (unfold sizeof_BoundGuardBack, sizeof_Offset in Hm;
          destruct (BoundsCheck policy); lia).
    repeat split; try lia; try assumption.
  - unfold Legacy.New, bind, gets, ret in HA.
    destruct (Legacy.AllocateInternal _ _ _ _ s) as [q sm|e sm] eqn:HI;
      [|discriminate].
    inversion HA; subst; clear HA.
    apply Legacy_AllocateInternal_exact in HI; try assumption; try lia.
    cbv zeta in HI. destruct HI as (HP & -> & HS & ->).
    repeat split; try lia; try assumption.
  - unfold Legacy.NewArray, bind, gets, ret in HA.
    destruct (Legacy.AllocateInternal _ _ _ _ s) as [q sm|e sm] eqn:HI;
      [|discriminate].
    inversion HA; subst; clear HA.
    apply Legacy_AllocateInternal_exact in HI; try assumption; try lia.
    cbv zeta in HI. destruct HI as (HP & -> & HS & ->).
    repeat split; try lia; try assumption.
  - unfold Legacy.AllocateArray, bind, gets, ret in HA.
    destruct (Legacy.AllocateInternal _ _ _ _ s) as [q sm|e sm] eqn:HI;
      [|discriminate].
    unfold AllocateHeader_Array, modify in HA. inversion HA; subst; clear HA.
    apply Legacy_AllocateInternal_exact in HI; try assumption; try lia.
    cbv zeta in HI. destruct HI as (HP & -> & HS & ->).
    unfold set_memory; fields.
    rewrite (wrap_small (_ - sizeof_StackArrayHeader))
      by (unfold sizeof_BoundGuardBack, sizeof_Offset in Hm;
          destruct (BoundsCheck policy); lia).
    repeat split; try lia; try assumption.
Qed.

Lemma allocate_arena policy (c : Allocation) s t s' :
  allocate policy c s = Ok t s' ->
  m_StartAddress s' = m_StartAddress s /\ m_EndAddress s' = m_EndAddress s /\
  m_TotalSize s' = m_TotalSize s.
Proof.
  intros H. destruct c; unfold_monad_in H; split_tests_in H;
    try discriminate; inversion H; subst; repeat split; reflexivity.
Qed.

Lemma allocate_all_arena policy (cs : list Allocation) :
  forall s ts s',
    allocate_all policy cs s = Ok ts s' ->
    m_StartAddress s' = m_StartAddress s /\ m_EndAddress s' = m_EndAddress s /\
    m_TotalSize s' = m_TotalSize s.
Proof.
  induction cs as [|c cs IH]; intros s ts s' H.
  - apply ret_Ok_inv in H. destruct H as [_ <-]. repeat split; reflexivity.
  - cbn [allocate_all] in H.
    apply bind_Ok_inv in H. destruct H as (t & s1 & Ht & H).
    apply bind_Ok_inv in H. destruct H as (ts' & s2 & Hts & H).
    apply ret_Ok_inv in H. destruct H as [_ <-].
    apply allocate_arena in Ht. apply IH in Hts.
    destruct Ht as (? & ? & ?), Hts as (? & ? & ?).
    repeat split; congruence.
Qed.

Lemma allocate_failure policy (c : Allocation) s e s' :
  allocate policy c s = Abort e s' \/ Legacy_allocate policy c s = Abort e s' ->
  s' = s /\ e = OutOfMemory /\ SizeCheck policy = true.
Proof.
  destruct policy as [sc bc stc nc oc mt].
  intros [H|H]; destruct c, sc, bc; unfold_monad_in H; flags;
    cbv beta iota in H; split_tests_in H; try discriminate;
    inversion H; subst; repeat split; reflexivity.
Qed.

(** ** The memory an allocation leaves *)

Lemma store_InplaceHeader_outside policy m a so eo x :
  x < a \/ a + sizeof_InplaceHeader policy <= x ->
  store_InplaceHeader m a (mkInplaceHeader policy so eo) x = m x.
Proof.
  unfold sizeof_InplaceHeader, mkInplaceHeader, sizeof_Offset.
  destruct (StackCheck policy); intros H; cbn [store_InplaceHeader];
    unfold sizeof_Offset; rewrite !store_Offset_outside by lia; reflexivity.
Qed.

Lemma store_StackArrayHeader_outside m a h x :
  x < a \/ a + sizeof_StackArrayHeader <= x ->
  store_StackArrayHeader m a h x = m x.
Proof.
  unfold store_StackArrayHeader, sizeof_StackArrayHeader, sizeof_Offset.
  intros H. rewrite !store_Offset_outside by lia. reflexivity.
Qed.

Lemma store_BoundGuardFront_outside m a g x :
  x < a \/ a + sizeof_BoundGuardFront <= x ->
  store_BoundGuardFront m a g x = m x.
Proof.
  unfold store_BoundGuardFront, sizeof_BoundGuardFront, sizeof_Offset.
  intros H. rewrite !store_Offset_outside by lia. reflexivity.
Qed.

Lemma store_BoundGuardBack_outside m a g x :
  x < a \/ a + sizeof_BoundGuardBack <= x ->
  store_BoundGuardBack m a g x = m x.
Proof.
  unfold store_BoundGuardBack, sizeof_BoundGuardBack, sizeof_Offset.
  intros H. rewrite !store_Offset_outside by lia. reflexivity.
Qed.

(** The header store of [memory_after] leaves the bytes outside
    [[p - hs, p)] as the guards left them. *)
Lemma memory_after_outside_header policy (c : Allocation) p eo s x :
  x < p - headerSize_of policy c \/ p <= x ->
  memory_after policy c p eo s x
  = (if BoundsCheck policy
     then store_BoundGuardBack
            (store_BoundGuardFront (memory s)
               (p - GetTotalHeaderSize policy (headerSize_of policy c))
               (mkBoundGuardFront (m_CurrentOffset s) (size_of c)))
            (p + size_of c) (mkBoundGuardBack (m_CurrentOffset s))
     else memory s) x.
Proof.
  intros H. unfold memory_after.
  destruct c; cbn [headerSize_of] in *; try reflexivity.
  - apply store_InplaceHeader_outside. lia.
  - apply store_StackArrayHeader_outside. lia.
Qed.

(** The bytes an allocation leaves alone: those outside its front guard,
    header and back guard. *)
Lemma memory_after_outside policy (c : Allocation) p eo s x :
  0 <= size_of c ->
  x < p - GetTotalHeaderSize policy (headerSize_of policy c) \/
  (p <= x < p + size_of c) \/
  p + size_of c + (if BoundsCheck policy then 8 else 0) <= x ->
  memory_after policy c p eo s x = memory s x.
Proof.
  intros Hz H.
  pose proof (headerSize_of_range policy c) as Hh.
  pose proof (GetTotalHeaderSize_cases policy (headerSize_of policy c)) as Hth.
  rewrite memory_after_outside_header
    by (destruct (BoundsCheck policy); lia).
  destruct (BoundsCheck policy); [|reflexivity].
  rewrite store_BoundGuardBack_outside
    by (unfold sizeof_BoundGuardBack, sizeof_Offset; lia).
  apply store_BoundGuardFront_outside.
  unfold sizeof_BoundGuardFront, sizeof_Offset. lia.
Qed.

Lemma memory_after_front_guard policy (c : Allocation) p eo s :
  BoundsCheck policy = true ->
  0 <= m_CurrentOffset s < modulus -> 0 <= size_of c < modulus ->
  load_BoundGuardFront (memory_after policy c p eo s)
    (p - headerSize_of policy c - sizeof_BoundGuardFront)
  = mkBoundGuardFront (m_CurrentOffset s) (size_of c).
Proof.
  intros HB Hc Hz.
  pose proof (headerSize_of_range policy c) as Hh.
  pose proof (GetTotalHeaderSize_cases policy (headerSize_of policy c)) as Hth.
  rewrite HB in Hth.
  unfold sizeof_BoundGuardFront, sizeof_Offset. change (2 * 8) with 16.
  rewrite (load_BoundGuardFront_ext _
             (store_BoundGuardFront (memory s)
                (p - headerSize_of policy c - 16)
                (mkBoundGuardFront (m_CurrentOffset s) (size_of c)))).
  - apply load_store_BoundGuardFront; assumption.
  - intros x Hx. unfold sizeof_BoundGuardFront, sizeof_Offset in Hx.
    rewrite memory_after_outside_header by lia.
    rewrite HB, Hth.
    rewrite store_BoundGuardBack_outside
      by (unfold sizeof_BoundGuardBack, sizeof_Offset; lia).
    replace (p - (headerSize_of policy c + 16))
      with (p - headerSize_of policy c - 16) by lia.
    reflexivity.
Qed.

Lemma memory_after_back_guard policy (c : Allocation) p eo s :
  BoundsCheck policy = true ->
  0 <= m_CurrentOffset s < modulus -> 0 <= size_of c ->
  load_BoundGuardBack (memory_after policy c p eo s) (p + size_of c)
  = mkBoundGuardBack (m_CurrentOffset s).
Proof.
  intros HB Hc Hz.
  pose proof (headerSize_of_range policy c) as Hh.
  unfold load_BoundGuardBack. f_equal.
  rewrite (load_Offset_ext _
             (store_Offset (store_BoundGuardFront (memory s)
                (p - GetTotalHeaderSize policy (headerSize_of policy c))
                (mkBoundGuardFront (m_CurrentOffset s) (size_of c)))
                (p + size_of c) (m_CurrentOffset s))).
  - apply load_store_Offset. assumption.
  - intros x Hx. rewrite memory_after_outside_header by lia.
    rewrite HB. reflexivity.
Qed.

Lemma memory_after_InplaceHeader policy size alignment p eo s :
  0 <= m_CurrentOffset s < modulus -> 0 <= eo < modulus ->
  load_InplaceHeader policy
    (memory_after policy (AllocateCall size alignment) p eo s)
    (p - sizeof_InplaceHeader policy)
  = mkInplaceHeader policy (m_CurrentOffset s) eo.
Proof.
  intros Hc He. unfold memory_after. cbn [headerSize_of].
  apply load_store_InplaceHeader; assumption.
Qed.

Lemma memory_after_StackArrayHeader policy n sz alignment p eo s :
  0 <= m_CurrentOffset s < modulus ->
  load_StackArrayHeader
    (memory_after policy (AllocateArrayCall n sz alignment) p eo s)
    (p - sizeof_StackArrayHeader)
  = mkStackArrayHeader (m_CurrentOffset s) (wrap n).
Proof.
  intros Hc. unfold memory_after. cbn [headerSize_of].
  unfold load_StackArrayHeader, store_StackArrayHeader.
  cbn [array_startOffset count].
  rewrite load_store_Offset_wrap.
  rewrite load_store_Offset_other by (unfold sizeof_Offset; lia).
  rewrite load_store_Offset by assumption. reflexivity.
Qed.

Lemma write_bytes_outside (bs : list Z) : forall (m : Memory) a x,
  x < a \/ a + Z.of_nat (length bs) <= x -> write_bytes m a bs x = m x.
Proof.
  induction bs as [|b bs IH]; intros m a x H; [reflexivity|].
  cbn [write_bytes]. cbn [length] in H. rewrite IH by lia.
  apply write_byte_other. lia.
Qed.

(** ** What a release reads of an allocation *)

(** What a release reads of an allocation whose header and front guard
    are in memory as the allocation left them. *)
Lemma reads_after_allocation policy (c : Allocation) s p eo s2 :
  within_address_space policy c s ->
  m_StartAddress s + m_CurrentOffset s
  + GetTotalHeaderSize policy (headerSize_of policy c) <= p ->
  p + size_of c + 8 <= modulus ->
  0 <= eo < modulus ->
  m_StartAddress s2 = m_StartAddress s ->
  (forall x, p - GetTotalHeaderSize policy (headerSize_of policy c) <= x < p ->
             memory s2 x = memory_after policy c p eo s x) ->
  let t := allocation_result c p (m_CurrentOffset s) eo in
  startOffset_at policy t s2 = m_CurrentOffset s /\
  (StackCheck policy = true ->
   endOffset_at policy t s2
   = if array_call c then p - m_StartAddress s + size_of c else eo) /\
  (BoundsCheck policy = true ->
   load_BoundGuardFront (memory s2)
     (wrap (addressMarker_of policy t - sizeof_BoundGuardFront))
   = mkBoundGuardFront (m_CurrentOffset s) (size_of c)).
Proof.
  intros (Ha & Hz & Hs & Hc & Hm) Hp Hpe He Est Hmem t.
  pose proof (headerSize_of_range policy c) as Hh.
  pose proof (GetTotalHeaderSize_cases policy (headerSize_of policy c)) as Hth.
  unfold sizeof_BoundGuardBack, sizeof_Offset in Hm.
  assert (Hcm : 0 <= m_CurrentOffset s < modulus)
    by (destruct (BoundsCheck policy); lia).
  assert (Hzm : 0 <= size_of c < modulus)
    by (destruct (BoundsCheck policy); lia).
  assert (Hfront : BoundsCheck policy = true ->
            load_BoundGuardFront (memory s2)
              (p - headerSize_of policy c - 16)
            = mkBoundGuardFront (m_CurrentOffset s) (size_of c)).
  { intros HB. rewrite HB in Hth.
    rewrite <- (memory_after_front_guard policy c p eo s HB Hcm Hzm).
    unfold sizeof_BoundGuardFront, sizeof_Offset. change (2 * 8) with 16.
    apply load_BoundGuardFront_ext. intros x Hx.
    unfold sizeof_BoundGuardFront, sizeof_Offset in Hx.
    apply Hmem. lia. }
  subst t. unfold sizeof_BoundGuardFront, sizeof_Offset.
  change (2 * 8) with 16.
  destruct c as [size al|sz al|n sz al|n sz al];
    cbn [alignment_of size_of headerSize_of array_call allocation_result
         startOffset_at endOffset_at addressMarker_of
         ptr header startOffset endOffset array_ptr array_header
         array_startOffset count] in *.
  - (* Allocate *)
    assert (Hw : wrap (p - sizeof_InplaceHeader policy)
                 = p - sizeof_InplaceHeader policy)
      by (apply wrap_small; destruct (BoundsCheck policy); lia).
    rewrite Hw.
    assert (E : load_InplaceHeader policy (memory s2)
                  (p - sizeof_InplaceHeader policy)
                = mkInplaceHeader policy (m_CurrentOffset s) eo).
    { rewrite <- (memory_after_InplaceHeader policy size al p eo s Hcm He).
      apply load_InplaceHeader_ext. intros x Hx. apply Hmem.
      destruct (BoundsCheck policy); lia. }
    rewrite E. split; [apply header_startOffset_mkInplaceHeader|].
    split.
    + intros HS. now apply header_endOffset_mkInplaceHeader.
    + intros HB. rewrite HB in Hth.
      rewrite wrap_small by lia. now apply Hfront.
  - (* New *)
    split; [reflexivity|]. split; [reflexivity|].
    intros HB. rewrite HB in Hth. rewrite wrap_small by lia.
    rewrite <- (Hfront HB). f_equal. lia.
  - (* NewArray *)
    split; [reflexivity|]. split.
    + intros _. rewrite Est. pose proof (wrap_range (n * sz)).
      apply GetArrayEndOffset_within; destruct (BoundsCheck policy); lia.
    + intros HB. rewrite HB in Hth. rewrite wrap_small by lia.
      rewrite <- (Hfront HB). f_equal. lia.
  - (* AllocateArray *)
    assert (Hw : wrap (p - sizeof_StackArrayHeader)
                 = p - sizeof_StackArrayHeader)
      by (apply wrap_small; destruct (BoundsCheck policy); lia).
    rewrite Hw.
    assert (E : load_StackArrayHeader (memory s2)
                  (p - sizeof_StackArrayHeader)
                = mkStackArrayHeader (m_CurrentOffset s) (wrap n)).
    { rewrite <- (memory_after_StackArrayHeader policy n sz al p eo s Hcm).
      unfold load_StackArrayHeader.
      unfold sizeof_StackArrayHeader, sizeof_Offset in *.
      rewrite (load_Offset_ext (memory s2)
                 (memory_after policy (AllocateArrayCall n sz al) p eo s)
                 (p - 2 * 8)),
              (load_Offset_ext (memory s2)
                 (memory_after policy (AllocateArrayCall n sz al) p eo s)
                 (p - 2 * 8 + 8));
        [reflexivity | |]; intros x Hx; apply Hmem;
        destruct (BoundsCheck policy); lia. }
    rewrite E. cbn [array_startOffset count].
    split; [reflexivity|]. split.
    + intros _. rewrite Est. unfold GetArrayEndOffset. cbv zeta.
      rewrite wrap_mul_l. pose proof (wrap_range (n * sz)).
      rewrite (wrap_small (p - m_StartAddress s))
        by (destruct (BoundsCheck policy); lia).
      apply wrap_small. destruct (BoundsCheck policy); lia.
    + intros HB. rewrite HB in Hth.
      unfold sizeof_StackArrayHeader, sizeof_Offset in *.
      rewrite wrap_small by lia. now apply Hfront.
Qed.

(** The checks on the release of an allocation made within the address
    space, in any state that has kept the arena and the bytes of the
    allocation's header and front guard, provided the pointer is not null,
    the allocator owns it, and the current offset is where the stack check
    expects it: the release is decided by the back guard. *)
Lemma release_checks_after_allocate policy (c : Allocation) s t s1 s2 :
  within_address_space policy c s ->
  allocate policy c s = Ok t s1 ->
  m_StartAddress s2 = m_StartAddress s ->
  m_EndAddress s2 = m_EndAddress s ->
  (forall x,
      payload t - GetTotalHeaderSize policy (headerSize_of policy c) <= x
      < payload t ->
      memory s2 x = memory s1 x) ->
  (NullCheck policy = true -> 0 < m_StartAddress s) ->
  (OwnershipCheck policy = true -> payload t <= m_EndAddress s) ->
  startOffset_at policy t s2 = m_CurrentOffset s /\
  release_checks policy t s2
  = if StackCheck policy
       && negb (m_CurrentOffset s1
                - (if array_call c && BoundsCheck policy
                   then sizeof_BoundGuardBack else 0)
                =? m_CurrentOffset s2)
    then Some OutOfOrderDeallocation
    else if BoundsCheck policy
            && negb (load_Offset (memory s2) (payload t + size_of c)
                     =? m_CurrentOffset s)
    then Some CorruptionDetected else None.
Proof.
  intros Hw Ha Est Een Hmem Hnull Hown.
  pose proof (allocate_exact policy c s t s1 Hw Ha) as HX. cbv zeta in HX.
  destruct HX as (HP & HS & -> & ->).
  rewrite payload_allocation_result in *. fields_in Hmem. fields.
  set (P := padding_at policy (headerSize_of policy c) (alignment_of c) s) in *.
  set (p := m_StartAddress s + m_CurrentOffset s + P) in *.
  set (eo := m_CurrentOffset s + P + size_of c
             + (if BoundsCheck policy then 8 else 0)) in *.
  set (ths := GetTotalHeaderSize policy (headerSize_of policy c)) in *.
  pose proof (headerSize_of_range policy c) as Hh.
  pose proof (GetTotalHeaderSize_cases policy (headerSize_of policy c)) as Hth.
  fold ths in Hth.
  pose proof Hw as (Hal & Hz & Hs & Hc & Hm).
  unfold sizeof_BoundGuardBack, sizeof_Offset in Hm. fold ths in Hm.
  assert (Hths : 0 <= ths) by (destruct (BoundsCheck policy); lia).
  assert (Heo : 0 <= eo < modulus)
    by (subst eo; destruct (BoundsCheck policy); lia).
  destruct (reads_after_allocation policy c s p eo s2 Hw) as (Eso & Eeo & Efg);
    try assumption; try (fold ths; subst p; lia).
  split; [exact Eso|].
  unfold release_checks. rewrite payload_allocation_result.
  assert (E1 : NullCheck policy && (p =? 0) = false).
  { destruct (NullCheck policy); [|reflexivity]. cbn [andb].
    apply Z.eqb_neq. specialize (Hnull eq_refl). subst p. lia. }
  rewrite E1.
  assert (E2 : OwnershipCheck policy && negb (Allocators.OwnsAddress p s2)
               = false).
  { destruct (OwnershipCheck policy); [|reflexivity]. cbn [andb].
    apply negb_false_iff. apply OwnsAddress_closed_range.
    rewrite Est, Een. specialize (Hown eq_refl). subst p. lia. }
  rewrite E2.
  match goal with
  | |- (if ?a then _ else _) = (if ?b then _ else _) =>
      assert (E3 : a = b);
      [|rewrite E3; destruct b; [reflexivity|]]
  end.
  { destruct (StackCheck policy); [|reflexivity]. cbn [andb].
    rewrite (Eeo eq_refl). subst eo p.
    unfold sizeof_BoundGuardBack, sizeof_Offset.
    destruct (array_call c), (BoundsCheck policy); cbn [andb];
      apply f_equal;
      apply (f_equal (fun z => z =? m_CurrentOffset s2)); lia. }
  destruct (BoundsCheck policy) eqn:HB; [|reflexivity]. cbn [andb].
  unfold guards_match. cbv zeta.
  rewrite payload_allocation_result, (Efg eq_refl), Eso.
  cbn [front_offset allocationSize]. rewrite Z.eqb_refl. cbn [andb].
  rewrite (wrap_small (p + size_of c)) by (subst p; lia).
  reflexivity.
Qed.

(** The release passes every check when the back guard too is in memory
    as the allocation left it. *)
Lemma release_after_allocate policy (c : Allocation) s t s1 s2 :
  within_address_space policy c s ->
  allocate policy c s = Ok t s1 ->
  m_StartAddress s2 = m_StartAddress s ->
  m_EndAddress s2 = m_EndAddress s ->
  (forall x,
      payload t - GetTotalHeaderSize policy (headerSize_of policy c) <= x
      < payload t \/
      payload t + size_of c <= x < m_StartAddress s + m_CurrentOffset s1 ->
      memory s2 x = memory s1 x) ->
  (NullCheck policy = true -> 0 < m_StartAddress s) ->
  (OwnershipCheck policy = true -> payload t <= m_EndAddress s) ->
  (StackCheck policy = true ->
   m_CurrentOffset s2
   = m_CurrentOffset s1
     - (if array_call c && BoundsCheck policy then sizeof_BoundGuardBack
        else 0)) ->
  release policy t s2 = Ok tt (rolled_back (m_CurrentOffset s) s2).
Proof.
  intros Hw Ha Est Een Hmem Hnull Hown Hstack.
  destruct (release_checks_after_allocate policy c s t s1 s2 Hw Ha Est Een)
    as [Eso E]; try assumption.
  { intros x Hx. apply Hmem. left. exact Hx. }
  rewrite release_normal_form, E, Eso.
  assert (ES : StackCheck policy
               && negb (m_CurrentOffset s1
                        - (if array_call c && BoundsCheck policy
                           then sizeof_BoundGuardBack else 0)
                        =? m_CurrentOffset s2) = false).
  { destruct (StackCheck policy); [|reflexivity]. cbn [andb].
    rewrite (Hstack eq_refl), Z.eqb_refl. reflexivity. }
  rewrite ES.
  destruct (BoundsCheck policy) eqn:HB; [|reflexivity]. cbn [andb].
  pose proof (allocate_exact policy c s t s1 Hw Ha) as HX. cbv zeta in HX.
  destruct HX as (HP & HS & -> & ->).
  rewrite payload_allocation_result in *. fields_in Hmem.
  set (P := padding_at policy (headerSize_of policy c) (alignment_of c) s) in *.
  set (p := m_StartAddress s + m_CurrentOffset s + P) in *.
  set (eo := m_CurrentOffset s + P + size_of c
             + (if BoundsCheck policy then 8 else 0)) in *.
  destruct Hw as (Hal & Hz & Hs & Hc & Hm).
  pose proof (headerSize_of_range policy c) as Hh.
  pose proof (GetTotalHeaderSize_cases policy (headerSize_of policy c)) as Hth.
  unfold sizeof_BoundGuardBack, sizeof_Offset in Hm.
  assert (Eb : load_Offset (memory s2) (p + size_of c) = m_CurrentOffset s).
  { assert (Hcm : 0 <= m_CurrentOffset s < modulus)
      by (rewrite HB in Hth; lia).
    pose proof (memory_after_back_guard policy c p eo s HB Hcm Hz) as Eb.
    apply (f_equal back_offset) in Eb.
    unfold load_BoundGuardBack in Eb. cbn [back_offset] in Eb.
    rewrite <- Eb.
    apply load_Offset_ext. intros x Hx. apply Hmem. right.
    subst eo. rewrite HB. lia. }
  rewrite Eb, Z.eqb_refl. reflexivity.
Qed.

(** The same for the allocator of [Source/StackAllocator]: its stack
    check expects the current offset right after the allocation, for
    arrays too, and its guard check reads the front guard only. *)
Lemma Legacy_release_after_allocate policy (c : Allocation) s t s1 s2 :
  within_address_space policy c s ->
  Legacy_allocate policy c s = Ok t s1 ->
  m_StartAddress s2 = m_StartAddress s ->
  m_EndAddress s2 = m_EndAddress s ->
  (forall x,
      payload t - GetTotalHeaderSize policy (headerSize_of policy c) <= x
      < payload t ->
      memory s2 x = memory s1 x) ->
  (NullCheck policy = true -> 0 < m_StartAddress s) ->
  (OwnershipCheck policy = true -> payload t < m_EndAddress s) ->
  (StackCheck policy = true -> m_CurrentOffset s2 = m_CurrentOffset s1) ->
  Legacy_release policy t s2 = Ok tt (rolled_back (m_CurrentOffset s) s2).
Proof.
  intros Hw Ha Est Een Hmem Hnull Hown Hstack.
  pose proof (Legacy_allocate_exact policy c s t s1 Hw Ha) as HX.
  cbv zeta in HX. destruct HX as (HP & HS & -> & ->).
  rewrite payload_allocation_result in *. fields_in Hmem. fields_in Hstack.
  set (P := padding_at policy (headerSize_of policy c) (alignment_of c) s) in *.
  set (p := m_StartAddress s + m_CurrentOffset s + P) in *.
  set (eo := m_CurrentOffset s + P + size_of c) in *.
  set (ths := GetTotalHeaderSize policy (headerSize_of policy c)) in *.
  pose proof (headerSize_of_range policy c) as Hh.
  pose proof (GetTotalHeaderSize_cases policy (headerSize_of policy c)) as Hth.
  fold ths in Hth.
  pose proof Hw as (Hal & Hz & Hs & Hc & Hm).
  unfold sizeof_BoundGuardBack, sizeof_Offset in Hm. fold ths in Hm.
  assert (Hths : 0 <= ths) by (destruct (BoundsCheck policy); lia).
  assert (Heo : 0 <= eo < modulus) by (subst eo; lia).
  destruct (reads_after_allocation policy c s p eo s2 Hw) as (Eso & Eeo & Efg);
    try assumption; try (fold ths; subst p; lia).
  rewrite Legacy_release_normal_form. rewrite Eso.
  assert (E : Legacy_release_checks policy
                (allocation_result c p (m_CurrentOffset s) eo) s2 = None);
    [|now rewrite E].
  unfold Legacy_release_checks. rewrite payload_allocation_result.
  assert (E1 : NullCheck policy && (p =? 0) = false).
  { destruct (NullCheck policy); [|reflexivity]. cbn [andb].
    apply Z.eqb_neq. specialize (Hnull eq_refl). subst p. lia. }
  rewrite E1.
  assert (E2 : OwnershipCheck policy && negb (Legacy.OwnsAddress p s2)
               = false).
  { destruct (OwnershipCheck policy); [|reflexivity]. cbn [andb].
    apply negb_false_iff. unfold Legacy.OwnsAddress.
    rewrite Est, Een. specialize (Hown eq_refl).
    apply andb_true_iff. rewrite Z.leb_le, Z.ltb_lt. subst p. lia. }
  rewrite E2.
  assert (E3 : StackCheck policy
               && negb (endOffset_at policy
                          (allocation_result c p (m_CurrentOffset s) eo) s2
                        =? m_CurrentOffset s2) = false).
  { destruct (StackCheck policy); [|reflexivity]. cbn [andb].
    apply negb_false_iff, Z.eqb_eq.
    rewrite (Eeo eq_refl), (Hstack eq_refl). subst eo p.
    destruct (array_call c); lia. }
  rewrite E3.
  assert (E4 : BoundsCheck policy
               && negb (Legacy_guards_match policy
                          (allocation_result c p (m_CurrentOffset s) eo) s2) = false).
  { destruct (BoundsCheck policy) eqn:HB; [|reflexivity]. cbn [andb].
    apply negb_false_iff. unfold Legacy_guards_match. cbv zeta.
    pose proof (f_equal front_offset (Efg eq_refl)) as E5.
    unfold load_BoundGuardFront in E5. cbn [front_offset] in E5.
    unfold load_BoundGuardFront, load_BoundGuardBack.
    cbn [front_offset back_offset].
    rewrite E5, Eso, Z.eqb_refl. reflexivity. }
  rewrite E4. reflexivity.
Qed.

Lemma release_all_snoc policy (ts : list Allocated) (t : Allocated) :
  forall s sm s',
    release_all policy ts s = Ok tt sm ->
    release policy t sm = Ok tt s' ->
    release_all policy (ts ++ [t]) s = Ok tt s'.
Proof.
  induction ts as [|u ts IH]; intros s sm s' Hts Ht.
  - apply ret_Ok_inv in Hts. destruct Hts as [_ <-].
    cbn [app release_all]. unfold bind. now rewrite Ht.
  - cbn [app release_all] in *.
    apply bind_Ok_inv in Hts. destruct Hts as ([] & s1 & Hu & Hts).
    unfold bind. rewrite Hu. now apply (IH s1 sm s').
Qed.

Lemma release_all_arena policy (ts : list Allocated) :
  forall s s',
    release_all policy ts s = Ok tt s' ->
    memory s' = memory s /\ m_StartAddress s' = m_StartAddress s /\
    m_EndAddress s' = m_EndAddress s.
Proof.
  induction ts as [|t ts IH]; intros s s' H.
  - apply ret_Ok_inv in H. destruct H as [_ <-]. repeat split; reflexivity.
  - cbn [release_all] in H.
    apply bind_Ok_inv in H. destruct H as ([] & s1 & Ht & H).
    apply release_Ok_inv in Ht. destruct Ht as [_ ->].
    apply IH in H. exact H.
Qed.

(** ** Releasing what was allocated *)

(** X1.  In the allocator of [Source/Allocators], the release of the
    allocation just made passes every check of every policy and returns
    the current offset and the used size to where they were before the
    allocation, whatever the caller has written into the payload in
    between; the array calls under [StackCheck] with [BoundsCheck] are
    left out.  The arena starts above address 0, as [NullCheck] wants, and
    the payload is owned. *)
Theorem release_right_after_allocate policy (c : Allocation) s t s1
  (m' : Memory) :
  within_address_space policy c s ->
  allocate policy c s = Ok t s1 ->
  0 < m_StartAddress s ->
  payload t <= m_EndAddress s ->
  StackCheck policy && BoundsCheck policy && array_call c = false ->
  (forall x, ~ (payload t <= x < payload t + size_of c) ->
             m' x = memory s1 x) ->
  exists s2,
    release policy t (set_memory m' s1) = Ok tt s2 /\
    m_CurrentOffset s2 = m_CurrentOffset s /\
    GetUsedSize s2 = m_CurrentOffset s.
Proof.
  intros Hw Ha Hstart Hend Hpol Hmem.
  destruct (allocate_arena policy c s t s1 Ha) as (Est & Een & _).
  pose proof (headerSize_of_range policy c) as Hh.
  pose proof (GetTotalHeaderSize_cases policy (headerSize_of policy c)) as Hth.
  pose proof Hw as (_ & Hz & _).
  eexists. split.
  - apply (release_after_allocate policy c s t s1 (set_memory m' s1) Hw Ha);
      fields; try assumption; try (intros _; assumption).
    + intros x Hx. apply Hmem. destruct (BoundsCheck policy); lia.
    + intros HS. rewrite HS in Hpol.
      replace (array_call c && BoundsCheck policy) with false; [lia|].
      destruct (BoundsCheck policy), (array_call c); auto.
  - split; reflexivity.
Qed.

Lemma release_right_after_allocate_witness :
  let s := construct 4096 64 (fun _ => 0) in
  let s1 := state_of (allocate Default (AllocateCall 8 8) s) in
  let m' := write_bytes (memory s1) 4128 [1; 2; 3; 4; 5; 6; 7; 8] in
  exists s2,
    release Default (RawPointer 4128) (set_memory m' s1) = Ok tt s2 /\
    m_CurrentOffset s2 = 0 /\ GetUsedSize s2 = 0.
Proof.
  cbv zeta.
  apply (release_right_after_allocate Default (AllocateCall 8 8)
           (construct 4096 64 (fun _ => 0)) (RawPointer 4128)).
  - vm_compute. repeat split; try reflexivity; discriminate.
  - vm_compute. reflexivity.
  - reflexivity.
  - vm_compute. discriminate.
  - reflexivity.
  - intros x Hx. cbn [payload size_of] in Hx.
    apply write_bytes_outside. cbn [length]. lia.
Defined.

(** X2.  Last in, first out: after any run of allocations in the allocator
    of [Source/Allocators], releasing all of them, the most recent first,
    passes every check and brings the current offset back to where the run
    began.  The arena starts above address 0 and owns every payload;
    under [StackCheck] with [BoundsCheck] the run holds no array call. *)
Theorem LIFO_releases_pass_every_check policy (cs : list Allocation) :
  forall s ts s1,
    in_address_space policy cs s ->
    allocate_all policy cs s = Ok ts s1 ->
    0 < m_StartAddress s ->
    Forall (fun t => payload t <= m_EndAddress s) ts ->
    (StackCheck policy && BoundsCheck policy = true ->
     forallb (fun c => negb (array_call c)) cs = true) ->
    exists s2,
      release_all policy ts s1 = Ok tt s2 /\
      m_CurrentOffset s2 = m_CurrentOffset s.
Proof.
  induction cs as [|c cs IH]; intros s ts s1 Hin Ha Hstart Hown Harr.
  - apply ret_Ok_inv in Ha. destruct Ha as [<- <-].
    exists s. split; reflexivity.
  - cbn [allocate_all] in Ha. cbn [in_address_space] in Hin.
    destruct Hin as [Hc Hin].
    apply bind_Ok_inv in Ha. destruct Ha as (t & sa & Ht & Ha).
    apply bind_Ok_inv in Ha. destruct Ha as (ts' & sb & Hts & Ha).
    apply ret_Ok_inv in Ha. destruct Ha as [<- <-].
    rewrite Ht in Hin.
    apply Forall_app in Hown. destruct Hown as [Hown Hown_t].
    inversion Hown_t as [|? ? Hend _]; subst.
    destruct (allocate_arena policy c s t sa Ht) as (Est & Een & _).
    destruct (allocate_all_frame policy cs sa ts' sb Hin Hts)
      as (_ & _ & Hfr).
    destruct (IH sa ts' sb Hin Hts) as (sm & Hrel & Hcur).
    + rewrite Est. exact Hstart.
    + rewrite Een. exact Hown.
    + intros HP. specialize (Harr HP). cbn [forallb] in Harr.
      apply andb_true_iff in Harr. apply Harr.
    + destruct (release_all_arena policy ts' sb sm Hrel) as (Em & Es & Ee).
      destruct (allocate_all_arena policy cs sa ts' sb Hts) as (Es' & Ee' & _).
      pose proof (allocate_exact policy c s t sa Hc Ht) as HX.
      cbv zeta in HX. destruct HX as (HP & _ & Et & Esa).
      pose proof Hc as (_ & Hz & _).
      pose proof (headerSize_of_range policy c) as Hh.
      pose proof (GetTotalHeaderSize_cases policy (headerSize_of policy c))
        as Hth.
      assert (Hp : payload t + size_of c
                   <= m_StartAddress s + m_CurrentOffset sa).
      { rewrite Et, Esa, payload_allocation_result. fields.
        destruct (BoundsCheck policy); lia. }
      eexists. split.
      * apply (release_all_snoc policy ts' t sb sm _ Hrel).
        apply (release_after_allocate policy c s t sa sm Hc Ht);
          try congruence; try (intros _; assumption).
        -- intros x Hx. rewrite Em. apply Hfr. rewrite Est.
           destruct (BoundsCheck policy); lia.
        -- intros HS. rewrite Hcur.
           destruct (BoundsCheck policy) eqn:HB.
           ++ rewrite HS in Harr. specialize (Harr eq_refl).
              cbn [forallb] in Harr. apply andb_true_iff in Harr.
              destruct Harr as [Harr _]. apply negb_true_iff in Harr.
              rewrite Harr. cbn [andb]. lia.
           ++ rewrite andb_false_r. lia.
      * reflexivity.
Qed.

Lemma LIFO_releases_pass_every_check_witness :
  let cs := [AllocateCall 8 8; NewCall 12 4; AllocateCall 3 1] in
  let s := construct 4096 1024 (fun _ => 0) in
  exists s2,
    (ts <- allocate_all Default cs ;; release_all Default ts) s = Ok tt s2 /\
    m_CurrentOffset s2 = 0.
Proof.
  cbv zeta.
  destruct (LIFO_releases_pass_every_check Default
              [AllocateCall 8 8; NewCall 12 4; AllocateCall 3 1]
              (construct 4096 1024 (fun _ => 0))
              [RawPointer 4212;
               ObjectHandle (mkStackPtr 4160 (mkStackHeader 48 84));
               RawPointer 4128]
              (state_of (allocate_all Default
                           [AllocateCall 8 8; NewCall 12 4; AllocateCall 3 1]
                           (construct 4096 1024 (fun _ => 0)))))
    as (s2 & Hr & Hc).
  - vm_compute. repeat split; try reflexivity; discriminate.
  - vm_compute. reflexivity.
  - reflexivity.
  - repeat constructor; vm_compute; discriminate.
  - reflexivity.
  - exists s2. split; [|exact Hc].
    unfold bind.
    replace (allocate_all Default
               [AllocateCall 8 8; NewCall 12 4; AllocateCall 3 1]
               (construct 4096 1024 (fun _ => 0)))
      with (Ok [RawPointer 4212;
                ObjectHandle (mkStackPtr 4160 (mkStackHeader 48 84));
                RawPointer 4128]
              (state_of (allocate_all Default
                           [AllocateCall 8 8; NewCall 12 4; AllocateCall 3 1]
                           (construct 4096 1024 (fun _ => 0)))))
      by (vm_compute; reflexivity).
    exact Hr.
Defined.

(** X3.  Without [StackCheck], an allocation can be released after later
    allocations have been made: the release succeeds and rolls the current
    offset back to the start of that allocation, so that every allocation
    made after it is freed with it.  This is for an allocation and later
    allocations that lie within the address space (no address or offset
    computed for them wraps around), in an arena that starts above
    address 0 and with the payload at or below the end address, so that
    the pointer checks pass. *)
Theorem release_without_StackCheck_frees_later_allocations policy
  (c : Allocation) (cs : list Allocation) s t s1 ts s2 :
  StackCheck policy = false ->
  within_address_space policy c s ->
  allocate policy c s = Ok t s1 ->
  in_address_space policy cs s1 ->
  allocate_all policy cs s1 = Ok ts s2 ->
  0 < m_StartAddress s ->
  payload t <= m_EndAddress s ->
  exists s3,
    release policy t s2 = Ok tt s3 /\
    m_CurrentOffset s3 = m_CurrentOffset s /\
    GetUsedSize s3 = m_CurrentOffset s.
Proof.
  intros HS Hw Ha Hin Hall Hstart Hend.
  destruct (allocate_arena policy c s t s1 Ha) as (Est & Een & _).
  destruct (allocate_all_arena policy cs s1 ts s2 Hall) as (Est2 & Een2 & _).
  destruct (allocate_all_frame policy cs s1 ts s2 Hin Hall) as (_ & _ & Hfr).
  pose proof (allocate_exact policy c s t s1 Hw Ha) as HX. cbv zeta in HX.
  destruct HX as (HP & _ & Et & Es1).
  pose proof (headerSize_of_range policy c) as Hh.
  pose proof (GetTotalHeaderSize_cases policy (headerSize_of policy c)) as Hth.
  pose proof Hw as (_ & Hz & _).
  assert (Hp : payload t + size_of c <= m_StartAddress s1 + m_CurrentOffset s1).
  { rewrite Et, Es1, payload_allocation_result. fields.
    destruct (BoundsCheck policy); lia. }
  eexists. split.
  - apply (release_after_allocate policy c s t s1 s2 Hw Ha);
      try congruence; try (intros _; assumption).
    intros x Hx. apply Hfr. rewrite Est in *.
    destruct (BoundsCheck policy); lia.
  - split; reflexivity.
Qed.

Lemma release_without_StackCheck_frees_later_allocations_witness :
  let policy := mkPolicy true true false true true false in
  let s := construct 4096 256 (fun _ => 0) in
  let s1 := state_of (allocate policy (AllocateCall 8 8) s) in
  let s2 := state_of (allocate_all policy [NewCall 8 8; NewArrayCall 2 4 4] s1) in
  exists s3,
    release policy (RawPointer 4120) s2 = Ok tt s3 /\
    m_CurrentOffset s3 = 0 /\ GetUsedSize s3 = 0.
Proof.
  cbv zeta.
  eapply (release_without_StackCheck_frees_later_allocations
            (mkPolicy true true false true true false) (AllocateCall 8 8)
            [NewCall 8 8; NewArrayCall 2 4 4]
            (construct 4096 256 (fun _ => 0)) (RawPointer 4120)).
  - reflexivity.
  - vm_compute. repeat split; try reflexivity; discriminate.
  - vm_compute. reflexivity.
  - vm_compute. repeat split; try reflexivity; discriminate.
  - vm_compute. reflexivity.
  - reflexivity.
  - vm_compute. discriminate.
Defined.

(** X4.  After an allocation has been released, the same call returns the
    same pointer and the same handle again, and leaves the current offset
    where the first allocation left it: the memory is reused. *)
Theorem allocate_after_release_reuses policy (c : Allocation) s t s1 s2 :
  within_address_space policy c s ->
  allocate policy c s = Ok t s1 ->
  release policy t s1 = Ok tt s2 ->
  exists s3,
    allocate policy c s2 = Ok t s3 /\
    m_CurrentOffset s3 = m_CurrentOffset s1.
Proof.
  intros Hw Ha Hr.
  destruct (allocate_within policy c s t s1 Hw Ha) as (Est & _ & _ & Hback).
  destruct (Hback s1 s2 Est (fun x _ => eq_refl) Hr) as [Hcur _].
  destruct (allocate_arena policy c s t s1 Ha) as (_ & _ & Etot).
  pose proof (release_total_size policy t s1 s2 Hr) as Etot2.
  destruct (release_memory policy t s1 s2 Hr) as [_ Est2].
  assert (Hpos : same_position s s2).
  { unfold same_position. repeat split; congruence. }
  pose proof (allocate_same_position policy c s s2 Hpos) as H.
  rewrite Ha in H.
  destruct (allocate policy c s2) as [w s3|e s3]; [|contradiction].
  destruct H as [<- (_ & Ec & _)].
  exists s3. split; [reflexivity | congruence].
Qed.

Lemma allocate_after_release_reuses_witness :
  let s := construct 4096 64 (fun _ => 0) in
  let c := AllocateCall 8 8 in
  let s2 := state_of ((t <- allocate Default c ;; release Default t) s) in
  exists s3,
    allocate Default c s2 = Ok (RawPointer 4128) s3 /\
    m_CurrentOffset s3 = 48.
Proof.
  cbv zeta.
  apply (allocate_after_release_reuses Default (AllocateCall 8 8)
           (construct 4096 64 (fun _ => 0)) (RawPointer 4128)
           (state_of (allocate Default (AllocateCall 8 8)
                        (construct 4096 64 (fun _ => 0))))).
  - vm_compute. repeat split; try reflexivity; discriminate.
  - vm_compute. reflexivity.
  - vm_compute. reflexivity.
Defined.

(** X5.  In the allocator of [Source/StackAllocator], the release of the
    allocation just made passes every check of every policy, arrays
    included, and returns the current offset and the used size to where
    they were, whatever the caller has written at the payload and above
    it. *)
Theorem Legacy_release_right_after_allocate policy (c : Allocation) s t s1
  (m' : Memory) :
  within_address_space policy c s ->
  Legacy_allocate policy c s = Ok t s1 ->
  0 < m_StartAddress s ->
  payload t < m_EndAddress s ->
  (forall x, x < payload t -> m' x = memory s1 x) ->
  exists s2,
    Legacy_release policy t (set_memory m' s1) = Ok tt s2 /\
    m_CurrentOffset s2 = m_CurrentOffset s /\
    GetUsedSize s2 = m_CurrentOffset s.
Proof.
  intros Hw Ha Hstart Hend Hmem.
  pose proof (Legacy_allocate_exact policy c s t s1 Hw Ha) as HX.
  cbv zeta in HX. destruct HX as (_ & _ & _ & Es1).
  eexists. split.
  - apply (Legacy_release_after_allocate policy c s t s1 (set_memory m' s1)
             Hw Ha);
      fields; try (rewrite Es1; reflexivity); try (intros _; assumption);
      try reflexivity.
    intros x Hx. apply Hmem. lia.
  - split; reflexivity.
Qed.

Lemma Legacy_release_right_after_allocate_witness :
  let s := construct 4096 1024 (fun _ => 0) in
  let c := NewArrayCall 5 4 4 in
  let s1 := state_of (Legacy_allocate Default c s) in
  let m' := write_bytes (memory s1) 4112 [255; 255; 255; 255; 255; 255; 255;
                                          255; 255; 255; 255; 255; 255; 255;
                                          255; 255; 255; 255; 255; 255; 255;
                                          255; 255; 255; 255; 255; 255; 255] in
  exists s2,
    Legacy_release Default
      (ArrayHandle (mkStackArrayPtr 4112 (mkStackArrayHeader 0 5)) 4)
      (set_memory m' s1) = Ok tt s2 /\
    m_CurrentOffset s2 = 0 /\ GetUsedSize s2 = 0.
Proof.
  cbv zeta.
  apply (Legacy_release_right_after_allocate Default (NewArrayCall 5 4 4)
           (construct 4096 1024 (fun _ => 0))).
  - vm_compute. repeat split; try reflexivity; discriminate.
  - vm_compute. reflexivity.
  - reflexivity.
  - vm_compute. reflexivity.
  - intros x Hx. cbn [payload array_ptr] in Hx.
    apply write_bytes_outside. lia.
Defined.

Lemma Templated_NewRaw_allocate policy sizeofObject alignofObject s p s1 :
  Templated.NewRaw policy sizeofObject alignofObject s = Ok p s1 ->
  allocate policy (AllocateCall sizeofObject alignofObject) s
  = Ok (RawPointer p) s1.
Proof.
  unfold Templated.NewRaw, Allocators.NewRaw, Allocators.Allocate_Object.
  cbn [allocate]. unfold bind, ret.
  destruct (Allocators.Allocate policy sizeofObject alignofObject s);
    intros H; inversion H; reflexivity.
Qed.

(** X6.  [StackAllocatorTemplated]: [Delete] of the pointer that [NewRaw]
    has just returned passes every check of every policy, and
    [GetUsedSize ()] and the current offset are back where they were
    before [NewRaw]. *)
Theorem Templated_NewRaw_then_Delete policy sizeofObject alignofObject
  s p s1 :
  within_address_space policy (AllocateCall sizeofObject alignofObject) s ->
  Templated.NewRaw policy sizeofObject alignofObject s = Ok p s1 ->
  0 < m_StartAddress s ->
  p <= m_EndAddress s ->
  exists s2,
    Templated.Delete policy p s1 = Ok tt s2 /\
    Templated.GetUsedSize s2 = m_CurrentOffset s /\
    m_CurrentOffset s2 = m_CurrentOffset s.
Proof.
  intros Hw Hn Hstart Hend.
  apply Templated_NewRaw_allocate in Hn.
  destruct (allocate_arena policy _ s _ s1 Hn) as (Est & Een & _).
  eexists. split.
  - change (Templated.Delete policy p s1) with (release policy (RawPointer p) s1).
    apply (release_after_allocate policy _ s _ s1 s1 Hw Hn);
      try assumption; try (intros _; assumption).
    + intros x _. reflexivity.
    + intros _. cbn [array_call andb]. lia.
  - split; reflexivity.
Qed.

Lemma Templated_NewRaw_then_Delete_witness :
  let s := state_of (Templated.New Default 32 8
                       (construct 4096 256 (fun _ => 0))) in
  exists s2,
    Templated.Delete Default 4184
      (state_of (Templated.NewRaw Default 32 8 s)) = Ok tt s2 /\
    Templated.GetUsedSize s2 = m_CurrentOffset s /\
    m_CurrentOffset s2 = m_CurrentOffset s.
Proof.
  cbv zeta.
  apply (Templated_NewRaw_then_Delete Default 32 8).
  - vm_compute. repeat split; try reflexivity; discriminate.
  - vm_compute. reflexivity.
  - vm_compute. reflexivity.
  - vm_compute. discriminate.
Defined.

(** ** Releases that are refused *)

(** X7.  Under [NullCheck], every release of a null pointer, raw or in a
    handle, aborts with [NullPointerDeallocation] and leaves the
    allocator as it was, in both allocators; no other check is made
    before this one. *)
Theorem release_of_null_pointer policy (t : Allocated) s :
  NullCheck policy = true ->
  payload t = 0 ->
  release policy t s = Abort NullPointerDeallocation s /\
  Legacy_release policy t s = Abort NullPointerDeallocation s.
Proof.
  intros HN H0.
  rewrite release_normal_form, Legacy_release_normal_form.
  unfold release_checks, Legacy_release_checks.
  rewrite HN, H0. split; reflexivity.
Qed.

Lemma release_of_null_pointer_witness :
  let s := state_of (allocate Default (NewCall 8 8)
                       (construct 4096 64 (fun _ => 0))) in
  let t := ObjectHandle (mkStackPtr 0 (mkStackHeader 0 32)) in
  release Default t s = Abort NullPointerDeallocation s /\
  Legacy_release Default t s = Abort NullPointerDeallocation s.
Proof.
  cbv zeta.
  apply (release_of_null_pointer Default
           (ObjectHandle (mkStackPtr 0 (mkStackHeader 0 32))));
    reflexivity.
Defined.

(** X8.  Under [OwnershipCheck], the release of a pointer below the start
    address or above the end address of the arena aborts and leaves the
    allocator as it was: with [NotOwnedPointer], or with
    [NullPointerDeallocation] when the pointer is null and [NullCheck] is
    on. *)
Theorem release_of_foreign_pointer policy (t : Allocated) s :
  OwnershipCheck policy = true ->
  payload t < m_StartAddress s \/ m_EndAddress s < payload t ->
  release policy t s
  = Abort (if NullCheck policy && (payload t =? 0)
           then NullPointerDeallocation else NotOwnedPointer) s.
Proof.
  intros HO Hout.
  rewrite release_normal_form. unfold release_checks. rewrite HO.
  destruct (NullCheck policy && (payload t =? 0)); [reflexivity|].
  assert (E : Allocators.OwnsAddress (payload t) s = false).
  { destruct (Allocators.OwnsAddress (payload t) s) eqn:E; [|reflexivity].
    apply OwnsAddress_closed_range in E. lia. }
  rewrite E. reflexivity.
Qed.

Lemma release_of_foreign_pointer_witness :
  let s := state_of (allocate Default (AllocateCall 8 8)
                       (construct 4096 64 (fun _ => 0))) in
  release Default (RawPointer 4161) s = Abort NotOwnedPointer s /\
  release Default (RawArrayPointer 4095 4) s = Abort NotOwnedPointer s.
Proof.
  cbv zeta. split.
  - apply (release_of_foreign_pointer Default (RawPointer 4161));
      [reflexivity|]. right. vm_compute. reflexivity.
  - apply (release_of_foreign_pointer Default (RawArrayPointer 4095 4));
      [reflexivity|]. left. vm_compute. reflexivity.
Defined.

(** X9.  Under [StackCheck], for an allocation of positive size that lies
    within the address space (no address or offset computed for it wraps
    around): a second release, right after the first release has
    succeeded, aborts with [OutOfOrderDeallocation] and changes
    nothing. *)
Theorem second_release_refused policy (c : Allocation) s t s1 s2 :
  StackCheck policy = true ->
  within_address_space policy c s ->
  0 < size_of c ->
  allocate policy c s = Ok t s1 ->
  release policy t s1 = Ok tt s2 ->
  release policy t s2 = Abort OutOfOrderDeallocation s2.
Proof.
  intros HS Hw Hsz Ha Hr.
  destruct (allocate_within policy c s t s1 Hw Ha) as (Est & _ & _ & Hback).
  destruct (Hback s1 s2 Est (fun x _ => eq_refl) Hr) as [Hcur _].
  pose proof (allocate_exact policy c s t s1 Hw Ha) as HX. cbv zeta in HX.
  destruct HX as (HP & _ & _ & Es1).
  assert (Hlt : m_CurrentOffset s < m_CurrentOffset s1).
  { rewrite Es1. fields.
    pose proof (headerSize_of_range policy c).
    pose proof (GetTotalHeaderSize_cases policy (headerSize_of policy c)).
    destruct (BoundsCheck policy); lia. }
  clear Es1.
  apply release_Ok_inv in Hr. destruct Hr as [Hc Es2].
  rewrite release_normal_form.
  assert (E : release_checks policy t s2 = Some OutOfOrderDeallocation);
    [|now rewrite E].
  unfold release_checks in *.
  destruct (reads_rolled_back policy t (startOffset_at policy t s1) s1)
    as (_ & Ee & _).
  rewrite <- Es2 in Ee. rewrite Ee.
  replace (Allocators.OwnsAddress (payload t) s2)
    with (Allocators.OwnsAddress (payload t) s1) by (rewrite Es2; reflexivity).
  destruct (NullCheck policy && (payload t =? 0)); [discriminate|].
  destruct (OwnershipCheck policy && _); [discriminate|].
  rewrite HS in *. cbn [andb] in *.
  destruct (Z.eqb_spec (endOffset_at policy t s1) (m_CurrentOffset s1))
    as [E|E]; [|discriminate].
  rewrite E.
  destruct (Z.eqb_spec (m_CurrentOffset s1) (m_CurrentOffset s2)); [lia|].
  reflexivity.
Qed.

Lemma second_release_refused_witness :
  let s := construct 4096 64 (fun _ => 0) in
  let t := ObjectHandle (mkStackPtr 4112 (mkStackHeader 0 32)) in
  let s2 := state_of ((t <- allocate Default (NewCall 8 8) ;;
                       release Default t) s) in
  release Default t s2 = Abort OutOfOrderDeallocation s2.
Proof.
  cbv zeta.
  apply (second_release_refused Default (NewCall 8 8)
           (construct 4096 64 (fun _ => 0))
           (ObjectHandle (mkStackPtr 4112 (mkStackHeader 0 32)))
           (state_of (allocate Default (NewCall 8 8)
                        (construct 4096 64 (fun _ => 0))))).
  - reflexivity.
  - vm_compute. repeat split; try reflexivity; discriminate.
  - reflexivity.
  - vm_compute. reflexivity.
  - vm_compute. reflexivity.
Defined.

(** X10.  Without [StackCheck], a second release right after a release
    that succeeded succeeds too and leaves the allocator as the first
    release left it, in both allocators: releasing twice goes
    unnoticed. *)
Theorem second_release_unnoticed policy (t : Allocated) s s' :
  StackCheck policy = false ->
  (release policy t s = Ok tt s' -> release policy t s' = Ok tt s') /\
  (Legacy_release policy t s = Ok tt s' ->
   Legacy_release policy t s' = Ok tt s').
Proof.
  intros HS.
  destruct (reads_rolled_back policy t (startOffset_at policy t s) s)
    as (Es & Ee & Eg & El).
  split; intros Hr.
  - apply release_Ok_inv in Hr. destruct Hr as [Hc ->].
    rewrite release_normal_form. rewrite Es.
    assert (E : release_checks policy t
                  (rolled_back (startOffset_at policy t s) s) = None);
      [|rewrite E; reflexivity].
    unfold release_checks in *. rewrite HS in *. cbn [andb] in *.
    rewrite Eg.
    replace (Allocators.OwnsAddress (payload t)
               (rolled_back (startOffset_at policy t s) s))
      with (Allocators.OwnsAddress (payload t) s) by reflexivity.
    exact Hc.
  - apply Legacy_release_Ok_inv in Hr. destruct Hr as [Hc ->].
    rewrite Legacy_release_normal_form. rewrite Es.
    assert (E : Legacy_release_checks policy t
                  (rolled_back (startOffset_at policy t s) s) = None);
      [|rewrite E; reflexivity].
    unfold Legacy_release_checks in *. rewrite HS in *. cbn [andb] in *.
    rewrite El.
    replace (Legacy.OwnsAddress (payload t)
               (rolled_back (startOffset_at policy t s) s))
      with (Legacy.OwnsAddress (payload t) s) by reflexivity.
    exact Hc.
Qed.

Lemma second_release_unnoticed_witness :
  let policy := mkPolicy true true false true true false in
  let s := state_of (allocate policy (NewCall 8 8)
                       (construct 4096 64 (fun _ => 0))) in
  let t := ObjectHandle (mkStackPtr 4112 (mkStackHeader 0 32)) in
  let s' := state_of (release policy t s) in
  release policy t s' = Ok tt s'.
Proof.
  cbv zeta.
  apply (proj1 (second_release_unnoticed
                  (mkPolicy true true false true true false)
                  (ObjectHandle (mkStackPtr 4112 (mkStackHeader 0 32)))
                  (state_of (allocate
                               (mkPolicy true true false true true false)
                               (NewCall 8 8)
                               (construct 4096 64 (fun _ => 0))))
                  _ eq_refl)).
  vm_compute. reflexivity.
Defined.

(** X11.  Under [StackCheck], for an allocation of positive size that
    lies within the address space (no address or offset computed for it
    wraps around), in an arena that starts above address 0 and with the
    payload at or below the end address: once [Reset] has been called,
    the release of the allocation aborts with [OutOfOrderDeallocation]
    and leaves the allocator as [Reset] left it. *)
Theorem release_after_Reset_refused policy (c : Allocation) s t s1 s2 :
  StackCheck policy = true ->
  within_address_space policy c s ->
  0 < size_of c ->
  allocate policy c s = Ok t s1 ->
  0 < m_StartAddress s ->
  payload t <= m_EndAddress s ->
  Allocators.Reset s1 = Ok tt s2 ->
  release policy t s2 = Abort OutOfOrderDeallocation s2.
Proof.
  intros HS Hw Hsz Ha Hstart Hend Hr.
  inversion Hr as [Es2]. clear Hr.
  destruct (allocate_arena policy c s t s1 Ha) as (Est & Een & _).
  pose proof (allocate_exact policy c s t s1 Hw Ha) as HX. cbv zeta in HX.
  destruct HX as (HP & _ & _ & Es1).
  assert (Hlt : 0 < m_CurrentOffset s1
                    - (if array_call c && BoundsCheck policy
                       then sizeof_BoundGuardBack else 0)).
  { rewrite Es1. fields. destruct Hw as (_ & _ & _ & Hc & _).
    pose proof (headerSize_of_range policy c).
    pose proof (GetTotalHeaderSize_cases policy (headerSize_of policy c)).
    unfold sizeof_BoundGuardBack, sizeof_Offset.
    destruct (array_call c), (BoundsCheck policy); cbn [andb]; lia. }
  clear Es1.
  destruct (release_checks_after_allocate policy c s t s1
              (set_m_UsedSize 0 (set_m_CurrentOffset 0 s1)) Hw Ha)
    as [_ E]; fields; try assumption; try (intros _; assumption);
    try reflexivity.
  rewrite release_normal_form, E. fields. rewrite HS. cbn [andb].
  destruct (Z.eqb_spec
              (m_CurrentOffset s1
               - (if array_call c && BoundsCheck policy
                  then sizeof_BoundGuardBack else 0)) 0) as [E0|E0];
    [lia | reflexivity].
Qed.

Lemma release_after_Reset_refused_witness :
  let s := construct 4096 64 (fun _ => 0) in
  let s2 := state_of ((allocate Default (AllocateCall 8 8) ;;;
                       Allocators.Reset) s) in
  release Default (RawPointer 4128) s2 = Abort OutOfOrderDeallocation s2.
Proof.
  cbv zeta.
  apply (release_after_Reset_refused Default (AllocateCall 8 8)
           (construct 4096 64 (fun _ => 0)) (RawPointer 4128)
           (state_of (allocate Default (AllocateCall 8 8)
                        (construct 4096 64 (fun _ => 0))))).
  - reflexivity.
  - vm_compute. repeat split; try reflexivity; discriminate.
  - reflexivity.
  - vm_compute. reflexivity.
  - reflexivity.
  - vm_compute. discriminate.
  - vm_compute. reflexivity.
Defined.

(** ** The guards at work *)

(** X12.  Under [BoundsCheck], in the allocator of [Source/Allocators]: if
    the eight bytes right after the payload no longer hold the start
    offset of the allocation when it is released, and the memory below
    the payload is as the allocation left it, the release aborts with
    [CorruptionDetected] and the current offset is not rolled back.  The
    array calls under [StackCheck] are left out. *)
Theorem stomped_back_guard_detected policy (c : Allocation) s t s1
  (m' : Memory) :
  BoundsCheck policy = true ->
  StackCheck policy && array_call c = false ->
  within_address_space policy c s ->
  allocate policy c s = Ok t s1 ->
  0 < m_StartAddress s ->
  payload t <= m_EndAddress s ->
  (forall x, x < payload t -> m' x = memory s1 x) ->
  load_Offset m' (payload t + size_of c) <> m_CurrentOffset s ->
  release policy t (set_memory m' s1)
  = Abort CorruptionDetected (set_memory m' s1).
Proof.
  intros HB Hpol Hw Ha Hstart Hend Hmem Hne.
  destruct (allocate_arena policy c s t s1 Ha) as (Est & Een & _).
  destruct (release_checks_after_allocate policy c s t s1 (set_memory m' s1)
              Hw Ha) as [Eso E];
    fields; try assumption; try (intros _; assumption).
  - intros x Hx. apply Hmem. lia.
  - rewrite release_normal_form, E. fields. rewrite HB.
    assert (ES : StackCheck policy
                 && negb (m_CurrentOffset s1
                          - (if array_call c && true
                             then sizeof_BoundGuardBack else 0)
                          =? m_CurrentOffset s1) = false).
    { destruct (StackCheck policy); [|reflexivity].
      cbn [andb] in Hpol |- *. rewrite Hpol. cbn [andb].
      rewrite Z.sub_0_r, Z.eqb_refl. reflexivity. }
    rewrite ES. cbn [andb].
    apply Z.eqb_neq in Hne. rewrite Hne. reflexivity.
Qed.

Lemma stomped_back_guard_detected_witness :
  let s := construct 4096 64 (fun _ => 0) in
  let s1 := state_of (allocate Default (NewCall 8 8) s) in
  let m' := write_bytes (memory s1) 4112 [1; 2; 3; 4; 5; 6; 7; 8; 9] in
  release Default (ObjectHandle (mkStackPtr 4112 (mkStackHeader 0 32)))
    (set_memory m' s1)
  = Abort CorruptionDetected (set_memory m' s1).
Proof.
  cbv zeta.
  apply (stomped_back_guard_detected Default (NewCall 8 8)
           (construct 4096 64 (fun _ => 0))).
  - reflexivity.
  - reflexivity.
  - vm_compute. repeat split; try reflexivity; discriminate.
  - vm_compute. reflexivity.
  - reflexivity.
  - vm_compute. discriminate.
  - intros x Hx. cbn [payload ptr] in Hx.
    apply write_bytes_outside. lia.
  - vm_compute. discriminate.
Defined.

Lemma pointer_checks_after_allocate policy (c : Allocation) s p :
  m_StartAddress s <= p -> 0 < m_StartAddress s ->
  NullCheck policy && (p =? 0) = false.
Proof.
  intros Hp Hs. destruct (NullCheck policy); [|reflexivity]. cbn [andb].
  apply Z.eqb_neq. lia.
Qed.

(** X13.  Under [BoundsCheck], for an allocation held by a handle ([New],
    [NewArray]): if the offset of the front guard, sixteen bytes below
    the payload, no longer holds the start offset of the allocation when
    it is released, the release aborts with [CorruptionDetected], in both
    allocators; in the allocator of [Source/Allocators] the array calls
    under [StackCheck] are left out. *)
Theorem stomped_front_guard_detected policy (c : Allocation) s t s1
  (m' : Memory) :
  BoundsCheck policy = true ->
  handle_call c = true ->
  within_address_space policy c s ->
  0 < m_StartAddress s ->
  load_Offset m' (payload t - sizeof_BoundGuardFront) <> m_CurrentOffset s ->
  (allocate policy c s = Ok t s1 ->
   payload t <= m_EndAddress s ->
   StackCheck policy && array_call c = false ->
   release policy t (set_memory m' s1)
   = Abort CorruptionDetected (set_memory m' s1)) /\
  (Legacy_allocate policy c s = Ok t s1 ->
   payload t < m_EndAddress s ->
   Legacy_release policy t (set_memory m' s1)
   = Abort CorruptionDetected (set_memory m' s1)).
Proof.
  intros HB Hh Hw Hstart Hne.
  pose proof Hw as (Hal & Hz & Hs & Hc & Hm).
  pose proof (headerSize_of_range policy c) as Hhs.
  pose proof (GetTotalHeaderSize_cases policy (headerSize_of policy c)) as Hth.
  rewrite HB in Hth.
  unfold sizeof_BoundGuardBack, sizeof_BoundGuardFront, sizeof_Offset in *.
  change (2 * 8) with 16 in *.
  split.
  - intros Ha Hend Hpol.
    pose proof (allocate_exact policy c s t s1 Hw Ha) as HX. cbv zeta in HX.
    destruct HX as (HP & _ & Et & Es1).
    rewrite Et in Hne, Hend |- *. rewrite payload_allocation_result in Hne, Hend.
    rewrite release_normal_form. unfold release_checks.
    rewrite payload_allocation_result.
    rewrite (pointer_checks_after_allocate policy c s) by lia.
    assert (E2 : OwnershipCheck policy
                 && negb (Allocators.OwnsAddress
                            (m_StartAddress s + m_CurrentOffset s
                             + padding_at policy (headerSize_of policy c)
                                 (alignment_of c) s)
                            (set_memory m' s1)) = false).
    { destruct (OwnershipCheck policy); [|reflexivity]. cbn [andb].
      apply negb_false_iff, OwnsAddress_closed_range.
      rewrite Es1. fields. lia. }
    rewrite E2.
    destruct c as [size al|sz al|n sz al|n sz al]; try discriminate;
      cbn [allocation_result endOffset_at startOffset_at guards_match addressMarker_of
           payload header ptr endOffset startOffset array_header array_ptr
           array_startOffset count array_call headerSize_of size_of
           alignment_of] in *.
    + rewrite Es1 at 1. fields. rewrite Z.eqb_refl, andb_false_r.
      rewrite HB. cbn [andb].
      unfold guards_match, load_BoundGuardFront.
      cbn [payload addressMarker_of ptr front_offset startOffset_at header
           startOffset memory set_memory].
      unfold sizeof_BoundGuardFront, sizeof_Offset. change (2 * 8) with 16.
      rewrite (wrap_small (_ - 16)) by lia.
      apply Z.eqb_neq in Hne. rewrite Hne. reflexivity.
    + rewrite andb_true_r in Hpol. rewrite Hpol. cbn [andb].
      rewrite HB. cbn [andb].
      unfold guards_match, load_BoundGuardFront.
      cbn [payload addressMarker_of array_ptr front_offset startOffset_at
           array_header array_startOffset memory set_memory].
      unfold sizeof_BoundGuardFront, sizeof_Offset. change (2 * 8) with 16.
      rewrite (wrap_small (_ - 16)) by lia.
      apply Z.eqb_neq in Hne. rewrite Hne. reflexivity.
  - intros Ha Hend.
    pose proof (Legacy_allocate_exact policy c s t s1 Hw Ha) as HX.
    cbv zeta in HX. destruct HX as (HP & _ & Et & Es1).
    rewrite Et in Hne, Hend |- *. rewrite payload_allocation_result in Hne, Hend.
    rewrite Legacy_release_normal_form. unfold Legacy_release_checks.
    rewrite payload_allocation_result.
    rewrite (pointer_checks_after_allocate policy c s) by lia.
    assert (E2 : OwnershipCheck policy
                 && negb (Legacy.OwnsAddress
                            (m_StartAddress s + m_CurrentOffset s
                             + padding_at policy (headerSize_of policy c)
                                 (alignment_of c) s)
                            (set_memory m' s1)) = false).
    { destruct (OwnershipCheck policy); [|reflexivity]. cbn [andb].
      apply negb_false_iff. unfold Legacy.OwnsAddress.
      rewrite Es1. fields.
      apply andb_true_iff. rewrite Z.leb_le, Z.ltb_lt. lia. }
    rewrite E2.
    assert (E3 : endOffset_at policy
                   (allocation_result c
                      (m_StartAddress s + m_CurrentOffset s
                       + padding_at policy (headerSize_of policy c)
                           (alignment_of c) s)
                      (m_CurrentOffset s)
                      (m_CurrentOffset s
                       + padding_at policy (headerSize_of policy c)
                           (alignment_of c) s + size_of c))
                   (set_memory m' s1)
                 = m_CurrentOffset (set_memory m' s1)).
    { rewrite Es1. fields.
      destruct c as [size al|sz al|n sz al|n sz al]; try discriminate;
        cbn [allocation_result endOffset_at header endOffset array_ptr array_header
             count size_of headerSize_of alignment_of] in *;
        [reflexivity|].
      pose proof (wrap_range (n * sz)). fields.
      rewrite GetArrayEndOffset_within by lia. lia. }
    rewrite E3, Z.eqb_refl, andb_false_r. rewrite HB. cbn [andb].
    assert (E4 : Legacy_guards_match policy
                   (allocation_result c
                      (m_StartAddress s + m_CurrentOffset s
                       + padding_at policy (headerSize_of policy c)
                           (alignment_of c) s)
                      (m_CurrentOffset s)
                      (m_CurrentOffset s
                       + padding_at policy (headerSize_of policy c)
                           (alignment_of c) s + size_of c))
                   (set_memory m' s1) = false).
    { unfold Legacy_guards_match, load_BoundGuardFront. cbv zeta.
      cbn [front_offset memory set_memory].
      destruct c as [size al|sz al|n sz al|n sz al]; try discriminate;
        cbn [allocation_result addressMarker_of startOffset_at ptr header startOffset
             array_ptr array_header array_startOffset headerSize_of
             alignment_of] in *;
        unfold sizeof_BoundGuardFront, sizeof_Offset;
        change (2 * 8) with 16;
        rewrite (wrap_small (_ - 16)) by lia;
        apply Z.eqb_neq in Hne; rewrite Hne; reflexivity. }
    rewrite E4. reflexivity.
Qed.

Lemma stomped_front_guard_detected_witness :
  let s := construct 4096 64 (fun _ => 0) in
  let s1 := state_of (allocate Default (NewCall 8 8) s) in
  let s1' := state_of (Legacy_allocate Default (NewCall 8 8) s) in
  let stomp m := write_bytes m 4096 [9] in
  release Default (ObjectHandle (mkStackPtr 4112 (mkStackHeader 0 32)))
    (set_memory (stomp (memory s1)) s1)
  = Abort CorruptionDetected (set_memory (stomp (memory s1)) s1) /\
  Legacy_release Default (ObjectHandle (mkStackPtr 4112 (mkStackHeader 0 24)))
    (set_memory (stomp (memory s1')) s1')
  = Abort CorruptionDetected (set_memory (stomp (memory s1')) s1').
Proof.
  cbv zeta.
  set (s := construct 4096 64 (fun _ => 0)).
  assert (Hw : within_address_space Default (NewCall 8 8) s).
  { vm_compute. repeat split; try reflexivity; discriminate. }
  split.
  - set (s1 := state_of (allocate Default (NewCall 8 8) s)).
    set (m' := write_bytes (memory s1) 4096 [9]).
    assert (Hm : load_Offset m' (4112 - sizeof_BoundGuardFront)
                 <> m_CurrentOffset s).
    { vm_compute. discriminate. }
    apply (proj1 (stomped_front_guard_detected Default (NewCall 8 8) s
                    (ObjectHandle (mkStackPtr 4112 (mkStackHeader 0 32)))
                    s1 m' eq_refl eq_refl Hw eq_refl Hm)).
    + vm_compute. reflexivity.
    + vm_compute. discriminate.
    + reflexivity.
  - set (s1 := state_of (Legacy_allocate Default (NewCall 8 8) s)).
    set (m' := write_bytes (memory s1) 4096 [9]).
    assert (Hm : load_Offset m' (4112 - sizeof_BoundGuardFront)
                 <> m_CurrentOffset s).
    { vm_compute. discriminate. }
    apply (proj2 (stomped_front_guard_detected Default (NewCall 8 8) s
                    (ObjectHandle (mkStackPtr 4112 (mkStackHeader 0 24)))
                    s1 m' eq_refl eq_refl Hw eq_refl Hm)).
    + vm_compute. reflexivity.
    + vm_compute. reflexivity.
Defined.

(** X14.  Under [BoundsCheck], the back guard of an allocation whose
    payload ends at the last byte of the arena is written to the eight
    bytes that follow the arena: after the allocation, the guard read at
    [m_StartAddress + totalSize] holds the start offset of the allocation.
    This holds in both allocators, whatever the other checks: the size
    check does not count the back guard. *)
Theorem back_guard_written_past_the_arena policy (c : Allocation) s t s1 :
  BoundsCheck policy = true ->
  within_address_space policy c s ->
  allocate policy c s = Ok t s1 \/ Legacy_allocate policy c s = Ok t s1 ->
  payload t + size_of c = m_StartAddress s + m_TotalSize s ->
  load_BoundGuardBack (memory s1) (m_StartAddress s + m_TotalSize s)
  = mkBoundGuardBack (m_CurrentOffset s).
Proof.
  intros HB Hw Ha Hend. rewrite <- Hend.
  pose proof Hw as (Hal & Hz & Hs & Hc & Hm).
  pose proof (headerSize_of_range policy c) as Hh.
  pose proof (GetTotalHeaderSize_cases policy (headerSize_of policy c)) as Hth.
  rewrite HB in Hth. unfold sizeof_BoundGuardBack, sizeof_Offset in Hm.
  destruct Ha as [Ha|Ha].
  - pose proof (allocate_exact policy c s t s1 Hw Ha) as HX. cbv zeta in HX.
    destruct HX as (HP & _ & -> & ->). rewrite payload_allocation_result. fields.
    apply memory_after_back_guard; try assumption. lia.
  - pose proof (Legacy_allocate_exact policy c s t s1 Hw Ha) as HX.
    cbv zeta in HX.
    destruct HX as (HP & _ & -> & ->). rewrite payload_allocation_result. fields.
    apply memory_after_back_guard; try assumption. lia.
Qed.

Lemma back_guard_written_past_the_arena_witness :
  let s := construct 4096 64 (fun _ => 255) in
  let s1 := state_of (allocate Default (NewCall 48 8) s) in
  is_Ok (allocate Default (NewCall 48 8) s) = true /\
  load_BoundGuardBack (memory s) (4096 + 64)
  = mkBoundGuardBack (2 ^ 64 - 1) /\
  load_BoundGuardBack (memory s1) (4096 + 64) = mkBoundGuardBack 0.
Proof.
  cbv zeta. split; [reflexivity|]. split; [vm_compute; reflexivity|].
  apply (back_guard_written_past_the_arena Default (NewCall 48 8)
           (construct 4096 64 (fun _ => 255))
           (ObjectHandle (mkStackPtr 4112 (mkStackHeader 0 72)))).
  - reflexivity.
  - vm_compute. repeat split; try reflexivity; discriminate.
  - left. vm_compute. reflexivity.
  - reflexivity.
Defined.

(** X15.  In the allocator of [Source/StackAllocator] under [BoundsCheck],
    the back guard is written at the current offset, which does not count
    it: when the next allocation needs no padding, its front guard is
    written over the back guard of the allocation before, which then
    reads the start offset of the next allocation instead of its own. *)
Theorem Legacy_back_guard_overwritten_by_next_allocation policy
  (c1 c2 : Allocation) s t1 s1 t2 s2 :
  BoundsCheck policy = true ->
  within_address_space policy c1 s ->
  Legacy_allocate policy c1 s = Ok t1 s1 ->
  within_address_space policy c2 s1 ->
  Legacy_allocate policy c2 s1 = Ok t2 s2 ->
  payload t2 - GetTotalHeaderSize policy (headerSize_of policy c2)
  = payload t1 + size_of c1 ->
  load_BoundGuardBack (memory s1) (payload t1 + size_of c1)
  = mkBoundGuardBack (m_CurrentOffset s) /\
  load_BoundGuardBack (memory s2) (payload t1 + size_of c1)
  = mkBoundGuardBack (m_CurrentOffset s1) /\
  m_StartAddress s + m_CurrentOffset s1 = payload t1 + size_of c1.
Proof.
  intros HB Hw1 Ha1 Hw2 Ha2 Hgap.
  pose proof (Legacy_allocate_exact policy c1 s t1 s1 Hw1 Ha1) as HX1.
  pose proof (Legacy_allocate_exact policy c2 s1 t2 s2 Hw2 Ha2) as HX2.
  cbv zeta in HX1, HX2.
  destruct HX1 as (HP1 & _ & Et1 & Es1), HX2 as (HP2 & _ & Et2 & Es2).
  pose proof Hw1 as (Hal1 & Hz1 & Hs1 & Hc1 & Hm1).
  pose proof Hw2 as (Hal2 & Hz2 & Hs2 & Hc2 & Hm2).
  pose proof (headerSize_of_range policy c1) as Hh1.
  pose proof (headerSize_of_range policy c2) as Hh2.
  pose proof (GetTotalHeaderSize_cases policy (headerSize_of policy c1)) as H1.
  pose proof (GetTotalHeaderSize_cases policy (headerSize_of policy c2)) as H2.
  rewrite HB in H1, H2.
  unfold sizeof_BoundGuardBack, sizeof_Offset in Hm1, Hm2.
  split; [|split].
  - rewrite Et1, Es1, payload_allocation_result. fields.
    apply memory_after_back_guard; try assumption. lia.
  - rewrite <- Hgap. rewrite Et2, Es2, payload_allocation_result. fields.
    rewrite H2.
    set (p2 := m_StartAddress s1 + m_CurrentOffset s1
               + padding_at policy (headerSize_of policy c2)
                   (alignment_of c2) s1).
    set (eo2 := m_CurrentOffset s1
                + padding_at policy (headerSize_of policy c2)
                    (alignment_of c2) s1 + size_of c2).
    assert (Hc1m : 0 <= m_CurrentOffset s1 < modulus) by lia.
    assert (Hz2m : 0 <= size_of c2 < modulus) by lia.
    pose proof (memory_after_front_guard policy c2 p2 eo2 s1 HB Hc1m Hz2m)
      as Ef.
    unfold sizeof_BoundGuardFront, sizeof_Offset in Ef.
    change (2 * 8) with 16 in Ef.
    apply (f_equal front_offset) in Ef.
    unfold load_BoundGuardFront in Ef. cbn [front_offset] in Ef.
    unfold load_BoundGuardBack. f_equal. rewrite <- Ef.
    replace (p2 - (headerSize_of policy c2 + 16))
      with (p2 - headerSize_of policy c2 - 16) by lia.
    reflexivity.
  - rewrite Et1, Es1, payload_allocation_result. fields. lia.
Qed.

Lemma Legacy_back_guard_overwritten_by_next_allocation_witness :
  let s := construct 4096 256 (fun _ => 0) in
  let s1 := state_of (Legacy_allocate Default (NewCall 8 8) s) in
  let s2 := state_of (Legacy_allocate Default (NewCall 8 8) s1) in
  load_BoundGuardBack (memory s1) (4112 + 8) = mkBoundGuardBack 0 /\
  load_BoundGuardBack (memory s2) (4112 + 8) = mkBoundGuardBack 24 /\
  4096 + 24 = 4112 + 8.
Proof.
  cbv zeta.
  apply (Legacy_back_guard_overwritten_by_next_allocation Default
           (NewCall 8 8) (NewCall 8 8)
           (construct 4096 256 (fun _ => 0))
           (ObjectHandle (mkStackPtr 4112 (mkStackHeader 0 24)))
           (state_of (Legacy_allocate Default (NewCall 8 8)
                        (construct 4096 256 (fun _ => 0))))
           (ObjectHandle (mkStackPtr 4136 (mkStackHeader 24 48)))).
  - reflexivity.
  - vm_compute. repeat split; try reflexivity; discriminate.
  - vm_compute. reflexivity.
  - vm_compute. repeat split; try reflexivity; discriminate.
  - vm_compute. reflexivity.
  - reflexivity.
Defined.

(** ** Where an allocation lies *)

(** X16.  Under [SizeCheck], every allocation that succeeds, in either
    allocator, has its guards, header and payload inside the arena: the
    payload begins at least the total header size above the address of
    the current offset and ends at or below [m_StartAddress +
    totalSize]. *)
Theorem SizeCheck_keeps_allocation_in_arena policy (c : Allocation) s t s1 :
  SizeCheck policy = true ->
  within_address_space policy c s ->
  allocate policy c s = Ok t s1 \/ Legacy_allocate policy c s = Ok t s1 ->
  m_StartAddress s + m_CurrentOffset s
  + GetTotalHeaderSize policy (headerSize_of policy c) <= payload t /\
  payload t + size_of c <= m_StartAddress s + m_TotalSize s.
Proof.
  intros HS Hw [Ha|Ha].
  - pose proof (allocate_exact policy c s t s1 Hw Ha) as HX. cbv zeta in HX.
    destruct HX as (HP & Hfit & -> & _). rewrite payload_allocation_result.
    specialize (Hfit HS). lia.
  - pose proof (Legacy_allocate_exact policy c s t s1 Hw Ha) as HX.
    cbv zeta in HX.
    destruct HX as (HP & Hfit & -> & _). rewrite payload_allocation_result.
    specialize (Hfit HS). lia.
Qed.

Lemma SizeCheck_keeps_allocation_in_arena_witness :
  let s := construct 4096 64 (fun _ => 0) in
  let c := AllocateCall 32 8 in
  let t := RawPointer 4128 in
  m_StartAddress s + m_CurrentOffset s
  + GetTotalHeaderSize Default (headerSize_of Default c) <= payload t /\
  payload t + size_of c <= m_StartAddress s + m_TotalSize s.
Proof.
  cbv zeta.
  apply (SizeCheck_keeps_allocation_in_arena Default (AllocateCall 32 8)
           (construct 4096 64 (fun _ => 0)) (RawPointer 4128)
           (state_of (allocate Default (AllocateCall 32 8)
                        (construct 4096 64 (fun _ => 0))))).
  - reflexivity.
  - vm_compute. repeat split; try reflexivity; discriminate.
  - left. vm_compute. reflexivity.
Defined.

(** X17.  In the allocator of [Source/Allocators], for two allocations
    made one after the other that both lie within the address space (no
    address or offset computed for them wraps around): the later one
    writes its guards and header above the back guard of the earlier one,
    and every byte below its front guard, so the guards, the header and
    the payload of the earlier allocation, is left as it was. *)
Theorem later_allocation_leaves_earlier_alone policy (c1 c2 : Allocation)
  s t1 s1 t2 s2 :
  within_address_space policy c1 s ->
  allocate policy c1 s = Ok t1 s1 ->
  within_address_space policy c2 s1 ->
  allocate policy c2 s1 = Ok t2 s2 ->
  payload t1 + size_of c1
  + (if BoundsCheck policy then sizeof_BoundGuardBack else 0)
  <= payload t2 - GetTotalHeaderSize policy (headerSize_of policy c2) /\
  (forall x,
      x < payload t2 - GetTotalHeaderSize policy (headerSize_of policy c2) ->
      memory s2 x = memory s1 x).
Proof.
  intros Hw1 Ha1 Hw2 Ha2.
  pose proof (allocate_exact policy c1 s t1 s1 Hw1 Ha1) as HX1.
  pose proof (allocate_exact policy c2 s1 t2 s2 Hw2 Ha2) as HX2.
  cbv zeta in HX1, HX2.
  destruct HX1 as (HP1 & _ & -> & Es1), HX2 as (HP2 & _ & -> & ->).
  rewrite !payload_allocation_result. fields.
  destruct Hw2 as (_ & Hz2 & _).
  split.
  - rewrite Es1 at 1 2. fields.
    unfold sizeof_BoundGuardBack, sizeof_Offset.
    destruct (BoundsCheck policy); lia.
  - intros x Hx. apply memory_after_outside; [assumption|]. left. exact Hx.
Qed.

Lemma later_allocation_leaves_earlier_alone_witness :
  let s := construct 4096 256 (fun _ => 0) in
  let s1 := state_of (allocate Default (AllocateCall 10 8) s) in
  let s2 := state_of (allocate Default (NewCall 8 16) s1) in
  let t1 := RawPointer 4128 in
  let t2 := ObjectHandle (mkStackPtr 4176 (mkStackHeader 50 96)) in
  payload t1 + 10 + sizeof_BoundGuardBack
  <= payload t2 - sizeof_BoundGuardFront /\
  (forall x, x < payload t2 - sizeof_BoundGuardFront ->
             memory s2 x = memory s1 x).
Proof.
  cbv zeta.
  apply (later_allocation_leaves_earlier_alone Default
           (AllocateCall 10 8) (NewCall 8 16)
           (construct 4096 256 (fun _ => 0)) (RawPointer 4128)
           (state_of (allocate Default (AllocateCall 10 8)
                        (construct 4096 256 (fun _ => 0))))
           (ObjectHandle (mkStackPtr 4176 (mkStackHeader 50 96)))).
  - vm_compute. repeat split; try reflexivity; discriminate.
  - vm_compute. reflexivity.
  - vm_compute. repeat split; try reflexivity; discriminate.
  - vm_compute. reflexivity.
Defined.

(** X18.  What an allocation that lies within the address space (no
    address or offset computed for it wraps around) costs: the current
    offset rises by the total header size and the size of the payload,
    plus a padding smaller than the alignment; in the allocator of
    [Source/Allocators] under [BoundsCheck] by the eight bytes of the back
    guard as well, which the allocator of [Source/StackAllocator] does not
    count. *)
Theorem allocation_footprint policy (c : Allocation) s t s1 :
  within_address_space policy c s ->
  let footprint :=
    GetTotalHeaderSize policy (headerSize_of policy c) + size_of c in
  (allocate policy c s = Ok t s1 ->
   let guard := if BoundsCheck policy then sizeof_BoundGuardBack else 0 in
   footprint + guard <= m_CurrentOffset s1 - m_CurrentOffset s
   < footprint + guard + alignment_of c) /\
  (Legacy_allocate policy c s = Ok t s1 ->
   footprint <= m_CurrentOffset s1 - m_CurrentOffset s
   < footprint + alignment_of c).
Proof.
  intros Hw. cbv zeta. split; intros Ha.
  - pose proof (allocate_exact policy c s t s1 Hw Ha) as HX. cbv zeta in HX.
    destruct HX as (HP & _ & _ & ->). fields.
    unfold sizeof_BoundGuardBack, sizeof_Offset.
    destruct (BoundsCheck policy); lia.
  - pose proof (Legacy_allocate_exact policy c s t s1 Hw Ha) as HX.
    cbv zeta in HX.
    destruct HX as (HP & _ & _ & ->). fields. lia.
Qed.

Lemma allocation_footprint_witness :
  let s := construct 4096 256 (fun _ => 0) in
  let c := AllocateCall 10 8 in
  let s1 := state_of (allocate Default c s) in
  let s1' := state_of (Legacy_allocate Default c s) in
  m_CurrentOffset s1 = 50 /\ m_CurrentOffset s1' = 42 /\
  (32 + 10 + 8 <= m_CurrentOffset s1 - m_CurrentOffset s < 32 + 10 + 8 + 8) /\
  (32 + 10 <= m_CurrentOffset s1' - m_CurrentOffset s < 32 + 10 + 8).
Proof.
  cbv zeta. split; [reflexivity|]. split; [reflexivity|].
  split.
  - apply (proj1 (allocation_footprint Default (AllocateCall 10 8)
                    (construct 4096 256 (fun _ => 0)) (RawPointer 4128) _
                    ltac:(vm_compute; repeat split;
                          try reflexivity; discriminate))).
    vm_compute. reflexivity.
  - apply (proj2 (allocation_footprint Default (AllocateCall 10 8)
                    (construct 4096 256 (fun _ => 0)) (RawPointer 4128) _
                    ltac:(vm_compute; repeat split;
                          try reflexivity; discriminate))).
    vm_compute. reflexivity.
Defined.

Lemma alignedAddress_at_aligned policy headerSize alignment s :
  0 <= headerSize -> 0 < alignment ->
  0 <= m_StartAddress s -> 0 <= m_CurrentOffset s ->
  m_StartAddress s + m_CurrentOffset s
  + GetTotalHeaderSize policy headerSize + alignment <= modulus ->
  alignedAddress_at policy headerSize alignment s mod alignment = 0.
Proof.
  intros Hh Ha Hs Hc Hm.
  pose proof (GetTotalHeaderSize_cases policy headerSize) as Hth.
  assert (Hths : 0 <= GetTotalHeaderSize policy headerSize)
    by (destruct (BoundsCheck policy); lia).
  unfold alignedAddress_at, padding_at, baseAddress_at.
  set (th := GetTotalHeaderSize policy headerSize) in *.
  rewrite (wrap_small (m_StartAddress s + m_CurrentOffset s)) by lia.
  set (base := m_StartAddress s + m_CurrentOffset s) in *.
  destruct (Z.ltb_spec 0 th) as [Hpos|Hzero].
  - unfold CalculateAlignedPaddingWithHeader.
    rewrite (wrap_small (base + th)) by lia.
    destruct (CalculateAlignedAddress_range (base + th) alignment)
      as [R M]; try lia.
    rewrite (wrap_small (_ - base)) by lia.
    replace (base + (CalculateAlignedAddress (base + th) alignment - base))
      with (CalculateAlignedAddress (base + th) alignment) by lia.
    rewrite wrap_small by lia. exact M.
  - apply (CalculateAlignedAddress_range base alignment); lia.
Qed.

(** X19.  The pointer returned by any allocation that succeeds, in either
    allocator, is a multiple of the alignment asked for.
    ([CalculateAlignedAddress] is the aligning-up of the spec, its source
    being absent.) *)
Theorem allocation_is_aligned policy (c : Allocation) s t s1 :
  within_address_space policy c s ->
  allocate policy c s = Ok t s1 \/ Legacy_allocate policy c s = Ok t s1 ->
  payload t mod alignment_of c = 0.
Proof.
  intros Hw Ha.
  pose proof Hw as (Hal & Hz & Hs & Hc & Hm).
  pose proof (headerSize_of_range policy c) as Hh.
  unfold sizeof_BoundGuardBack, sizeof_Offset in Hm.
  destruct (placement_within policy (headerSize_of policy c) (alignment_of c) s)
    as (_ & HA & _); try lia.
  assert (E : payload t
              = alignedAddress_at policy (headerSize_of policy c)
                  (alignment_of c) s).
  { rewrite HA. destruct Ha as [Ha|Ha].
    - pose proof (allocate_exact policy c s t s1 Hw Ha) as HX.
      cbv zeta in HX. destruct HX as (_ & _ & -> & _).
      apply payload_allocation_result.
    - pose proof (Legacy_allocate_exact policy c s t s1 Hw Ha) as HX.
      cbv zeta in HX. destruct HX as (_ & _ & -> & _).
      apply payload_allocation_result. }
  rewrite E. apply alignedAddress_at_aligned; lia.
Qed.

Lemma allocation_is_aligned_witness :
  payload (RawPointer 4160) mod alignment_of (AllocateCall 10 32) = 0.
Proof.
  apply (allocation_is_aligned Default (AllocateCall 10 32)
           (state_of (allocate Default (NewCall 3 1)
                        (construct 4096 256 (fun _ => 0))))
           (RawPointer 4160)
           (state_of ((allocate Default (NewCall 3 1) ;;;
                       allocate Default (AllocateCall 10 32))
                        (construct 4096 256 (fun _ => 0))))).
  - vm_compute. repeat split; try reflexivity; discriminate.
  - left. vm_compute. reflexivity.
Defined.

Lemma wrap_le (z : Z) : 0 <= z -> wrap z <= z.
Proof. intros H. unfold wrap. apply Z.mod_le; [exact H | reflexivity]. Qed.

Lemma allocate_within_total_and_guard policy (c : Allocation) s t s' :
  SizeCheck policy = true -> 0 <= m_TotalSize s ->
  allocate policy c s = Ok t s' ->
  m_TotalSize s' = m_TotalSize s /\
  0 <= m_CurrentOffset s'
  <= m_TotalSize s
     + (if BoundsCheck policy then sizeof_BoundGuardBack else 0).
Proof.
  intros HS Ht H.
  destruct (BoundsCheck policy) eqn:HB.
  - destruct policy as [sc bc stc nc oc mt]. cbn in HS, HB. subst.
    cbv beta iota.
    destruct c; unfold_monad_in H; flags; cbv beta iota in H;
      split_tests_in H; try discriminate; inversion H; subst; fields;
      (split; [reflexivity|]);
      (split; [apply wrap_range|]);
      match goal with
      | E : (wrap ?x <=? _) = true |- _ =>
          apply Z.leb_le in E; pose proof (wrap_range x) as R;
          apply Z.le_trans with (m := wrap x + sizeof_BoundGuardBack);
          [apply wrap_le; unfold sizeof_BoundGuardBack, sizeof_Offset; lia
          |apply Z.add_le_mono_r; exact E]
      end.
  - destruct (allocate_within_total policy c s t s' HS HB H) as [E B].
    split; [exact E | lia].
Qed.

(** ** What a call leaves alone *)

(** X21.  A call that aborts, whichever check refuses it, leaves the
    allocator exactly as it was, memory included: every assertion of an
    allocation, a release or [Reset] is made before the first write, in
    both allocators. *)
Theorem failed_call_changes_nothing policy (c : Call) s e s' :
  perform policy c s = Abort e s' \/ Legacy_perform policy c s = Abort e s' ->
  s' = s.
Proof.
  intros [H|H]; destruct c as [a|t|].
  - cbn [perform] in H. unfold bind in H.
    destruct (allocate policy a s) as [v sm|e' sm] eqn:E; [discriminate|].
    inversion H; subst.
    now destruct (allocate_failure policy a s e s' (or_introl E)).
  - cbn [perform] in H. rewrite release_normal_form in H.
    destruct (release_checks policy t s); inversion H; reflexivity.
  - discriminate.
  - cbn [Legacy_perform] in H. unfold bind in H.
    destruct (Legacy_allocate policy a s) as [v sm|e' sm] eqn:E;
      [discriminate|].
    inversion H; subst.
    now destruct (allocate_failure policy a s e s' (or_intror E)).
  - cbn [Legacy_perform] in H. rewrite Legacy_release_normal_form in H.
    destruct (Legacy_release_checks policy t s); inversion H; reflexivity.
  - discriminate.
Qed.

Lemma failed_call_changes_nothing_witness :
  let s := state_of (allocate Default (NewCall 8 8)
                       (construct 4096 64 (fun _ => 0))) in
  state_of (perform Default (Allocating (AllocateCall 64 8)) s) = s.
Proof.
  cbv zeta.
  apply (failed_call_changes_nothing Default
           (Allocating (AllocateCall 64 8)) _ OutOfMemory).
  left. vm_compute. reflexivity.
Defined.

(** X22.  No release and no [Reset] writes to the arena or moves it,
    whether the call succeeds or aborts: memory, start address, end
    address and total size are as before. *)
Theorem release_and_Reset_write_nothing policy (t : Allocated) s :
  let unchanged (s' : StackAllocator) :=
    memory s' = memory s /\ m_StartAddress s' = m_StartAddress s /\
    m_EndAddress s' = m_EndAddress s /\ m_TotalSize s' = m_TotalSize s in
  unchanged (state_of (release policy t s)) /\
  unchanged (state_of (Legacy_release policy t s)) /\
  unchanged (state_of (Allocators.Reset s)).
Proof.
  cbv zeta. rewrite release_normal_form, Legacy_release_normal_form.
  destruct (release_checks policy t s), (Legacy_release_checks policy t s);
    repeat split; reflexivity.
Qed.

(** X23.  Without [BoundsCheck], a release through a handle ([StackPtr],
    [StackArrayPtr]) reads nothing of the arena: for every content of the
    memory the call has the same outcome and the same effect on the
    offsets, in both allocators. *)
Theorem release_by_handle_reads_no_memory policy (t : Allocated) s
  (m' : Memory) :
  BoundsCheck policy = false ->
  by_handle t = true ->
  release policy t (set_memory m' s)
  = match release policy t s with
    | Ok v s' => Ok v (set_memory m' s')
    | Abort e s' => Abort e (set_memory m' s')
    end /\
  Legacy_release policy t (set_memory m' s)
  = match Legacy_release policy t s with
    | Ok v s' => Ok v (set_memory m' s')
    | Abort e s' => Abort e (set_memory m' s')
    end.
Proof.
  intros HB Hh.
  rewrite !release_normal_form, !Legacy_release_normal_form.
  unfold release_checks, Legacy_release_checks. rewrite HB. cbn [andb].
  destruct t as [p|h|h sz|p sz]; try discriminate;
    cbn [payload endOffset_at startOffset_at];
    change (Allocators.OwnsAddress ?a (set_memory m' s))
      with (Allocators.OwnsAddress a s);
    change (Legacy.OwnsAddress ?a (set_memory m' s))
      with (Legacy.OwnsAddress a s);
    change (m_CurrentOffset (set_memory m' s)) with (m_CurrentOffset s);
    change (m_StartAddress (set_memory m' s)) with (m_StartAddress s);
    split;
    repeat match goal with
           | |- context [if ?b then _ else _] => destruct b
           end; reflexivity.
Qed.

Lemma release_by_handle_reads_no_memory_witness :
  let policy := mkPolicy true false true true true false in
  let s := state_of (allocate policy (NewCall 8 8)
                       (construct 4096 64 (fun _ => 0))) in
  let t := ObjectHandle (mkStackPtr 4096 (mkStackHeader 0 8)) in
  release policy t (set_memory (fun _ => 255) s)
  = Ok tt (set_memory (fun _ => 255) (state_of (release policy t s))).
Proof.
  cbv zeta.
  apply (proj1 (release_by_handle_reads_no_memory
                  (mkPolicy true false true true true false)
                  (ObjectHandle (mkStackPtr 4096 (mkStackHeader 0 8)))
                  (state_of (allocate
                               (mkPolicy true false true true true false)
                               (NewCall 8 8)
                               (construct 4096 64 (fun _ => 0))))
                  (fun _ => 255) eq_refl eq_refl)).
Defined.

(** ** Arrays, again *)

Lemma DeallocateArray_Ok_inv policy p sz s k s' :
  Allocators.DeallocateArray policy p sz s = Ok k s' \/
  Legacy.DeallocateArray policy p sz s = Ok k s' ->
  k = count (load_StackArrayHeader (memory s)
               (wrap (p - sizeof_StackArrayHeader))) /\
  m_CurrentOffset s'
  = array_startOffset (load_StackArrayHeader (memory s)
                         (wrap (p - sizeof_StackArrayHeader))).
Proof.
  destruct policy as [sc bc stc nc oc mt].
  intros [H|H]; destruct stc, nc, oc, bc; unfold_monad_in H; flags;
    cbv beta iota in H; fields_in H; split_tests_in H; try discriminate;
    inversion H; subst; split; reflexivity.
Qed.

(** X24.  [DeallocateArray] of the pointer that [AllocateArray] has just
    returned, when it succeeds, returns the object count given to
    [AllocateArray], read back from the in-place array header, and the
    current offset is back where it was; in both allocators. *)
Theorem DeallocateArray_returns_count policy n sz al s p s1 k s2 :
  0 <= n < modulus ->
  within_address_space policy (AllocateArrayCall n sz al) s ->
  (Allocators.AllocateArray policy n sz al s = Ok p s1 /\
   Allocators.DeallocateArray policy p sz s1 = Ok k s2) \/
  (Legacy.AllocateArray policy n sz al s = Ok p s1 /\
   Legacy.DeallocateArray policy p sz s1 = Ok k s2) ->
  k = n /\ m_CurrentOffset s2 = m_CurrentOffset s.
Proof.
  intros Hn Hw H.
  pose proof Hw as (Hal & Hz & Hs & Hc & Hm).
  cbn [alignment_of size_of headerSize_of] in *.
  pose proof (GetTotalHeaderSize_cases policy sizeof_StackArrayHeader) as Hth.
  unfold sizeof_BoundGuardBack in *.
  assert (Hcm : 0 <= m_CurrentOffset s < modulus)
    by (unfold sizeof_StackArrayHeader, sizeof_Offset in *;
        destruct (BoundsCheck policy); lia).
  assert (E : exists eo,
             memory s1
             = memory_after policy (AllocateArrayCall n sz al) p eo s /\
             wrap (p - sizeof_StackArrayHeader)
             = p - sizeof_StackArrayHeader).
  { destruct H as [[Ha _]|[Ha _]].
    - assert (Ha' : allocate policy (AllocateArrayCall n sz al) s
                    = Ok (RawArrayPointer p sz) s1)
        by (cbn [allocate]; unfold bind; rewrite Ha; reflexivity).
      pose proof (allocate_exact policy _ s _ s1 Hw Ha') as HX.
      cbv zeta in HX. destruct HX as (HP & _ & Et & ->).
      cbn [allocation_result headerSize_of alignment_of size_of] in *.
      injection Et as Ep. subst p.
      exists (m_CurrentOffset s + padding_at policy sizeof_StackArrayHeader al s
              + wrap (n * sz) + (if BoundsCheck policy then 8 else 0)).
      split; [reflexivity|].
      apply wrap_small. unfold sizeof_StackArrayHeader, sizeof_Offset in *.
      destruct (BoundsCheck policy); lia.
    - assert (Ha' : Legacy_allocate policy (AllocateArrayCall n sz al) s
                    = Ok (RawArrayPointer p sz) s1)
        by (cbn [Legacy_allocate]; unfold bind; rewrite Ha; reflexivity).
      pose proof (Legacy_allocate_exact policy _ s _ s1 Hw Ha') as HX.
      cbv zeta in HX. destruct HX as (HP & _ & Et & ->).
      cbn [allocation_result headerSize_of alignment_of size_of] in *.
      injection Et as Ep. subst p.
      exists (m_CurrentOffset s + padding_at policy sizeof_StackArrayHeader al s
              + wrap (n * sz)).
      split; [reflexivity|].
      apply wrap_small. unfold sizeof_StackArrayHeader, sizeof_Offset in *.
      destruct (BoundsCheck policy); lia. }
  destruct E as (eo & Em & Ew).
  assert (Hd : Allocators.DeallocateArray policy p sz s1 = Ok k s2 \/
               Legacy.DeallocateArray policy p sz s1 = Ok k s2)
    by (destruct H as [[_ Hd]|[_ Hd]]; auto).
  apply DeallocateArray_Ok_inv in Hd.
  rewrite Ew, Em in Hd.
  rewrite (memory_after_StackArrayHeader policy n sz al p eo s Hcm) in Hd.
  cbn [count array_startOffset] in Hd.
  rewrite wrap_small in Hd by assumption. exact Hd.
Qed.

Lemma DeallocateArray_returns_count_witness :
  let policy := mkPolicy true true false true true false in
  let s := construct 4096 256 (fun _ => 0) in
  exists k s2,
    (p <- Allocators.AllocateArray policy 5 4 4 ;;
     Allocators.DeallocateArray policy p 4) s = Ok k s2 /\
    k = 5 /\ m_CurrentOffset s2 = m_CurrentOffset s.
Proof.
  cbv zeta.
  exists 5,
    (state_of ((p <- Allocators.AllocateArray
                       (mkPolicy true true false true true false) 5 4 4 ;;
                Allocators.DeallocateArray
                  (mkPolicy true true false true true false) p 4)
                 (construct 4096 256 (fun _ => 0)))).
  split; [vm_compute; reflexivity|].
  apply (DeallocateArray_returns_count
           (mkPolicy true true false true true false) 5 4 4
           (construct 4096 256 (fun _ => 0)) 4128
           (state_of (Allocators.AllocateArray
                        (mkPolicy true true false true true false) 5 4 4
                        (construct 4096 256 (fun _ => 0))))).
  - vm_compute. split; [discriminate | reflexivity].
  - vm_compute. repeat split; try reflexivity; discriminate.
  - left. split; vm_compute; reflexivity.
Defined.

Lemma DestructArray_loop_S (i : nat) :
  Legacy.DestructArray_loop (S i) = Z.of_nat i :: Legacy.DestructArray_loop i.
Proof. reflexivity. Qed.

Lemma Legacy_DeleteArray_Ok_inv policy (p : StackArrayPtr) sz s l s' :
  Legacy.DeleteArray_StackArrayPtr policy p sz s = Ok l s' ->
  l = Legacy.DestructArray (count (array_header p)).
Proof.
  intros H. unfold Legacy.DeleteArray_StackArrayPtr, bind, ret in H.
  destruct (Legacy.DeallocateArray_StackArrayPtr policy p sz s)
    as [k sm|e sm] eqn:E; [|discriminate].
  inversion H; subst; clear H.
  unfold Legacy.DeallocateArray_StackArrayPtr, bind, ret in E.
  destruct (Legacy.GetAddressFromPtr policy (array_ptr p) s)
    as [a sa|e sa]; [|discriminate].
  destruct (Legacy.GetEndOffset _ _ _ sa) as [eo se|e se]; [|discriminate].
  destruct (Legacy.DeallocateInternal _ _ _ _ se) as [[] sd|e sd];
    [|discriminate].
  inversion E. reflexivity.
Qed.

(** X25.  In the allocator of [Source/StackAllocator], [DeleteArray] of an
    array handle with count 0, when the release succeeds, runs the
    destructor [2^64 - 1] times, beginning with index [2^64 - 2]: the
    loop of [DestructArray] starts at [objectCount - 1], which wraps. *)
Theorem Legacy_DeleteArray_of_empty_array policy (p : StackArrayPtr) sz s l s' :
  count (array_header p) = 0 ->
  Legacy.DeleteArray_StackArrayPtr policy p sz s = Ok l s' ->
  Z.of_nat (length l) = modulus - 1 /\ hd_error l = Some (modulus - 2).
Proof.
  intros Hc H. apply Legacy_DeleteArray_Ok_inv in H. subst l.
  rewrite Hc. unfold Legacy.DestructArray.
  change (wrap (0 - 1)) with (Z.succ (modulus - 2)).
  split.
  - rewrite DestructArray_loop_length. rewrite Z2Nat.id by discriminate.
    unfold Z.succ. ring.
  - rewrite Z2Nat.inj_succ by discriminate.
    rewrite DestructArray_loop_S. cbn [hd_error].
    rewrite Z2Nat.id by discriminate. reflexivity.
Qed.

Lemma Legacy_DeleteArray_of_empty_array_witness :
  let s := state_of (Legacy.NewArray Default 0 4 4
                       (construct 4096 64 (fun _ => 0))) in
  let p := mkStackArrayPtr 4112 (mkStackArrayHeader 0 0) in
  exists l s',
    Legacy.DeleteArray_StackArrayPtr Default p 4 s = Ok l s' /\
    Z.of_nat (length l) = modulus - 1 /\ hd_error l = Some (modulus - 2).
Proof.
  cbv zeta.
  exists (Legacy.DestructArray 0),
    (state_of (Legacy.DeallocateArray_StackArrayPtr Default
                 (mkStackArrayPtr 4112 (mkStackArrayHeader 0 0)) 4
                 (state_of (Legacy.NewArray Default 0 4 4
                              (construct 4096 64 (fun _ => 0)))))).
  assert (H : Legacy.DeleteArray_StackArrayPtr Default
                (mkStackArrayPtr 4112 (mkStackArrayHeader 0 0)) 4
                (state_of (Legacy.NewArray Default 0 4 4
                             (construct 4096 64 (fun _ => 0))))
              = Ok (Legacy.DestructArray 0)
                  (state_of (Legacy.DeallocateArray_StackArrayPtr Default
                     (mkStackArrayPtr 4112 (mkStackArrayHeader 0 0)) 4
                     (state_of (Legacy.NewArray Default 0 4 4
                                  (construct 4096 64 (fun _ => 0))))))).
  { unfold Legacy.DeleteArray_StackArrayPtr, bind, ret.
    replace (Legacy.DeallocateArray_StackArrayPtr Default
               (mkStackArrayPtr 4112 (mkStackArrayHeader 0 0)) 4
               (state_of (Legacy.NewArray Default 0 4 4
                            (construct 4096 64 (fun _ => 0)))))
      with (Ok (A := Size) 0
              (state_of (Legacy.DeallocateArray_StackArrayPtr Default
                 (mkStackArrayPtr 4112 (mkStackArrayHeader 0 0)) 4
                 (state_of (Legacy.NewArray Default 0 4 4
                              (construct 4096 64 (fun _ => 0)))))))
      by (vm_compute; reflexivity).
    reflexivity. }
  split; [exact H|].
  apply (Legacy_DeleteArray_of_empty_array Default
           (mkStackArrayPtr 4112 (mkStackArrayHeader 0 0)) 4 _ _ _
           eq_refl H).
Defined.

(** * The range of the ownership check *)

(** C6, as amended.  Under [OwnershipCheck], a release of a pointer that
    the null check lets through is refused with [NotOwnedPointer] exactly
    when the address lies outside the closed range from the start address
    to the end address, [startAddress + totalSize]: outside it the call
    aborts with [NotOwnedPointer] and leaves the allocator as it was; an
    address in the range, the one past the last byte of the arena
    included, passes the ownership check, and no later check answers
    [NotOwnedPointer]. *)
Theorem ownership_check_closed_range policy (t : Allocated) s :
  OwnershipCheck policy = true ->
  (NullCheck policy = true -> payload t <> 0) ->
  m_EndAddress s = m_StartAddress s + m_TotalSize s ->
  (~ (m_StartAddress s <= payload t <= m_StartAddress s + m_TotalSize s) ->
   release policy t s = Abort NotOwnedPointer s) /\
  (m_StartAddress s <= payload t <= m_StartAddress s + m_TotalSize s ->
   failure (release policy t s) <> Some NotOwnedPointer).
Proof.
  intros HO HN He.
  rewrite release_normal_form. unfold release_checks.
  assert (E0 : NullCheck policy && (payload t =? 0) = false).
  { destruct (NullCheck policy); [|reflexivity]. cbn [andb].
    apply Z.eqb_neq. apply HN. reflexivity. }
  rewrite E0, HO. cbn [andb]. split.
  - intros Hout.
    destruct (Allocators.OwnsAddress (payload t) s) eqn:E.
    + apply OwnsAddress_closed_range in E. rewrite He in E. contradiction.
    + reflexivity.
  - intros Hin.
    assert (E : Allocators.OwnsAddress (payload t) s = true).
    { apply OwnsAddress_closed_range. rewrite He. exact Hin. }
    rewrite E. cbn [negb].
    destruct (StackCheck policy && _); [cbn; discriminate|].
    destruct (BoundsCheck policy && _); cbn; discriminate.
Qed.

Lemma ownership_check_closed_range_witness :
  let s := construct 4096 64 (fun _ => 0) in
  release Default (RawPointer 4161) s = Abort NotOwnedPointer s /\
  release Default (RawPointer 4095) s = Abort NotOwnedPointer s /\
  failure (release Default
             (ObjectHandle (mkStackPtr 4160 (mkStackHeader 0 0))) s)
  <> Some NotOwnedPointer /\
  failure (release Default (RawPointer 4096) s) <> Some NotOwnedPointer.
Proof.
  cbv zeta.
  set (s := construct 4096 64 (fun _ => 0)).
  split; [|split; [|split]].
  - apply (proj1 (ownership_check_closed_range Default (RawPointer 4161) s
                    eq_refl ltac:(intros _; discriminate) eq_refl)).
    cbn. lia.
  - apply (proj1 (ownership_check_closed_range Default (RawPointer 4095) s
                    eq_refl ltac:(intros _; discriminate) eq_refl)).
    cbn. lia.
  - apply (proj2 (ownership_check_closed_range Default
                    (ObjectHandle (mkStackPtr 4160 (mkStackHeader 0 0))) s
                    eq_refl ltac:(intros _; discriminate) eq_refl)).
    cbn. lia.
  - apply (proj2 (ownership_check_closed_range Default (RawPointer 4096) s
                    eq_refl ltac:(intros _; discriminate) eq_refl)).
    cbn. lia.
Defined.

(** C6, the claim as stated fails: the range of the ownership check is
    closed.  Under [OwnershipCheck] the one-past-the-end address passes:
    for an arena of 64 bytes at 4096, [GetAddressFromPtr] accepts address
    4160 = 4096 + 64, and so does the [Deallocate] of a handle at that
    address. *)
Theorem OwnsAddress_accepts_one_past_the_end :
  let s := construct 4096 64 (fun _ => 0) in
  m_StartAddress s + m_TotalSize s = 4160 /\
  Allocators.OwnsAddress 4160 s = true /\
  Allocators.GetAddressFromPtr Default 4160 s = Ok 4160 s /\
  failure (Allocators.Deallocate_StackPtr Default
             (mkStackPtr 4160 (mkStackHeader 0 0)) s)
  <> Some NotOwnedPointer.
Proof.
  cbv zeta. repeat split; try reflexivity.
  vm_compute. discriminate.
Qed.

(** The closed range is the one that the allocator needs.  Under
    [SizeCheck] the payload of every allocation that lies within the
    address space is in the closed range, so that the ownership check
    lets it through. *)
Lemma allocated_pointer_is_owned policy (c : Allocation) s t s1 :
  SizeCheck policy = true ->
  within_address_space policy c s ->
  m_EndAddress s = m_StartAddress s + m_TotalSize s ->
  allocate policy c s = Ok t s1 ->
  Allocators.OwnsAddress (payload t) s1 = true.
Proof.
  intros HS Hw He Ha.
  pose proof Hw as (Hal & Hsz & Hst & Hcur & Hmod).
  pose proof (headerSize_of_range policy c) as Hh.
  pose proof (GetTotalHeaderSize_cases policy (headerSize_of policy c)) as Hth.
  destruct (allocate_exact policy c s t s1 Hw Ha) as (HP & Hfit & -> & ->).
  specialize (Hfit HS).
  rewrite payload_allocation_result.
  apply OwnsAddress_closed_range. cbn [m_StartAddress m_EndAddress].
  rewrite He. destruct (BoundsCheck policy); lia.
Qed.

(** The end address is reached: when the arena is full, an allocation of
    no bytes is not refused and returns the one-past-the-end address,
    which the release of the allocation hands to the ownership check. *)
Lemma allocation_at_the_end_of_the_arena :
  let policy := mkPolicy true false true true true false in
  let s0 := construct 4096 64 (fun _ => 0) in
  let s1 := state_of (allocate policy (NewCall 64 1) s0) in
  exists s2 s3,
    allocate policy (NewArrayCall 0 4 4) s1
    = Ok (ArrayHandle (mkStackArrayPtr 4160 (mkStackArrayHeader 64 0)) 4) s2 /\
    m_StartAddress s2 + m_TotalSize s2 = 4160 /\
    release policy
      (ArrayHandle (mkStackArrayPtr 4160 (mkStackArrayHeader 64 0)) 4) s2
    = Ok tt s3 /\
    m_CurrentOffset s3 = 64.
Proof.
  cbv zeta. do 2 eexists.
  split; [vm_compute; reflexivity|]. split; [reflexivity|].
  split; [vm_compute; reflexivity|]. reflexivity.
Qed.

(** * Unwinding, release by release *)

(** The header of a committed allocation holds the current offset at
    which the allocation was made. *)
Lemma allocate_records_start policy (c : Allocation) s t s1 :
  within_address_space policy c s ->
  allocate policy c s = Ok t s1 ->
  startOffset_at policy t s1 = m_CurrentOffset s.
Proof.
  intros Hw Ha.
  pose proof Hw as (Hal & Hsz & Hst & Hcur & Hmod).
  pose proof (headerSize_of_range policy c) as Hh.
  pose proof (GetTotalHeaderSize_cases policy (headerSize_of policy c)) as Hth.
  unfold sizeof_BoundGuardBack, sizeof_Offset in Hmod.
  destruct (allocate_exact policy c s t s1 Hw Ha) as (HP & _ & -> & ->).
  apply reads_after_allocation; try assumption; try reflexivity;
    destruct (BoundsCheck policy); lia.
Qed.

Lemma rollbacks_app policy (ts : list Allocated) (t : Allocated) :
  forall s sm s',
    release_all policy ts s = Ok tt sm ->
    release policy t sm = Ok tt s' ->
    rollbacks policy (ts ++ [t]) s
    = rollbacks policy ts s ++ [m_CurrentOffset s'].
Proof.
  induction ts as [|u ts IH]; intros s sm s' Hts Ht.
  - apply ret_Ok_inv in Hts. destruct Hts as [_ <-].
    cbn [app rollbacks]. rewrite Ht. reflexivity.
  - cbn [release_all] in Hts.
    apply bind_Ok_inv in Hts. destruct Hts as ([] & s1 & Hu & Hts).
    cbn [app rollbacks]. rewrite Hu.
    rewrite (IH s1 sm s' Hts Ht). reflexivity.
Qed.

(** Allocations followed by the releases that pair with them, in reverse
    order: release by release, the current offset goes back through the
    start offsets that the allocations recorded. *)
Lemma LIFO_unwind_rollbacks policy (cs : list Allocation) :
  forall s ts s1 s2,
    in_address_space policy cs s ->
    allocate_all policy cs s = Ok ts s1 ->
    release_all policy ts s1 = Ok tt s2 ->
    rollbacks policy ts s1 = rev (start_offsets policy cs s).
Proof.
  induction cs as [|c cs IH]; intros s ts s1 s2 Hin Ha Hr.
  - apply ret_Ok_inv in Ha. destruct Ha as [<- <-]. reflexivity.
  - cbn [allocate_all] in Ha. cbn [in_address_space] in Hin.
    destruct Hin as [Hc Hin].
    apply bind_Ok_inv in Ha. destruct Ha as (t & sa & Ht & Ha).
    apply bind_Ok_inv in Ha. destruct Ha as (ts' & sb & Hts & Ha).
    apply ret_Ok_inv in Ha. destruct Ha as [<- <-].
    rewrite Ht in Hin.
    destruct (allocate_within policy c s t sa Hc Ht) as (E1 & L1 & F1 & R).
    destruct (allocate_all_frame policy cs sa ts' sb Hin Hts) as (E2 & L2 & F2).
    apply release_all_app in Hr. destruct Hr as (sm & Hrs & Hrt).
    rewrite (rollbacks_app policy ts' t sb sm s2 Hrs Hrt).
    rewrite (IH sa ts' sb sm Hin Hts Hrs).
    cbn [start_offsets]. rewrite Ht. cbn [rev].
    rewrite (allocate_records_start policy c s t sa Hc Ht).
    apply release_all_memory in Hrs. destruct Hrs as [Em Es].
    destruct (R sm s2) as [C _].
    + congruence.
    + intros x Hx. rewrite Em. apply F2. rewrite E1. exact Hx.
    + exact Hrt.
    + rewrite C. reflexivity.
Qed.

(** C7, as amended.  On a constructed allocator, allocations that lie
    within the address space, followed by the releases of all of them in
    reverse order, every call passing the checks that are enabled: each
    release rolls the current offset back to the start offset that its
    allocation recorded, so that the offsets after the releases are the
    recorded start offsets in reverse, and [GetUsedSize ()] is 0 after
    the last release. *)
Theorem LIFO_unwind_to_zero policy startPtr totalSize (m : Memory)
  (cs : list Allocation) ts s1 s2 :
  let s0 := construct startPtr totalSize m in
  in_address_space policy cs s0 ->
  allocate_all policy cs s0 = Ok ts s1 ->
  release_all policy ts s1 = Ok tt s2 ->
  rollbacks policy ts s1 = rev (start_offsets policy cs s0) /\
  GetUsedSize s2 = 0 /\ m_CurrentOffset s2 = 0.
Proof.
  intros s0 Hin Ha Hr.
  destruct (LIFO_unwind policy cs s0 ts s1 s2 Hin Ha Hr) as [C U].
  split; [exact (LIFO_unwind_rollbacks policy cs s0 ts s1 s2 Hin Ha Hr)|].
  split; [apply U; reflexivity | exact C].
Qed.

Lemma LIFO_unwind_to_zero_witness :
  let policy := mkPolicy true false true true true false in
  let cs := [AllocateCall 8 8; NewCall 12 4; NewArrayCall 5 4 4;
             AllocateArrayCall 3 8 8] in
  let s0 := construct 4096 1024 (fun _ => 0) in
  exists ts s1 s2,
    allocate_all policy cs s0 = Ok ts s1 /\
    release_all policy ts s1 = Ok tt s2 /\
    m_CurrentOffset s1 = 96 /\
    start_offsets policy cs s0 = [0; 24; 36; 56] /\
    (rollbacks policy ts s1 = rev (start_offsets policy cs s0) /\
     GetUsedSize s2 = 0 /\ m_CurrentOffset s2 = 0).
Proof.
  cbv zeta. do 3 eexists.
  split; [vm_compute; reflexivity|].
  split; [vm_compute; reflexivity|].
  split; [reflexivity|].
  split; [vm_compute; reflexivity|].
  apply (LIFO_unwind_to_zero (mkPolicy true false true true true false)
           4096 1024 (fun _ => 0)
           [AllocateCall 8 8; NewCall 12 4; NewArrayCall 5 4 4;
            AllocateArrayCall 3 8 8]).
  - vm_compute. repeat split; try reflexivity; discriminate.
  - vm_compute. reflexivity.
  - vm_compute. reflexivity.
Defined.

(** C7, the claim as stated fails for allocations that wrap around the
    address space.  Without [SizeCheck] nothing stops an allocation of
    2^64 - 32 bytes: the current offset reaches 2^64 - 8, the next
    allocation wraps to the start of the arena and writes its in-place
    header over the header of the first one, and the releases in reverse
    order end with [GetUsedSize ()] at 2^64 - 8.  With the checks on, the
    same happens through the overflow of the size check: all checks pass
    and the releases end with [GetUsedSize ()] at 8. *)
Lemma LIFO_unwind_wrapped :
  let s0 := construct 4104 64 (fun _ => 0) in
  (exists ts s1 s2,
     allocate_all Release
       [AllocateCall 8 16; AllocateCall (2 ^ 64 - 32) 8; AllocateCall 8 16] s0
     = Ok ts s1 /\
     release_all Release ts s1 = Ok tt s2 /\
     GetUsedSize s2 = 2 ^ 64 - 8) /\
  (exists ts s1 s2,
     allocate_all (mkPolicy true false true true true false)
       [AllocateCall 8 16; AllocateCall (2 ^ 64 - 40) 8; AllocateCall 8 8] s0
     = Ok ts s1 /\
     release_all (mkPolicy true false true true true false) ts s1 = Ok tt s2 /\
     GetUsedSize s2 = 8).
Proof.
  cbv zeta. split.
  - do 3 eexists. split; [vm_compute; reflexivity|].
    split; vm_compute; reflexivity.
  - do 3 eexists. split; [vm_compute; reflexivity|].
    split; vm_compute; reflexivity.
Qed.

(** * The current offset in the states a caller reaches *)

(** ** Live allocations lie one above the other *)

(** The start offset that a release reads depends on the bytes below the
    payload only. *)
Lemma startOffset_at_ext policy (t : Allocated) s s' :
  headerSize_at policy t <= payload t < modulus ->
  (forall x, x < payload t -> memory s' x = memory s x) ->
  startOffset_at policy t s' = startOffset_at policy t s.
Proof.
  intros Hp Hm.
  destruct t as [p|h|h sz|p sz];
    cbn [startOffset_at headerSize_at payload] in *; try reflexivity.
  - pose proof (sizeof_InplaceHeader_cases policy) as Hs.
    rewrite wrap_small by lia.
    f_equal. apply load_InplaceHeader_ext. intros x Hx. apply Hm. lia.
  - unfold sizeof_StackArrayHeader, sizeof_Offset in *.
    rewrite wrap_small by lia.
    unfold load_StackArrayHeader. cbn [array_startOffset].
    apply load_Offset_ext. intros x Hx. apply Hm. lia.
Qed.

Lemma startOffset_at_same_memory policy (t : Allocated) s s' :
  memory s' = memory s ->
  startOffset_at policy t s' = startOffset_at policy t s.
Proof.
  intros E. destruct t; cbn [startOffset_at]; try rewrite E; reflexivity.
Qed.

Lemma stacked_nonneg policy s (live : list Allocated) :
  forall top, stacked policy s live top -> 0 <= top.
Proof.
  induction live as [|t live IH]; intros top H.
  - exact H.
  - cbn [stacked] in H. destruct H as (Hso & _ & H).
    apply IH in H. lia.
Qed.

Lemma stacked_weaken policy s (live : list Allocated) top top' :
  top <= top' -> stacked policy s live top -> stacked policy s live top'.
Proof.
  intros Hle H. destruct live as [|t live].
  - cbn [stacked] in *. lia.
  - cbn [stacked] in *. destruct H as (Hso & Hp & H).
    split; [lia|]. split; [lia | exact H].
Qed.

(** The allocations made before a live allocation lie one above the other
    as well. *)
Lemma stacked_app policy s (later live : list Allocated) :
  forall top, stacked policy s (later ++ live) top -> stacked policy s live top.
Proof.
  induction later as [|t later IH]; intros top H.
  - exact H.
  - cbn [app stacked] in H. destruct H as (Hso & _ & H).
    apply IH in H. apply (stacked_weaken policy s live _ top Hso H).
Qed.

(** Writes at or above the address of [top] leave the live allocations
    as they are. *)
Lemma stacked_frame policy s s' (live : list Allocated) :
  m_StartAddress s' = m_StartAddress s ->
  0 <= m_StartAddress s ->
  forall top,
    m_StartAddress s + top < modulus ->
    (forall x, x < m_StartAddress s + top -> memory s' x = memory s x) ->
    stacked policy s live top -> stacked policy s' live top.
Proof.
  intros Est Hst.
  induction live as [|t live IH]; intros top Htop Hm H.
  - exact H.
  - cbn [stacked] in *. destruct H as (Hso & Hp & H).
    assert (E : startOffset_at policy t s' = startOffset_at policy t s).
    { apply startOffset_at_ext; [lia|].
      intros x Hx. apply Hm. lia. }
    rewrite E, Est. split; [exact Hso|]. split; [exact Hp|].
    apply IH; [lia | | exact H].
    intros x Hx. apply Hm. lia.
Qed.

Lemma stacked_same_memory policy s s' (live : list Allocated) :
  memory s' = memory s -> m_StartAddress s' = m_StartAddress s ->
  forall top, stacked policy s live top -> stacked policy s' live top.
Proof.
  intros Em Est.
  induction live as [|t live IH]; intros top H.
  - exact H.
  - cbn [stacked] in *. destruct H as (Hso & Hp & H).
    rewrite (startOffset_at_same_memory policy t s s' Em), Est.
    split; [exact Hso|]. split; [exact Hp|]. apply IH. exact H.
Qed.

Lemma headerSize_at_allocation_result policy (c : Allocation) p so eo :
  headerSize_at policy (allocation_result c p so eo) = headerSize_of policy c.
Proof. destruct c; reflexivity. Qed.

(** A committed allocation goes on top of the live allocations. *)
Lemma stacked_after_allocation policy (c : Allocation) s (live : list Allocated)
  P eo :
  within_address_space policy c s ->
  GetTotalHeaderSize policy (headerSize_of policy c) <= P
  < GetTotalHeaderSize policy (headerSize_of policy c) + alignment_of c ->
  m_CurrentOffset s + P + size_of c <= eo
  <= m_CurrentOffset s + P + size_of c + 8 ->
  stacked policy s live (m_CurrentOffset s) ->
  let p := m_StartAddress s + m_CurrentOffset s + P in
  stacked policy
    (mkStackAllocator (m_StartAddress s) (m_EndAddress s) eo
       (m_TotalSize s) eo (memory_after policy c p eo s))
    (allocation_result c p (m_CurrentOffset s) eo :: live) eo.
Proof.
  intros Hw HP Heo Hl p.
  pose proof Hw as (Hal & Hsz & Hst & Hcur & Hmod).
  pose proof (headerSize_of_range policy c) as Hh.
  pose proof (GetTotalHeaderSize_cases policy (headerSize_of policy c)) as Hth.
  unfold sizeof_BoundGuardBack, sizeof_Offset in Hmod.
  assert (Hths : headerSize_of policy c
                 <= GetTotalHeaderSize policy (headerSize_of policy c)).
  { rewrite Hth. destruct (BoundsCheck policy); lia. }
  set (s1 := mkStackAllocator _ _ _ _ _ _).
  destruct (reads_after_allocation policy c s p eo s1 Hw) as (Eso & _);
    try reflexivity; try (subst p; lia).
  cbn [stacked]. rewrite Eso.
  rewrite payload_allocation_result, headerSize_at_allocation_result.
  split; [lia|]. split; [subst p s1; cbn [m_StartAddress]; lia|].
  apply (stacked_frame policy s s1 live eq_refl Hst); [lia | | exact Hl].
  intros x Hx. subst s1. cbn [memory].
  apply memory_after_outside; [exact Hsz|]. left. subst p. lia.
Qed.

Lemma allocate_stacked policy (c : Allocation) s t s' (live : list Allocated) :
  within_address_space policy c s ->
  allocate policy c s = Ok t s' ->
  stacked policy s live (m_CurrentOffset s) ->
  stacked policy s' (t :: live) (m_CurrentOffset s').
Proof.
  intros Hw Ha Hl.
  destruct (allocate_exact policy c s t s' Hw Ha) as (HP & _ & -> & ->).
  cbn [m_CurrentOffset].
  apply stacked_after_allocation; try assumption.
  destruct (BoundsCheck policy); lia.
Qed.

Lemma Legacy_allocate_stacked policy (c : Allocation) s t s'
  (live : list Allocated) :
  within_address_space policy c s ->
  Legacy_allocate policy c s = Ok t s' ->
  stacked policy s live (m_CurrentOffset s) ->
  stacked policy s' (t :: live) (m_CurrentOffset s').
Proof.
  intros Hw Ha Hl.
  destruct (Legacy_allocate_exact policy c s t s' Hw Ha) as (HP & _ & -> & ->).
  cbn [m_CurrentOffset].
  apply stacked_after_allocation; try assumption. lia.
Qed.

(** ** The invariant *)

(** In every state reached, the live allocations lie one above the other
    below the current offset, which the size check bounds: this holds for
    any allocator whose allocations go on top, bounded, and whose releases
    roll back to the start offset they read. *)
Section ReachableStacked.

Variable policy : StackAllocatorPolicy.
Variable allocate_ : Allocation -> M Allocated.
Variable release_ : Allocated -> M unit.
Variable reset_ : M unit.
Variable slack : Z.

Hypothesis slack_nonneg : 0 <= slack.

Hypothesis allocate_on_top : forall c s t s' live,
  within_address_space policy c s ->
  allocate_ c s = Ok t s' ->
  stacked policy s live (m_CurrentOffset s) ->
  stacked policy s' (t :: live) (m_CurrentOffset s').

Hypothesis allocate_bounded : forall c s t s',
  0 <= m_TotalSize s ->
  allocate_ c s = Ok t s' ->
  m_TotalSize s' = m_TotalSize s /\
  0 <= m_CurrentOffset s' <= m_TotalSize s + slack.

Hypothesis release_rolls_back : forall t s s',
  release_ t s = Ok tt s' -> s' = rolled_back (startOffset_at policy t s) s.

Hypothesis reset_rolls_back : forall s s',
  reset_ s = Ok tt s' -> s' = rolled_back 0 s.

Lemma reachable_stacked (live : list Allocated) s :
  reachable (within_address_space policy) allocate_ release_ reset_ live s ->
  0 <= m_TotalSize s /\
  m_CurrentOffset s <= m_TotalSize s + slack /\
  stacked policy s live (m_CurrentOffset s).
Proof.
  intros R.
  induction R as [startPtr totalSize m Ht
                 | live s c t s' R IH Hw Ha
                 | later t earlier s s' R IH Hr
                 | live s s' R IH Hr].
  - cbn. repeat split; lia.
  - destruct IH as (Ht & Hc & Hl).
    destruct (allocate_bounded _ _ _ _ Ht Ha) as [E B]. rewrite E.
    split; [exact Ht|]. split; [lia|].
    apply (allocate_on_top _ _ _ _ _ Hw Ha Hl).
  - destruct IH as (Ht & Hc & Hl).
    apply release_rolls_back in Hr. subst s'.
    apply stacked_app in Hl. cbn [stacked] in Hl.
    destruct Hl as (Hso & _ & Hl).
    cbn. split; [exact Ht|]. split; [lia|].
    apply (stacked_same_memory policy s); [reflexivity | reflexivity | exact Hl].
  - destruct IH as (Ht & Hc & Hl).
    apply reset_rolls_back in Hr. subst s'.
    cbn. repeat split; lia.
Qed.

End ReachableStacked.

Lemma Reset_rolled_back s s' :
  Allocators.Reset s = Ok tt s' \/ Legacy.Reset s = Ok tt s' ->
  s' = rolled_back 0 s.
Proof. intros [H|H]; inversion H; reflexivity. Qed.

(** C5, as amended.  Under [SizeCheck], and in the allocator of
    [Source/Allocators] without [BoundsCheck], the current offset lies
    between 0 and the total size in every state reached from a constructed
    allocator by allocations that lie within the address space, releases
    of live allocations (made earlier and not freed since by a release or
    a [Reset]) and resets, every call passing the checks that are
    enabled.  Where a release leaves the offset is derived from the code:
    it is the start offset in the header of the allocation, which is at or
    below the offset that the size check bounded. *)
Theorem current_offset_within_total policy (live : list Allocated) s :
  SizeCheck policy = true ->
  (BoundsCheck policy = false ->
   reachable_Allocators policy live s ->
   0 <= m_CurrentOffset s <= m_TotalSize s) /\
  (reachable_Legacy policy live s ->
   0 <= m_CurrentOffset s <= m_TotalSize s).
Proof.
  intros HS. split.
  - intros HB R.
    apply (reachable_stacked policy (allocate policy) (release policy)
             Allocators.Reset 0) in R.
    + destruct R as (_ & Hc & Hl). apply stacked_nonneg in Hl. lia.
    + lia.
    + intros c s0 t s' l. apply allocate_stacked.
    + intros c s0 t s' _ H.
      destruct (allocate_within_total policy c s0 t s' HS HB H) as [E B].
      split; [exact E | lia].
    + intros t s0 s' H. apply (release_Ok_inv policy t s0 s' H).
    + intros s0 s' H. apply Reset_rolled_back. left. exact H.
  - intros R.
    apply (reachable_stacked policy (Legacy_allocate policy)
             (Legacy_release policy) Legacy.Reset 0) in R.
    + destruct R as (_ & Hc & Hl). apply stacked_nonneg in Hl. lia.
    + lia.
    + intros c s0 t s' l. apply Legacy_allocate_stacked.
    + intros c s0 t s' _ H.
      destruct (Legacy_allocate_within_total policy c s0 t s' HS H) as [E B].
      split; [exact E | lia].
    + intros t s0 s' H. apply (Legacy_release_Ok_inv policy t s0 s' H).
    + intros s0 s' H. apply Reset_rolled_back. right. exact H.
Qed.

Lemma current_offset_within_total_witness :
  let policy := mkPolicy true false true true true false in
  let s0 := construct 4096 64 (fun _ => 0) in
  let s1 := state_of (allocate policy (NewCall 8 8) s0) in
  let s2 := state_of (allocate policy (AllocateCall 8 8) s1) in
  let s3 := state_of (release policy (RawPointer 4120) s2) in
  let s4 := state_of (allocate policy (AllocateArrayCall 2 8 8) s3) in
  let s5 := state_of (Allocators.Reset s4) in
  let s6 := state_of (allocate policy (NewCall 16 8) s5) in
  let l1 := state_of (Legacy_allocate Default (NewCall 8 8) s0) in
  let l2 := state_of (Legacy_allocate Default (AllocateCall 8 8) l1) in
  let l3 := state_of (Legacy_release Default (RawPointer 4152) l2) in
  let l4 := state_of (Legacy.Reset l3) in
  let l5 := state_of (Legacy_allocate Default (NewCall 16 8) l4) in
  (m_CurrentOffset s2 = 32 /\ m_CurrentOffset s3 = 8 /\
   0 <= m_CurrentOffset s6 <= m_TotalSize s6) /\
  (m_CurrentOffset l2 = 64 /\ m_CurrentOffset l3 = 24 /\
   0 <= m_CurrentOffset l5 <= m_TotalSize l5).
Proof.
  cbv zeta.
  set (policy := mkPolicy true false true true true false).
  set (s0 := construct 4096 64 (fun _ => 0)).
  set (t1 := ObjectHandle (mkStackPtr 4096 (mkStackHeader 0 8))).
  set (s1 := state_of (allocate policy (NewCall 8 8) s0)).
  set (s2 := state_of (allocate policy (AllocateCall 8 8) s1)).
  set (s3 := state_of (release policy (RawPointer 4120) s2)).
  set (s4 := state_of (allocate policy (AllocateArrayCall 2 8 8) s3)).
  set (s5 := state_of (Allocators.Reset s4)).
  set (s6 := state_of (allocate policy (NewCall 16 8) s5)).
  set (u1 := ObjectHandle (mkStackPtr 4112 (mkStackHeader 0 24))).
  set (l1 := state_of (Legacy_allocate Default (NewCall 8 8) s0)).
  set (l2 := state_of (Legacy_allocate Default (AllocateCall 8 8) l1)).
  set (l3 := state_of (Legacy_release Default (RawPointer 4152) l2)).
  set (l4 := state_of (Legacy.Reset l3)).
  set (l5 := state_of (Legacy_allocate Default (NewCall 16 8) l4)).
  assert (R0 : forall p, reachable_Allocators p [] s0
                         /\ reachable_Legacy p [] s0).
  { intros p. split; apply reach_construct; vm_compute;
      (split; [discriminate | reflexivity]). }
  assert (R1 : reachable_Allocators policy [t1] s1).
  { apply (reach_allocate _ _ _ _ [] s0 (NewCall 8 8) t1 s1 (proj1 (R0 _))).
    - vm_compute. repeat split; try reflexivity; discriminate.
    - vm_compute. reflexivity. }
  assert (R2 : reachable_Allocators policy [RawPointer 4120; t1] s2).
  { apply (reach_allocate _ _ _ _ [t1] s1 (AllocateCall 8 8) _ s2 R1).
    - vm_compute. repeat split; try reflexivity; discriminate.
    - vm_compute. reflexivity. }
  assert (R3 : reachable_Allocators policy [t1] s3).
  { apply (reach_release _ _ _ _ [] (RawPointer 4120) [t1] s2 s3 R2).
    vm_compute. reflexivity. }
  assert (R4 : reachable_Allocators policy [RawArrayPointer 4120 8; t1] s4).
  { apply (reach_allocate _ _ _ _ [t1] s3 (AllocateArrayCall 2 8 8) _ s4 R3).
    - vm_compute. repeat split; try reflexivity; discriminate.
    - vm_compute. reflexivity. }
  assert (R5 : reachable_Allocators policy [] s5).
  { apply (reach_reset _ _ _ _ _ s4 s5 R4). vm_compute. reflexivity. }
  assert (R6 : reachable_Allocators policy
                 [ObjectHandle (mkStackPtr 4096 (mkStackHeader 0 16))] s6).
  { apply (reach_allocate _ _ _ _ [] s5 (NewCall 16 8) _ s6 R5).
    - vm_compute. repeat split; try reflexivity; discriminate.
    - vm_compute. reflexivity. }
  assert (L1 : reachable_Legacy Default [u1] l1).
  { apply (reach_allocate _ _ _ _ [] s0 (NewCall 8 8) u1 l1 (proj2 (R0 _))).
    - vm_compute. repeat split; try reflexivity; discriminate.
    - vm_compute. reflexivity. }
  assert (L2 : reachable_Legacy Default [RawPointer 4152; u1] l2).
  { apply (reach_allocate _ _ _ _ [u1] l1 (AllocateCall 8 8) _ l2 L1).
    - vm_compute. repeat split; try reflexivity; discriminate.
    - vm_compute. reflexivity. }
  assert (L3 : reachable_Legacy Default [u1] l3).
  { apply (reach_release _ _ _ _ [] (RawPointer 4152) [u1] l2 l3 L2).
    vm_compute. reflexivity. }
  assert (L4 : reachable_Legacy Default [] l4).
  { apply (reach_reset _ _ _ _ _ l3 l4 L3). vm_compute. reflexivity. }
  assert (L5 : reachable_Legacy Default
                 [ObjectHandle (mkStackPtr 4112 (mkStackHeader 0 32))] l5).
  { apply (reach_allocate _ _ _ _ [] l4 (NewCall 16 8) _ l5 L4).
    - vm_compute. repeat split; try reflexivity; discriminate.
    - vm_compute. reflexivity. }
  split; (split; [reflexivity|]); (split; [reflexivity|]).
  - exact (proj1 (current_offset_within_total policy _ s6 eq_refl)
             eq_refl R6).
  - exact (proj2 (current_offset_within_total Default _ l5 eq_refl) L5).
Defined.

(** C5, the claim as stated fails, and each condition of the amended claim
    is needed.  On an arena of 64 bytes:

    - without [SizeCheck], [New] of a 100-byte object passes every enabled
      check and leaves the current offset at 100;
    - under [SizeCheck], a release through a pointer whose allocation has
      been freed: [New]; [Allocate]; the release of the first, which frees
      both; [AllocateArray] of 100 objects of size 0, whose header lies
      where the header of the freed [Allocate] was; the release of the
      freed pointer reads the count as its start offset and leaves the
      current offset at 100;
    - under [SizeCheck], an allocation that wraps around the address
      space: [Allocate (2^64 - 16, 8)] passes the size check by overflow
      and lowers the current offset from 16 to 8; the header of the next
      allocation is written over its header, and its release, a release of
      a live allocation, leaves the current offset at 100.

    The last two hold in both allocators. *)
Lemma current_offset_exceeds_total :
  let s0 := construct 4096 64 (fun _ => 0) in
  let policy := mkPolicy true false false false false false in
  let stale :=
    [Allocating (NewCall 8 8); Allocating (AllocateCall 8 8);
     Releasing (ObjectHandle (mkStackPtr 4096 (mkStackHeader 0 8)));
     Allocating (AllocateArrayCall 100 0 8);
     Releasing (RawPointer 4112)] in
  let wrapped :=
    [Allocating (AllocateCall 8 8); Allocating (AllocateCall (2 ^ 64 - 16) 8);
     Allocating (AllocateArrayCall 100 0 8);
     Releasing (RawPointer 4120)] in
  (exists t s,
     allocate Release (NewCall 100 4) s0 = Ok t s /\
     reachable_Allocators Release [t] s /\
     m_TotalSize s = 64 /\ m_CurrentOffset s = 100) /\
  (exists s s',
     perform_all policy stale s0 = Ok tt s /\
     Legacy_perform_all policy stale s0 = Ok tt s' /\
     m_TotalSize s = 64 /\ m_CurrentOffset s = 100 /\
     m_TotalSize s' = 64 /\ m_CurrentOffset s' = 100) /\
  (exists ts s1,
     allocate_all policy
       [AllocateCall 8 8; AllocateCall (2 ^ 64 - 16) 8;
        AllocateArrayCall 100 0 8] s0 = Ok ts s1 /\
     In (RawPointer 4120) ts /\
     ~ within_address_space policy (AllocateCall (2 ^ 64 - 16) 8)
         (state_of (allocate policy (AllocateCall 8 8) s0))) /\
  (exists s s',
     perform_all policy wrapped s0 = Ok tt s /\
     Legacy_perform_all policy wrapped s0 = Ok tt s' /\
     m_TotalSize s = 64 /\ m_CurrentOffset s = 100 /\
     m_TotalSize s' = 64 /\ m_CurrentOffset s' = 100).
Proof.
  cbv zeta. split; [|split; [|split]].
  - do 2 eexists. split; [vm_compute; reflexivity|].
    split; [|split; reflexivity].
    apply (reach_allocate _ _ _ _ [] (construct 4096 64 (fun _ => 0))
             (NewCall 100 4)).
    + apply reach_construct. vm_compute. split; [discriminate | reflexivity].
    + vm_compute. repeat split; try reflexivity; discriminate.
    + vm_compute. reflexivity.
  - do 2 eexists. split; [vm_compute; reflexivity|].
    split; [vm_compute; reflexivity|]. repeat split; reflexivity.
  - do 2 eexists. split; [vm_compute; reflexivity|].
    split; [right; left; reflexivity|].
    intros (_ & _ & _ & _ & H). vm_compute in H. apply H. reflexivity.
  - do 2 eexists. split; [vm_compute; reflexivity|].
    split; [vm_compute; reflexivity|]. repeat split; reflexivity.
Qed.

(** With [SizeCheck] and [BoundsCheck] the allocator of
    [Source/Allocators] checks the size before it adds the back guard to
    the offset: [New] of a 48-byte object on an arena of 64 bytes passes
    the size check at 64 and leaves the current offset at 72. *)
Lemma current_offset_exceeds_total_by_back_guard :
  let s := state_of (Allocators.New Default 48 8
                       (construct 4096 64 (fun _ => 0))) in
  reachable_Allocators Default
    [ObjectHandle (mkStackPtr 4112 (mkStackHeader 0 72))] s /\
  m_TotalSize s = 64 /\ m_CurrentOffset s = 72.
Proof.
  cbv zeta. split; [|split].
  - apply (reach_allocate _ _ _ _ [] (construct 4096 64 (fun _ => 0))
             (NewCall 48 8)
             (ObjectHandle (mkStackPtr 4112 (mkStackHeader 0 72)))).
    + apply reach_construct. vm_compute. split; [discriminate | reflexivity].
    + vm_compute. repeat split; try reflexivity; discriminate.
    + vm_compute. reflexivity.
  - reflexivity.
  - reflexivity.
Qed.

(** X20.  Under [SizeCheck], in every state that the allocator of
    [Source/Allocators] reaches from a constructed allocator by
    allocations that lie within the address space, releases of live
    allocations (made earlier and not freed since by a release or a
    [Reset]) and resets, every call passing the checks that are enabled,
    the current offset lies between 0 and the total size, plus the eight
    bytes of one back guard under [BoundsCheck]. *)
Theorem current_offset_within_total_and_back_guard policy
  (live : list Allocated) s :
  SizeCheck policy = true ->
  reachable_Allocators policy live s ->
  0 <= m_CurrentOffset s
  <= m_TotalSize s + (if BoundsCheck policy then sizeof_BoundGuardBack else 0).
Proof.
  intros HS R.
  set (slack := if BoundsCheck policy then sizeof_BoundGuardBack else 0).
  assert (I : 0 <= m_CurrentOffset s <= m_TotalSize s + slack);
    [|exact I].
  apply (reachable_stacked policy (allocate policy) (release policy)
           Allocators.Reset slack) in R.
  - destruct R as (_ & Hc & Hl). apply stacked_nonneg in Hl. lia.
  - subst slack. unfold sizeof_BoundGuardBack, sizeof_Offset.
    destruct (BoundsCheck policy); lia.
  - intros c s0 t s' l. apply allocate_stacked.
  - intros c s0 t s' Ht H.
    exact (allocate_within_total_and_guard policy c s0 t s' HS Ht H).
  - intros t s0 s' H. apply (release_Ok_inv policy t s0 s' H).
  - intros s0 s' H. apply Reset_rolled_back. left. exact H.
Qed.

Lemma current_offset_within_total_and_back_guard_witness :
  let s0 := construct 4096 64 (fun _ => 0) in
  let t1 := ObjectHandle (mkStackPtr 4112 (mkStackHeader 0 32)) in
  let s1 := state_of (allocate Default (NewCall 8 8) s0) in
  let s2 := state_of (release Default t1 s1) in
  let s3 := state_of (allocate Default (AllocateCall 4 4) s2) in
  let s4 := state_of (Allocators.Reset s3) in
  let s5 := state_of (allocate Default (NewCall 48 8) s4) in
  m_CurrentOffset s1 = 32 /\ m_CurrentOffset s2 = 0 /\
  m_CurrentOffset s5 = 72 /\
  0 <= m_CurrentOffset s5 <= m_TotalSize s5 + sizeof_BoundGuardBack.
Proof.
  cbv zeta.
  set (s0 := construct 4096 64 (fun _ => 0)).
  set (t1 := ObjectHandle (mkStackPtr 4112 (mkStackHeader 0 32))).
  set (s1 := state_of (allocate Default (NewCall 8 8) s0)).
  set (s2 := state_of (release Default t1 s1)).
  set (s3 := state_of (allocate Default (AllocateCall 4 4) s2)).
  set (s4 := state_of (Allocators.Reset s3)).
  set (s5 := state_of (allocate Default (NewCall 48 8) s4)).
  assert (R0 : reachable_Allocators Default [] s0).
  { apply reach_construct. vm_compute. split; [discriminate | reflexivity]. }
  assert (R1 : reachable_Allocators Default [t1] s1).
  { apply (reach_allocate _ _ _ _ [] s0 (NewCall 8 8) t1 s1 R0).
    - vm_compute. repeat split; try reflexivity; discriminate.
    - vm_compute. reflexivity. }
  assert (R2 : reachable_Allocators Default [] s2).
  { apply (reach_release _ _ _ _ [] t1 [] s1 s2 R1). vm_compute. reflexivity. }
  assert (R3 : reachable_Allocators Default [RawPointer 4128] s3).
  { apply (reach_allocate _ _ _ _ [] s2 (AllocateCall 4 4) _ s3 R2).
    - vm_compute. repeat split; try reflexivity; discriminate.
    - vm_compute. reflexivity. }
  assert (R4 : reachable_Allocators Default [] s4).
  { apply (reach_reset _ _ _ _ _ s3 s4 R3). vm_compute. reflexivity. }
  assert (R5 : reachable_Allocators Default
                 [ObjectHandle (mkStackPtr 4112 (mkStackHeader 0 72))] s5).
  { apply (reach_allocate _ _ _ _ [] s4 (NewCall 48 8) _ s5 R4).
    - vm_compute. repeat split; try reflexivity; discriminate.
    - vm_compute. reflexivity. }
  split; [reflexivity|]. split; [reflexivity|]. split; [reflexivity|].
  exact (current_offset_within_total_and_back_guard Default _ s5 eq_refl R5).
Defined.
